(** * The BlitzMax command catalog parser of [src/bmxdocs.ts]

    A shallow embedding of the line parser ([addCommand]), the parameter
    sub-parser ([parseCommandParams]) and the command index
    ([cacheCommands], [cacheCommandsIfEmpty], [getCommand]), followed by the
    properties of the catalog format that the code establishes or breaks.

    Text is modelled by [string]: one [ascii] per UTF-16 code unit, for
    catalogs whose code units are below 256 (ISO 8859-1).  White space and
    letter case are those of JavaScript on that range. *)

From Stdlib Require Import String Ascii List Bool Arith ZArith Lia.
Import ListNotations.
Local Open Scope list_scope.
Local Open Scope string_scope.

(** ** The JavaScript string primitives the parser calls *)

Module JS.

(** [if ( s )] on a string: only the empty string is falsy. *)
Definition truthy (s : string) : bool := negb (s =? "").

(** [s.length] *)
Definition len (s : string) : Z := Z.of_nat (String.length s).

Fixpoint drop (n : nat) (s : string) : string :=
  match n, s with
  | O, _ => s
  | S _, "" => ""
  | S k, String _ s' => drop k s'
  end.

Fixpoint take (n : nat) (s : string) : string :=
  match n, s with
  | O, _ => ""
  | S _, "" => ""
  | S k, String c s' => String c (take k s')
  end.

(** A relative index of [slice]/[substr]: negative counts from the end,
    and the result is clamped to [0 .. length]. *)
Definition clampIndex (s : string) (i : Z) : nat :=
  if (i <? 0)%Z then Z.to_nat (Z.max (len s + i) 0)
  else Z.to_nat (Z.min i (len s)).

(** [s.slice( b, e )] *)
Definition slice (s : string) (b e : Z) : string :=
  let from := clampIndex s b in
  let upto := clampIndex s e in
  take (upto - from) (drop from s).

(** [s.substr( start )], the length argument left out *)
Definition substr (s : string) (start : Z) : string :=
  drop (clampIndex s start) s.

(** [s.includes( pat )] *)
Fixpoint includes (pat s : string) : bool :=
  match s with
  | "" => prefix pat ""
  | String _ s' => prefix pat s || includes pat s'
  end.

(** [s.indexOf( pat )]: the first position where [pat] starts, [-1] when
    there is none. *)
Fixpoint indexOf (pat s : string) : Z :=
  match s with
  | "" => if prefix pat "" then 0%Z else (-1)%Z
  | String _ s' =>
      if prefix pat s then 0%Z
      else let i := indexOf pat s' in
           if (i <? 0)%Z then (-1)%Z else (i + 1)%Z
  end.

(** The scan of [split] for a non-empty separator.  [skip] counts the
    characters of a separator that was matched and is still to be passed
    over; the head of the result is the segment being read. *)
Fixpoint splitLoop (sep : string) (skip : nat) (s : string) : list string :=
  match s with
  | "" => [""]
  | String c s' =>
      match skip with
      | S k => splitLoop sep k s'
      | O =>
          if prefix sep s
          then "" :: splitLoop sep (String.length sep - 1) s'
          else match splitLoop sep 0 s' with
               | seg :: segs => String c seg :: segs
               | [] => [String c ""]
               end
      end
  end.

(** [s.split( sep )]; an empty separator splits into single code units. *)
Definition split (sep s : string) : list string :=
  if sep =? "" then map (fun c => String c "") (list_ascii_of_string s)
  else splitLoop sep 0 s.

(** The lower case of one code unit: [A]..[Z], and the accented capitals
    192..222 without the multiplication sign 215. *)
Definition lowerChar (c : ascii) : ascii :=
  let n := nat_of_ascii c in
  if ((65 <=? n) && (n <=? 90))%nat then ascii_of_nat (n + 32)
  else if ((192 <=? n) && (n <=? 222) && negb (n =? 215))%nat
       then ascii_of_nat (n + 32)
  else c.

(** [s.toLowerCase()] *)
Fixpoint toLowerCase (s : string) : string :=
  match s with
  | "" => ""
  | String c s' => String (lowerChar c) (toLowerCase s')
  end.

(** White space and line terminators below 256: TAB, LF, VT, FF, CR, SP
    and the no-break space 160. *)
Definition isWhiteSpace (c : ascii) : bool :=
  let n := nat_of_ascii c in
  (((9 <=? n) && (n <=? 13)) || (n =? 32) || (n =? 160))%nat.

Fixpoint trimStart (s : string) : string :=
  match s with
  | "" => ""
  | String c s' => if isWhiteSpace c then trimStart s' else s
  end.

Fixpoint trimEnd (s : string) : string :=
  match s with
  | "" => ""
  | String c s' =>
      match trimEnd s' with
      | "" => if isWhiteSpace c then "" else String c ""
      | t => String c t
      end
  end.

(** [s.trim()] *)
Definition trim (s : string) : string := trimStart (trimEnd s).

(** [a[i]] of an array of strings, [undefined] out of range. *)
Definition at_ (a : list string) (i : nat) : option string := nth_error a i.

(** [undefined] and strings under [+]: an absent operand prints as
    the word undefined. *)
Definition toStr (o : option string) : string :=
  match o with Some s => s | None => "undefined" end.

End JS.

(** ** Data model *)

(** [interface BmxCommandParam] *)
Record BmxCommandParam := mkParam {
  name : string;
  type : string;
  default : string
}.

(** What the calls on a [vscode.MarkdownString] leave in it, in order. *)
Inductive MarkdownPart :=
| Codeblock (code language : string)
| PlainText (text : string)
| Markdown (text : string).

Definition MarkdownString := list MarkdownPart.

(** A [vscode.SnippetString]: the value it was built with, then the
    appended pieces. *)
Inductive SnippetPart :=
| SnippetValue (value : string)
| SnippetText (text : string)
| Placeholder (text : string).

Definition SnippetString := list SnippetPart.

(** [interface BmxCommand]; an optional field that is unset is [None]. *)
Record BmxCommand := mkCommand {
  realName : string;
  searchName : string;
  description : option string;
  shortMarkdownString : option MarkdownString;
  markdownString : option MarkdownString;
  isFunction : bool;
  returns : option string;
  params : option (list BmxCommandParam);
  paramsRaw : option string;
  paramsPretty : option string;
  url : option string;
  urlLocation : option string;
  module : option string;
  insertText : option SnippetString
}.

(** Assignments to the fields of a command. *)
Definition set_realName v c := mkCommand v (searchName c) (description c) (shortMarkdownString c) (markdownString c) (isFunction c) (returns c) (params c) (paramsRaw c) (paramsPretty c) (url c) (urlLocation c) (module c) (insertText c).
Definition set_searchName v c := mkCommand (realName c) v (description c) (shortMarkdownString c) (markdownString c) (isFunction c) (returns c) (params c) (paramsRaw c) (paramsPretty c) (url c) (urlLocation c) (module c) (insertText c).
Definition set_description v c := mkCommand (realName c) (searchName c) v (shortMarkdownString c) (markdownString c) (isFunction c) (returns c) (params c) (paramsRaw c) (paramsPretty c) (url c) (urlLocation c) (module c) (insertText c).
Definition set_shortMarkdownString v c := mkCommand (realName c) (searchName c) (description c) v (markdownString c) (isFunction c) (returns c) (params c) (paramsRaw c) (paramsPretty c) (url c) (urlLocation c) (module c) (insertText c).
Definition set_markdownString v c := mkCommand (realName c) (searchName c) (description c) (shortMarkdownString c) v (isFunction c) (returns c) (params c) (paramsRaw c) (paramsPretty c) (url c) (urlLocation c) (module c) (insertText c).
Definition set_isFunction v c := mkCommand (realName c) (searchName c) (description c) (shortMarkdownString c) (markdownString c) v (returns c) (params c) (paramsRaw c) (paramsPretty c) (url c) (urlLocation c) (module c) (insertText c).
Definition set_returns v c := mkCommand (realName c) (searchName c) (description c) (shortMarkdownString c) (markdownString c) (isFunction c) v (params c) (paramsRaw c) (paramsPretty c) (url c) (urlLocation c) (module c) (insertText c).
Definition set_params v c := mkCommand (realName c) (searchName c) (description c) (shortMarkdownString c) (markdownString c) (isFunction c) (returns c) v (paramsRaw c) (paramsPretty c) (url c) (urlLocation c) (module c) (insertText c).
Definition set_paramsRaw v c := mkCommand (realName c) (searchName c) (description c) (shortMarkdownString c) (markdownString c) (isFunction c) (returns c) (params c) v (paramsPretty c) (url c) (urlLocation c) (module c) (insertText c).
Definition set_paramsPretty v c := mkCommand (realName c) (searchName c) (description c) (shortMarkdownString c) (markdownString c) (isFunction c) (returns c) (params c) (paramsRaw c) v (url c) (urlLocation c) (module c) (insertText c).
Definition set_url v c := mkCommand (realName c) (searchName c) (description c) (shortMarkdownString c) (markdownString c) (isFunction c) (returns c) (params c) (paramsRaw c) (paramsPretty c) v (urlLocation c) (module c) (insertText c).
Definition set_urlLocation v c := mkCommand (realName c) (searchName c) (description c) (shortMarkdownString c) (markdownString c) (isFunction c) (returns c) (params c) (paramsRaw c) (paramsPretty c) (url c) v (module c) (insertText c).
Definition set_module v c := mkCommand (realName c) (searchName c) (description c) (shortMarkdownString c) (markdownString c) (isFunction c) (returns c) (params c) (paramsRaw c) (paramsPretty c) (url c) (urlLocation c) v (insertText c).
Definition set_insertText v c := mkCommand (realName c) (searchName c) (description c) (shortMarkdownString c) (markdownString c) (isFunction c) (returns c) (params c) (paramsRaw c) (paramsPretty c) (url c) (urlLocation c) (module c) v.

(** Truthiness of an optional string: unset and empty are both falsy. *)
Definition truthyStr (o : option string) : bool :=
  match o with Some s => JS.truthy s | None => false end.

(** Truthiness of an optional object or array: only unset is falsy. *)
Definition isSet {A : Type} (o : option A) : bool :=
  match o with Some _ => true | None => false end.

(** ** The parameter sub-parser: [parseCommandParams] *)

(** [enum parsePart] *)
Module parsePart.
Inductive t := name | type | default.
End parsePart.

(** The variables of the character loop. [scanned] is [cmd.params]; the
    parameter being filled is its last element. *)
Record Scan := mkScan {
  scanned : list BmxCommandParam;
  createNewParam : bool;
  parse : parsePart.t;
  inString : bool
}.

(** An update of [cmd.params[cmd.params.length - 1]] in place.  The loop
    enters with [createNewParam] set, so the array is never empty where the
    source reads its last element (lemma [scan_live] below). *)
Fixpoint onLast (f : BmxCommandParam -> BmxCommandParam)
    (ps : list BmxCommandParam) : list BmxCommandParam :=
  match ps with
  | [] => []
  | [p] => [f p]
  | p :: rest => p :: onLast f rest
  end.

Definition set_type (v : string) (p : BmxCommandParam) :=
  mkParam (name p) v (default p).
Definition push_name (chr : ascii) (p : BmxCommandParam) :=
  mkParam (name p ++ String chr "") (type p) (default p).
Definition push_type (chr : ascii) (p : BmxCommandParam) :=
  mkParam (name p) (type p ++ String chr "") (default p).
Definition push_default (chr : ascii) (p : BmxCommandParam) :=
  mkParam (name p) (type p) (default p ++ String chr "").

(** The character that opens and closes a string literal. *)
Definition dquote : ascii := ascii_of_nat 34.

(** One turn of the loop over [cmd.paramsRaw], on the character [chr]. *)
Definition scanChar (st : Scan) (chr : ascii) : Scan :=
  let ps :=
    if createNewParam st
    then (scanned st ++ [mkParam "" "Int" ""])%list
    else scanned st in
  let inStr := inString st in
  match parse st with
  | parsePart.name =>
      if (chr =? ":")%char then
        mkScan (onLast (set_type "") ps) false parsePart.type inStr
      else if (chr =? "=")%char then
        mkScan ps false parsePart.default inStr
      else if (chr =? ",")%char then
        mkScan ps true parsePart.name inStr
      else if (chr =? "%")%char then
        mkScan (onLast (set_type "Int") ps) false parsePart.type inStr
      else if (chr =? "#")%char then
        mkScan (onLast (set_type "Float") ps) false parsePart.type inStr
      else if (chr =? "!")%char then
        mkScan (onLast (set_type "Double") ps) false parsePart.type inStr
      else if (chr =? "$")%char then
        mkScan (onLast (set_type "String") ps) false parsePart.type inStr
      else if negb (chr =? " ")%char then
        mkScan (onLast (push_name chr) ps) false parsePart.name inStr
      else
        mkScan ps false parsePart.name inStr
  | parsePart.type =>
      if (chr =? ",")%char then
        mkScan ps true parsePart.name inStr
      else if (chr =? "=")%char then
        mkScan ps false parsePart.default inStr
      else if negb (chr =? " ")%char then
        mkScan (onLast (push_type chr) ps) false parsePart.type inStr
      else
        mkScan ps false parsePart.type inStr
  | parsePart.default =>
      let st' :=
        if inStr then
          mkScan (onLast (push_default chr) ps) false parsePart.default inStr
        else if (chr =? ",")%char then
          mkScan ps true parsePart.name inStr
        else if negb (chr =? " ")%char then
          mkScan (onLast (push_default chr) ps) false parsePart.default inStr
        else
          mkScan ps false parsePart.default inStr in
      if (chr =? dquote)%char
      then mkScan (scanned st') (createNewParam st') (parse st') (negb inStr)
      else st'
  end.

(** The loop [for ( index = 0; index < cmd.paramsRaw.length; index++ )]. *)
Fixpoint scanLoop (raw : string) (st : Scan) : Scan :=
  match raw with
  | "" => st
  | String chr rest => scanLoop rest (scanChar st chr)
  end.

(** The variables as the loop finds them. *)
Definition scanStart : Scan := mkScan [] true parsePart.name false.

(** What one parameter adds to [cmd.paramsPretty], the separator aside. *)
Definition prettyParam (p : BmxCommandParam) : string :=
  name p ++ ":" ++ type p ++
  (if (0 <? String.length (default p))%nat then " = " ++ default p else "").

(** The rendering loop ("Make things pretty!"). *)
Fixpoint prettyLoop (ps : list BmxCommandParam) : string :=
  match ps with
  | [] => ""
  | p :: rest =>
      prettyParam p ++
      (match rest with [] => "" | _ :: _ => ", " end) ++
      prettyLoop rest
  end.

(** [parseCommandParams( cmd )] *)
Definition parseCommandParams (cmd : BmxCommand) : BmxCommand :=
  match paramsRaw cmd with
  | None => cmd
  | Some raw0 =>
      if negb (JS.truthy raw0) then cmd else
      let raw := JS.trim raw0 in
      let cmd := set_paramsRaw (Some raw) cmd in
      if negb (JS.truthy raw) then cmd else
      let cmd := set_params (Some []) cmd in
      let st := scanLoop raw scanStart in
      let cmd := set_params (Some (scanned st)) cmd in
      set_paramsPretty (Some (prettyLoop (scanned st))) cmd
  end.

(** ** The line parser: the body of [addCommand] for one line *)

Inductive Error : Set := TypeError.

(** How a piece of code ends: with a value, or by throwing. *)
Inductive Completion (A : Type) :=
| Return (a : A)
| Throw (e : Error).
Arguments Return {A} a.
Arguments Throw {A} e.

Definition bind {A B : Type} (m : Completion A) (k : A -> Completion B)
  : Completion B :=
  match m with
  | Return a => k a
  | Throw e => Throw e
  end.

Notation "x <- m ;; k" := (bind m (fun x => k))
  (at level 61, m at next level, right associativity).

(** A method call or property read on [a[i]]: a [TypeError] when the
    element is [undefined]. *)
Definition deref (a : list string) (i : nat) : Completion string :=
  match JS.at_ a i with
  | Some s => Return s
  | None => Throw TypeError
  end.

Definition LF : string := String (ascii_of_nat 10) "".

(** The object literal every line starts from. *)
Definition newCommand : BmxCommand :=
  mkCommand "No Name" "no name" None None None false None None None None
            None None None None.

(** "Figure out URL" *)
Definition figureOutUrl (rightSide : string) (command : BmxCommand)
  : BmxCommand :=
  if JS.includes "#" rightSide then
    let loc := JS.substr rightSide (JS.indexOf "#" rightSide) in
    let command := set_urlLocation (Some loc) command in
    set_url (Some (JS.slice rightSide 0 (- JS.len loc))) command
  else
    set_url (Some rightSide) command.

(** "Track down module" *)
Definition trackDownModule (command : BmxCommand) : Completion BmxCommand :=
  match url command with
  | None => Return command
  | Some u =>
      if negb (JS.truthy u) then Return command else
      let pathSplits := JS.split "/" u in
      seg1 <- deref pathSplits 1 ;;
      if JS.toLowerCase seg1 =? "docs" then
        Return (set_module
                  (Some (JS.toStr (JS.at_ pathSplits 4) ++ "/" ++
                         JS.toStr (JS.at_ pathSplits 5))) command)
      else
        seg1' <- deref pathSplits 1 ;;
        if JS.toLowerCase seg1' =? "mod" then
          Return (set_module
                    (Some (JS.toStr (JS.at_ pathSplits 2) ++ "/" ++
                           JS.toStr (JS.at_ pathSplits 3))) command)
        else Return command
  end.

(** "Take care of the description": the new [leftSide] and the command. *)
Definition takeDescription (leftSide : string) (command : BmxCommand)
  : Completion (string * BmxCommand) :=
  if JS.includes " : " leftSide then
    d <- deref (JS.split " : " leftSide) 1 ;;
    Return (JS.slice leftSide 0 (- JS.len d - 3),
            set_description (Some d) command)
  else Return (leftSide, command).

(** The two assignments of "Figure out if this is a function":
    [paramsRaw], and the [leftSide] that is left. *)
Definition cutParams (leftSide : string) : string * string :=
  let paramsRaw :=
    JS.slice (JS.substr leftSide (JS.indexOf "(" leftSide + 1)) 0 (-1) in
  (paramsRaw, JS.slice leftSide 0 (- JS.len paramsRaw - 2)).

(** "Figure out if this is a function" *)
Definition takeParams (leftSide : string) (command : BmxCommand)
  : string * BmxCommand :=
  if JS.includes "(" leftSide then
    let '(paramsRaw, leftSide') := cutParams leftSide in
    let command := set_paramsRaw (Some paramsRaw) command in
    let command := parseCommandParams command in
    (leftSide', set_isFunction true command)
  else (leftSide, command).

(** "Returns?" *)
Definition takeReturns (leftSide : string) (command : BmxCommand)
  : string * BmxCommand :=
  if JS.includes ":" leftSide then
    let r := JS.substr leftSide (JS.indexOf ":" leftSide + 1) in
    (JS.slice leftSide 0 (- JS.len r - 1), set_returns (Some r) command)
  else (leftSide, command).

(** "And we should be left with the command name" *)
Definition takeName (leftSide : string) (command : BmxCommand) : BmxCommand :=
  let command := set_realName leftSide command in
  set_searchName (JS.toLowerCase (realName command)) command.

(** "Make a pretty markdown description of this command" *)
Definition makeMarkdown (command : BmxCommand) : BmxCommand :=
  if truthyStr (description command) || truthyStr (paramsPretty command) then
    let short : MarkdownString := [] in
    let full : MarkdownString := [] in
    let full :=
      match paramsPretty command with
      | Some pretty =>
          if JS.truthy pretty then
            let codeBlock := realName command in
            let codeBlock :=
              if truthyStr (returns command)
              then codeBlock ++ ":" ++ JS.toStr (returns command)
              else codeBlock in
            let codeBlock := codeBlock ++ "( " ++ pretty ++ " )" in
            (full ++ [Codeblock codeBlock "blitzmax"])%list
          else full
      | None => full
      end in
    let '(full, short) :=
      match description command with
      | Some d =>
          if JS.truthy d
          then ((full ++ [PlainText (d ++ LF)])%list,
                (short ++ [PlainText (d ++ LF)])%list)
          else (full, short)
      | None => (full, short)
      end in
    let '(full, short) :=
      match module command with
      | Some m =>
          if JS.truthy m
          then ((full ++ [Markdown ("$(package) _" ++ m ++ "_" ++ LF)])%list,
                (short ++ [Markdown ("$(package) _" ++ m ++ "_" ++ LF)])%list)
          else (full, short)
      | None => (full, short)
      end in
    set_markdownString (Some full) (set_shortMarkdownString (Some short) command)
  else command.

(** The loop over [command.params] of "Make pretty insertion text". *)
Fixpoint insertParams (ps : list BmxCommandParam) : SnippetString :=
  match ps with
  | [] => []
  | param :: rest =>
      ((if JS.truthy (default param)
        then Placeholder (default param)
        else Placeholder (name param ++ ":" ++ type param)) ::
       (match rest with [] => [] | _ :: _ => [SnippetText ", "] end) ++
       insertParams rest)%list
  end.

(** "Make pretty insertion text" *)
Definition makeInsertText (command : BmxCommand) : BmxCommand :=
  if isFunction command then
    let text := [SnippetValue (realName command); SnippetText "("] in
    let text :=
      match params command with
      | Some ps =>
          (text ++ [SnippetText " "] ++ insertParams ps ++ [SnippetText " "])%list
      | None => text
      end in
    set_insertText (Some (text ++ [SnippetText ")"])%list) command
  else command.

(** The body of the [forEach] callback for a non-empty [line], up to the
    [push]: the command it builds, or the error it throws. *)
Definition parseLine (line : string) : Completion BmxCommand :=
  let lineSplit := JS.split "|" line in
  let command := newCommand in
  leftSide <- deref lineSplit 0 ;;
  rightSide <- deref lineSplit (length lineSplit - 1) ;;
  let command := figureOutUrl rightSide command in
  command <- trackDownModule command ;;
  lc <- takeDescription leftSide command ;;
  let '(leftSide, command) := takeParams (fst lc) (snd lc) in
  let '(leftSide, command) := takeReturns leftSide command in
  let command := takeName leftSide command in
  let command := makeMarkdown command in
  let command := makeInsertText command in
  Return command.

(** ** The command index *)

(** What the module reads from its host: [os.EOL], the outcome of
    [fs.readFileSync] on the catalog ([None] when it throws) and
    [BlitzMaxPath] of [./helper]. *)
Record Host := mkHost {
  EOL : string;
  readFileSync : option string;
  BlitzMaxPath : option string
}.

(** The module's state: [_commandsList] ([None] while it is [undefined])
    and the number of "Documentation not found" warnings shown so far. *)
Record Index := mkIndex {
  _commandsList : option (list BmxCommand);
  warnings : nat
}.

(** The [forEach] of [addCommand] over the lines, on [_commandsList]. *)
Fixpoint forEachLine (lines : list string) (cl : option (list BmxCommand))
  : option (list BmxCommand) * Completion unit :=
  match lines with
  | [] => (cl, Return tt)
  | line :: rest =>
      if JS.truthy line then
        match parseLine line with
        | Throw e => (cl, Throw e)
        | Return command =>
            match cl with
            | None => (cl, Throw TypeError)
            | Some l => forEachLine rest (Some (l ++ [command])%list)
            end
        end
      else forEachLine rest cl
  end.

(** [addCommand( data )] *)
Definition addCommand (h : Host) (data : string)
    (cl : option (list BmxCommand))
  : option (list BmxCommand) * Completion unit :=
  forEachLine (JS.split (EOL h) data) cl.

(** [!_commandsList || _commandsList.length <= 0] *)
Definition unsetOrEmpty (cl : option (list BmxCommand)) : bool :=
  match cl with
  | None => true
  | Some l => (length l <=? 0)%nat
  end.

(** [_commandsList ? _commandsList.length >= 0 : false] *)
Definition reportPopulated (cl : option (list BmxCommand)) : bool :=
  match cl with
  | None => false
  | Some l => (0 <=? length l)%nat
  end.

(** [cacheCommands( showPopup )] *)
Definition cacheCommands (h : Host) (showPopup : bool) (ix : Index)
  : bool * Index :=
  let cl :=
    match readFileSync h with
    | None => _commandsList ix
    | Some data => fst (addCommand h data (Some []))
    end in
  let w :=
    if truthyStr (BlitzMaxPath h) && showPopup then
      if unsetOrEmpty cl then S (warnings ix) else warnings ix
    else warnings ix in
  (reportPopulated cl, mkIndex cl w).

(** [cacheCommandsIfEmpty( showPopup )] *)
Definition cacheCommandsIfEmpty (h : Host) (showPopup : bool) (ix : Index)
  : bool * Index :=
  let ix :=
    if unsetOrEmpty (_commandsList ix)
    then snd (cacheCommands h showPopup ix)
    else ix in
  (reportPopulated (_commandsList ix), ix).

(** [interface GetCommandFilter]; a flag left out is [None]. *)
Record GetCommandFilter := mkFilter {
  hasDescription : option bool;
  hasMarkdown : option bool;
  hasParameters : option bool
}.

Definition flag (o : option bool) : bool :=
  match o with Some b => b | None => false end.

(** Whether the [continue]s of "Filter out some matches" let [cmd] pass. *)
Definition passes (filter : option GetCommandFilter) (cmd : BmxCommand)
  : bool :=
  match filter with
  | None => true
  | Some f =>
      if flag (hasDescription f) && negb (truthyStr (description cmd))
      then false
      else if flag (hasMarkdown f) && negb (isSet (markdownString cmd))
      then false
      else if flag (hasParameters f) &&
              match params cmd with
              | None => true
              | Some ps => (length ps <=? 0)%nat
              end
      then false
      else true
  end.

(** The loop of [getCommand] over [_commandsList]. *)
Fixpoint findLoop (command : option string) (filter : option GetCommandFilter)
    (cl : list BmxCommand) : list BmxCommand :=
  match cl with
  | [] => []
  | cmd :: rest =>
      if negb (truthyStr command) ||
         (truthyStr command && (searchName cmd =? JS.toStr command))
      then if passes filter cmd
           then cmd :: findLoop command filter rest
           else findLoop command filter rest
      else findLoop command filter rest
  end.

(** [getCommand( command, filter )] *)
Definition getCommand (h : Host) (command : option string)
    (filter : option GetCommandFilter) (ix : Index)
  : list BmxCommand * Index :=
  let ix := snd (cacheCommandsIfEmpty h false ix) in
  match _commandsList ix with
  | None => ([], ix)
  | Some cl =>
      let command :=
        if truthyStr command
        then Some (JS.toLowerCase (JS.toStr command))
        else command in
      (findLoop command filter cl, ix)
  end.

(** The module as it is loaded: [let _commandsList: BmxCommand[]]. *)
Definition initialIndex : Index := mkIndex None 0.

(** ** The catalog lines and hosts the statements below refer to *)

(** The example line of the specification, as it is written there. *)
Definition sinLine : string :=
  "Sin#(angle#) : Returns sine of angle | ... | /mod/math.mod/math.bmx/Sin".

(** The same record without blanks around the field separators. *)
Definition sinLineTight : string :=
  "Sin#(angle#) : Returns sine of angle|...|/mod/math.mod/math.bmx/Sin".

(** A POSIX host whose catalog file holds [data]. *)
Definition hostWith (data : string) : Host :=
  mkHost LF (Some data) (Some "/opt/BlitzMax").

(** A catalog whose first line has a last field without a slash. *)
Definition slashlessCatalog : string :=
  "Abs|index.html" ++ LF ++
  "ACos:Double( x:Double ) : Inverse Cosine of x|/docs/html/Modules/Math/Math/index.html#ACos".

(** A line with an empty name field. *)
Definition namelessLine : string :=
  "|/mod/brl.mod/blitz.mod/doc/commands.html".

(** The raw parameter text [a:Int, b:String = "hi, there"]. *)
Definition quotedRaw : string :=
  "a:Int, b:String = " ++ String dquote "hi, there" ++ String dquote "".

(** What the specification takes for [paramsRaw]: the text from just after
    the first opening parenthesis up to the character before the final
    closing one. *)
Fixpoint lastIndexOfChar (c : ascii) (s : string) : option nat :=
  match s with
  | "" => None
  | String d s' =>
      match lastIndexOfChar c s' with
      | Some i => Some (S i)
      | None => if (c =? d)%char then Some 0%nat else None
      end
  end.

Definition paramsRawBySpec (leftSide : string) : option string :=
  match lastIndexOfChar ")" leftSide with
  | Some j => Some (JS.slice leftSide (JS.indexOf "(" leftSide + 1) (Z.of_nat j))
  | None => None
  end.

(** The record of [sinLine]. *)
Definition sinRecord : BmxCommand :=
  match parseLine sinLine with
  | Return c => c
  | Throw _ => newCommand
  end.

(** A catalog that lists the same name twice, and what quick help
    finds in it for that name. *)
Definition twoSinCatalog : string :=
  "Sin : Sine of an angle|/mod/brl.mod/math.mod/doc/commands.html#Sin" ++ LF ++
  "Sin : Sine, in radians|/mod/pub.mod/trig.mod/doc/commands.html#Sin".

Definition twoSinMatches : list BmxCommand :=
  fst (getCommand (hostWith twoSinCatalog) (Some "sin")
         (Some (mkFilter (Some true) None None))
         (snd (cacheCommandsIfEmpty (hostWith twoSinCatalog) true
                                    initialIndex))).

Definition secondSin : BmxCommand := nth 1 twoSinMatches newCommand.

(** ** Quick help and progress reports: what the user is shown *)

(** An item of a quick pick: [{ label, detail }]. *)
Record QuickPickItem := mkPickItem {
  label : string;
  detail : option string
}.

(** The calls on [vscode.window] that [showQuickHelp] and
    [generateQuickHelp] make, in order. *)
Inductive UiAction :=
| showInformationMessage (message : string)
| showErrorMessage (message : string)
| showQuickPick (items : list QuickPickItem).

(** [generateQuickHelp( command )]; [None] is a command that is
    [undefined]. *)
Definition generateQuickHelp (command : option BmxCommand) : list UiAction :=
  match command with
  | None => []
  | Some command =>
      if truthyStr (description command)
      then [showInformationMessage (JS.toStr (description command))]
      else [showErrorMessage
              (" " ++ String dquote (realName command) ++
               String dquote " has no help section")]
  end.

(** The [forEach] that fills [pickOptions]. *)
Fixpoint pickOptionsOf (commands : list BmxCommand) : list QuickPickItem :=
  match commands with
  | [] => []
  | m :: rest => mkPickItem (realName m) (module m) :: pickOptionsOf rest
  end.

(** The loop of the [then] callback of the quick pick, from [index] on.
    Every item is an object of its own, so [pickItem === selection] tells
    whether the user picked the item at [index]; [selection] is that
    position, [None] when the pick was dismissed. *)
Fixpoint pickLoop (pickOptions : list QuickPickItem) (index : nat)
    (selection : option nat) (commands : list BmxCommand) : list UiAction :=
  match pickOptions with
  | [] => []
  | _ :: rest =>
      if match selection with
         | Some i => (i =? index)%nat
         | None => false
         end
      then generateQuickHelp (nth_error commands index)
      else pickLoop rest (S index) selection commands
  end.

(** [showQuickHelp( command )], with the user's answer to the quick pick,
    should one be shown: the calls on the window and the index after.
    The call made in the [then] callback is listed after the quick pick
    that it answers; the catalog file is the same for the load of
    [cacheCommandsIfEmpty] and the one [getCommand] may make. *)
Definition showQuickHelp (h : Host) (command : string)
    (selection : option nat) (ix : Index) : list UiAction * Index :=
  let ix := snd (cacheCommandsIfEmpty h true ix) in
  if negb (isSet (_commandsList ix)) then ([], ix) else
  let '(commands, ix) :=
    getCommand h (Some command) (Some (mkFilter (Some true) None None)) ix in
  if (1 <? length commands)%nat then
    let pickOptions := pickOptionsOf commands in
    ((showQuickPick pickOptions ::
      pickLoop pickOptions 0 selection commands)%list, ix)
  else if (length commands =? 1)%nat then
    (generateQuickHelp (nth_error commands 0), ix)
  else
    ([showErrorMessage
        ("No help available for " ++ String dquote command ++
         String dquote "")], ix).

(** The loop of [reportProgress] over the lines: the messages passed to
    [progress.report]. *)
Fixpoint reportLoop (str : list string) : list string :=
  match str with
  | [] => []
  | s :: rest =>
      let line := JS.trim s in
      if (1 <? JS.len line)%Z
      then line :: reportLoop rest
      else reportLoop rest
  end.

(** [reportProgress( data )] of the documentation rebuild. *)
Definition reportProgress (h : Host) (data : string) : list string :=
  reportLoop (JS.split (EOL h) data).

(** ** Notions used in the statements and proofs *)

(** The test of the loop of [getCommand] on one record, for the name as
    the caller passed it. *)
Definition selects (command : option string)
    (filter : option GetCommandFilter) (cmd : BmxCommand) : bool :=
  (negb (truthyStr command) ||
   (searchName cmd =? JS.toLowerCase (JS.toStr command))) &&
  passes filter cmd.

(** The fields that only the function test and the sub-parser write. *)
Definition paramFields (c : BmxCommand) :=
  (params c, paramsRaw c, paramsPretty c, isFunction c).

(** The two name fields. *)
Definition nameFields (c : BmxCommand) := (realName c, searchName c).

(** The fields that the markdown and the insertion text are made from. *)
Definition coreFields (c : BmxCommand) :=
  (realName c, searchName c, description c, isFunction c, returns c,
   params c, paramsRaw c, paramsPretty c, url c, urlLocation c, module c).

(** The fields that the sub-parser does not write. *)
Definition otherFields (c : BmxCommand) :=
  (realName c, searchName c, description c, isFunction c, returns c,
   url c, urlLocation c, module c,
   shortMarkdownString c, markdownString c, insertText c).

(** The text in front of the parameter list: the name, and the return
    type when there is one. *)
Definition headOf (nm : string) (ret : option string) : string :=
  match ret with
  | Some r => nm ++ ":" ++ r
  | None => nm
  end.

(** The description with its separator, when there is one. *)
Definition descText (desc : option string) : string :=
  match desc with
  | Some d => " : " ++ d
  | None => ""
  end.

(** The signature of a function: head and parameter list. *)
Definition signatureOf (nm : string) (ret : option string) (raw : string)
  : string :=
  headOf nm ret ++ "(" ++ raw ++ ")".

(** The parameter that the loop pushes when [createNewParam] is set. *)
Definition freshParam : BmxCommandParam := mkParam "" "Int" "".

(** The variables after the push that the next turn of the loop starts
    with, when one is due. *)
Definition materialize (st : Scan) : Scan :=
  if createNewParam st
  then mkScan (scanned st ++ [freshParam])%list false (parse st) (inString st)
  else st.

(** Characters that [Name] mode appends to the name. *)
Definition nameChar (c : ascii) : bool :=
  negb ((c =? ":") || (c =? "=") || (c =? ",") || (c =? "%") ||
        (c =? "#") || (c =? "!") || (c =? "$") || (c =? " "))%char.

(** Characters that [Type] mode appends to the type. *)
Definition typeChar (c : ascii) : bool :=
  negb ((c =? ",") || (c =? "=") || (c =? " "))%char.

Fixpoint allChars (P : ascii -> bool) (s : string) : bool :=
  match s with
  | "" => true
  | String c r => P c && allChars P r
  end.

(** The string flag after [c], in [Default] mode. *)
Definition toggle (inStr : bool) (c : ascii) : bool :=
  if (c =? dquote)%char then negb inStr else inStr.

(** Every character of [s] is appended when [Default] mode reads [s]
    with the string flag at [inStr]. *)
Fixpoint defaultOk (inStr : bool) (s : string) : bool :=
  match s with
  | "" => true
  | String c r =>
      (inStr || negb ((c =? ",") || (c =? " "))%char) &&
      defaultOk (toggle inStr c) r
  end.

(** The string flag after [Default] mode has read [s]. *)
Fixpoint defaultEnd (inStr : bool) (s : string) : bool :=
  match s with
  | "" => inStr
  | String c r => defaultEnd (toggle inStr c) r
  end.

(** A parameter whose three fields the parser reads back unchanged. *)
Definition fieldsOk (p : BmxCommandParam) : bool :=
  allChars nameChar (name p) && allChars typeChar (type p) &&
  defaultOk false (default p).

(** A parameter whose default value leaves no string literal open. *)
Definition closed (p : BmxCommandParam) : bool :=
  negb (defaultEnd false (default p)).

Definition settled (p : BmxCommandParam) : bool := fieldsOk p && closed p.

(** What holds of the loop variables after any number of turns. *)
Definition ScanInv (st : Scan) : Prop :=
  if createNewParam st then
    Forall (fun p => settled p = true) (scanned st) /\
    parse st = parsePart.name /\ inString st = false
  else
    exists done p,
      scanned st = (done ++ [p])%list /\
      Forall (fun p => settled p = true) done /\
      fieldsOk p = true /\
      match parse st with
      | parsePart.default => inString st = defaultEnd false (default p)
      | _ => default p = "" /\ inString st = false
      end.

(** [s] does not start with white space. *)
Definition headOk (s : string) : bool :=
  match s with
  | "" => true
  | String c _ => negb (JS.isWhiteSpace c)
  end.

(** What holds of the first parameter once the first character of a
    trimmed text was read: its name does not start with white space, and
    an empty name is not going to be extended. *)
Definition HeadInv (st : Scan) : Prop :=
  exists p0 rest,
    scanned st = p0 :: rest /\
    headOk (name p0) = true /\
    (name p0 = "" -> rest = [] ->
     createNewParam st = true \/ parse st <> parsePart.name).

(** The mode the loop is in after the rendering of [p]. *)
Definition modeAfter (p : BmxCommandParam) : parsePart.t :=
  if (0 <? String.length (default p))%nat
  then parsePart.default else parsePart.type.

(** The loop variables at the first character of a parameter that
    follows the parameters [acc]. *)
Definition startAt (acc : list BmxCommandParam) : Scan :=
  mkScan (acc ++ [freshParam])%list false parsePart.name false.

(** The rendering of all parameters but the last. *)
Fixpoint prettyInit (ps : list BmxCommandParam) : string :=
  match ps with
  | [] => ""
  | p :: rest => prettyParam p ++ ", " ++ prettyInit rest
  end.

(** Parameters that agree up to white space around type and default. *)
Definition sameParam (p q : BmxCommandParam) : Prop :=
  name p = name q /\
  JS.trim (type p) = JS.trim (type q) /\
  JS.trim (default p) = JS.trim (default q).

(** The rendering of [p] with the white space at its end removed. *)
Definition trimmedText (p : BmxCommandParam) : string :=
  if (0 <? String.length (default p))%nat then
    if JS.trimEnd (default p) =? ""
    then name p ++ ":" ++ type p ++ " ="
    else name p ++ ":" ++ type p ++ " = " ++ JS.trimEnd (default p)
  else name p ++ ":" ++ JS.trimEnd (type p).

(** The last parameter as the trimmed rendering shows it. *)
Definition trimmedParam (p : BmxCommandParam) : BmxCommandParam :=
  if (0 <? String.length (default p))%nat
  then mkParam (name p) (type p) (JS.trimEnd (default p))
  else mkParam (name p) (JS.trimEnd (type p)) "".

(** The [leftSide] that "Figure out if this is a function" starts from:
    the text before the first pipe of the line, without its description;
    [""] where the line is abandoned before that step. *)
Definition leftSideForParams (line : string) : string :=
  match deref (JS.split "|" line) 0 with
  | Return leftSide =>
      match takeDescription leftSide newCommand with
      | Return (l, _) => l
      | Throw _ => ""
      end
  | Throw _ => ""
  end.

(** A function with blanks inside its parentheses, and its record. *)
Definition acosLine : string :=
  "ACos:Double( x:Double ) : Inverse cosine of x|/mod/brl.mod/math.mod/ACos".

Definition acosRecord : BmxCommand :=
  match parseLine acosLine with
  | Return c => c
  | Throw _ => newCommand
  end.

(** A function whose parameter list holds one blank, and its record. *)
Definition blankListLine : string := "Foo( )|/mod/a.mod/b.mod/c".

Definition blankListRecord : BmxCommand :=
  match parseLine blankListLine with
  | Return c => c
  | Throw _ => newCommand
  end.

(** Empty parameter lists that are not the end of [leftSide]: a return
    type follows the first, a blank in front of the pipe the second. *)
Definition emptyListTypedLine : string := "Foo():Int|/mod/a.mod/b.mod/c".

Definition emptyListSpacedLine : string :=
  "Foo() | ... | /mod/a.mod/b.mod/c".

Definition emptyListTypedRecord : BmxCommand :=
  match parseLine emptyListTypedLine with
  | Return c => c
  | Throw _ => newCommand
  end.

Definition emptyListSpacedRecord : BmxCommand :=
  match parseLine emptyListSpacedLine with
  | Return c => c
  | Throw _ => newCommand
  end.

Example split_pipe :
  JS.split "|" "a|b||c" = ["a"; "b"; ""; "c"].
Proof. reflexivity. Qed.

Example split_desc :
  JS.split " : " "Foo : bar : baz" = ["Foo"; "bar"; "baz"].
Proof. reflexivity. Qed.

Example split_empty : JS.split "/" "" = [""].
Proof. reflexivity. Qed.

Example slice_neg : JS.slice "Sin#(angle#)" 0 (-8) = "Sin#".
Proof. reflexivity. Qed.

Example slice_zero : JS.slice "abc" 0 0 = "".
Proof. reflexivity. Qed.

Example trim_both : JS.trim "  a b  " = "a b".
Proof. reflexivity. Qed.

Example lower_mixed : JS.toLowerCase "No Name#1" = "no name#1".
Proof. reflexivity. Qed.

(** ** Strings: appending, cutting and searching *)

Section StringFacts.

Lemma sapp_nil_r (s : string) : s ++ "" = s.
Proof. induction s as [|c s IH]; simpl; [reflexivity | now rewrite IH]. Qed.

Lemma sapp_assoc (a b c : string) : (a ++ b) ++ c = a ++ (b ++ c).
Proof. induction a as [|x a IH]; simpl; [reflexivity | now rewrite IH]. Qed.

Lemma slength_app (a b : string) :
  String.length (a ++ b) = (String.length a + String.length b)%nat.
Proof. induction a as [|x a IH]; simpl; [reflexivity | now rewrite IH]. Qed.

Lemma drop_app (a b : string) : JS.drop (String.length a) (a ++ b) = b.
Proof. induction a as [|x a IH]; simpl; [now destruct b | exact IH]. Qed.

Lemma take_app (a b : string) : JS.take (String.length a) (a ++ b) = a.
Proof.
  induction a as [|x a IH]; simpl; [now destruct b | now rewrite IH].
Qed.

Lemma drop_0 (s : string) : JS.drop 0 s = s.
Proof. now destruct s. Qed.

Lemma prefix_char (a b : ascii) (s : string) :
  prefix (String a "") (String b s) = (a =? b)%char.
Proof.
  simpl. destruct (ascii_dec a b) as [->|Hne].
  - rewrite Ascii.eqb_refl. now destruct s.
  - symmetry. now apply Ascii.eqb_neq.
Qed.

(** A character that does not occur in [pre] is first found right
    after it. *)
Lemma indexOf_char_app (a : ascii) (pre rest : string) :
  JS.includes (String a "") pre = false ->
  JS.indexOf (String a "") (pre ++ String a rest) = JS.len pre.
Proof.
  induction pre as [|b pre IH]; intros Hno.
  - cbn [append JS.indexOf]. rewrite prefix_char, Ascii.eqb_refl. reflexivity.
  - cbn [append JS.indexOf]. cbn [JS.includes] in Hno.
    rewrite prefix_char in *.
    apply orb_false_iff in Hno as [Hab Hpre]. rewrite Hab.
    rewrite (IH Hpre). unfold JS.len. cbn [String.length].
    destruct (Z.of_nat (String.length pre) <? 0)%Z eqn:E.
    + apply Z.ltb_lt in E. lia.
    + lia.
Qed.

Lemma includes_char_app (a : ascii) (pre rest : string) :
  JS.includes (String a "") (pre ++ String a rest) = true.
Proof.
  induction pre as [|b pre IH]; cbn [append JS.includes].
  - now rewrite prefix_char, Ascii.eqb_refl.
  - rewrite IH. apply orb_true_r.
Qed.

End StringFacts.

Section CuttingFacts.

Lemma drop_app_S (a b : string) (x : ascii) :
  JS.drop (S (String.length a)) (a ++ String x b) = b.
Proof. induction a as [|y a IH]; simpl; [now destruct b | exact IH]. Qed.

Lemma clampIndex_nonneg (s : string) (i : Z) :
  (0 <= i <= JS.len s)%Z -> JS.clampIndex s i = Z.to_nat i.
Proof.
  intros H. unfold JS.clampIndex.
  destruct (i <? 0)%Z eqn:E; [apply Z.ltb_lt in E; lia|].
  now rewrite Z.min_l by lia.
Qed.

Lemma clampIndex_neg (s : string) (i : Z) :
  (i < 0)%Z -> (0 <= JS.len s + i)%Z ->
  JS.clampIndex s i = Z.to_nat (JS.len s + i).
Proof.
  intros H1 H2. unfold JS.clampIndex.
  destruct (i <? 0)%Z eqn:E; [|apply Z.ltb_ge in E; lia].
  now rewrite Z.max_l by lia.
Qed.

Lemma len_app (a b : string) : JS.len (a ++ b) = (JS.len a + JS.len b)%Z.
Proof. unfold JS.len. rewrite slength_app. lia. Qed.

Lemma len_cons (c : ascii) (s : string) :
  JS.len (String c s) = (JS.len s + 1)%Z.
Proof. unfold JS.len. cbn [String.length]. lia. Qed.

Lemma len_nonneg (s : string) : (0 <= JS.len s)%Z.
Proof. unfold JS.len. lia. Qed.

(** [s.slice( 0, -k )] keeps what precedes the last [k] characters. *)
Lemma slice_drop_tail (a b : string) (k : Z) :
  (0 < k)%Z -> k = JS.len b -> JS.slice (a ++ b) 0 (- k) = a.
Proof.
  intros Hk Hb. unfold JS.slice.
  rewrite (clampIndex_nonneg (a ++ b) 0)
    by (pose proof (len_nonneg (a ++ b)); lia).
  rewrite (clampIndex_neg (a ++ b) (- k))
    by (rewrite ?len_app; pose proof (len_nonneg a); lia).
  rewrite len_app, Hb. cbn [Z.to_nat].
  replace (Z.to_nat (JS.len a + JS.len b + - JS.len b) - 0)%nat
    with (String.length a) by (unfold JS.len; lia).
  rewrite drop_0. apply take_app.
Qed.

(** The two assignments of the function test on a [leftSide] in which
    something follows the first opening parenthesis. *)
Lemma cutParams_app (pre rest : string) (c : ascii) :
  JS.includes "(" pre = false ->
  cutParams (pre ++ "(" ++ rest ++ String c "") = (rest, pre).
Proof.
  intros Hno. unfold cutParams. cbn [append].
  rewrite (indexOf_char_app "(" pre _ Hno).
  assert (Hsub : JS.substr (pre ++ String "(" (rest ++ String c ""))
                           (JS.len pre + 1) = rest ++ String c "").
  { unfold JS.substr. rewrite clampIndex_nonneg.
    - replace (Z.to_nat (JS.len pre + 1)) with (S (String.length pre))
        by (unfold JS.len; lia).
      apply drop_app_S.
    - rewrite len_app, len_cons.
      pose proof (len_nonneg pre). pose proof (len_nonneg (rest ++ String c "")).
      lia. }
  rewrite Hsub.
  assert (Hraw : JS.slice (rest ++ String c "") 0 (-1) = rest).
  { apply (slice_drop_tail rest (String c "") 1); [lia | reflexivity]. }
  rewrite Hraw. f_equal.
  change (pre ++ String "(" (rest ++ String c ""))
    with (pre ++ (String "(" (rest ++ String c ""))).
  replace (- JS.len rest - 2)%Z
    with (- (JS.len (String "(" (rest ++ String c ""))))%Z.
  - apply slice_drop_tail; [|reflexivity].
    rewrite len_cons. pose proof (len_nonneg (rest ++ String c "")). lia.
  - rewrite len_cons, len_app, len_cons. unfold JS.len. cbn [String.length]. lia.
Qed.

End CuttingFacts.

Section SplitFacts.

Lemma splitLoop_nonempty (sep s : string) (k : nat) :
  JS.splitLoop sep k s <> [].
Proof.
  revert k. induction s as [|c s IH]; intros k; cbn [JS.splitLoop].
  - discriminate.
  - destruct k as [|k]; [|apply IH].
    destruct (prefix sep (String c s)); [discriminate|].
    destruct (JS.splitLoop sep 0 s); discriminate.
Qed.

Lemma split_nonempty (sep s : string) :
  sep <> "" -> JS.split sep s <> [].
Proof.
  intros Hsep. unfold JS.split.
  destruct (String.eqb_spec sep ""); [contradiction|].
  apply splitLoop_nonempty.
Qed.

(** A separator that occurs yields a second segment; one that does not
    leaves a single segment. *)
Lemma splitLoop_length (sep s : string) :
  sep <> "" ->
  if JS.includes sep s
  then (2 <= length (JS.splitLoop sep 0 s))%nat
  else length (JS.splitLoop sep 0 s) = 1%nat.
Proof.
  intros Hsep. induction s as [|c s IH]; cbn [JS.includes JS.splitLoop].
  - destruct sep; [contradiction | reflexivity].
  - destruct (prefix sep (String c s)) eqn:Hp; cbn [orb].
    + pose proof (splitLoop_nonempty sep s (String.length sep - 1)) as Hne.
      destruct (JS.splitLoop sep (String.length sep - 1) s);
        [contradiction | cbn [length]; lia].
    + pose proof (splitLoop_nonempty sep s 0) as Hne.
      destruct (JS.splitLoop sep 0 s) as [|seg segs]; [contradiction|].
      exact IH.
Qed.

Lemma deref_first (sep s : string) :
  sep <> "" -> exists seg, deref (JS.split sep s) 0 = Return seg.
Proof.
  intros Hsep. pose proof (split_nonempty sep s Hsep) as Hne.
  unfold deref, JS.at_. destruct (JS.split sep s) as [|seg segs];
    [contradiction | now exists seg].
Qed.

Lemma deref_last (a : list string) :
  a <> [] -> exists seg, deref a (length a - 1) = Return seg.
Proof.
  intros Hne. unfold deref, JS.at_.
  destruct (nth_error a (length a - 1)) as [seg|] eqn:E; [now exists seg|].
  apply nth_error_None in E. destruct a; [contradiction | cbn [length] in E; lia].
Qed.

Lemma deref_second (sep s : string) :
  sep <> "" ->
  if JS.includes sep s
  then exists seg, deref (JS.split sep s) 1 = Return seg
  else deref (JS.split sep s) 1 = Throw TypeError.
Proof.
  intros Hsep. pose proof (splitLoop_length sep s Hsep) as Hlen.
  unfold JS.split. destruct (String.eqb_spec sep ""); [contradiction|].
  unfold deref, JS.at_.
  destruct (JS.includes sep s).
  - destruct (JS.splitLoop sep 0 s) as [|x [|y l]]; cbn [length] in Hlen;
      try lia. now exists y.
  - destruct (JS.splitLoop sep 0 s) as [|x [|y l]]; cbn [length] in Hlen;
      try lia. reflexivity.
Qed.

End SplitFacts.

(** ** The line parser, step by step *)

Section LineFacts.

Lemma figureOutUrl_paramFields (r : string) (c : BmxCommand) :
  paramFields (figureOutUrl r c) = paramFields c.
Proof. unfold figureOutUrl. now destruct (JS.includes "#" r). Qed.

Lemma trackDownModule_paramFields (c c' : BmxCommand) :
  trackDownModule c = Return c' -> paramFields c' = paramFields c.
Proof.
  unfold trackDownModule. destruct (url c) as [u|]; [|now intros [= <-]].
  destruct (negb (JS.truthy u)); [now intros [= <-]|].
  destruct (deref (JS.split "/" u) 1) as [seg|e]; cbn [bind]; [|discriminate].
  destruct (JS.toLowerCase seg =? "docs"); [now intros [= <-]|].
  destruct (JS.toLowerCase seg =? "mod"); now intros [= <-].
Qed.

Lemma takeDescription_paramFields (l l' : string) (c c' : BmxCommand) :
  takeDescription l c = Return (l', c') -> paramFields c' = paramFields c.
Proof.
  unfold takeDescription. destruct (JS.includes " : " l); [|now intros [= _ <-]].
  destruct (deref (JS.split " : " l) 1); cbn [bind]; [|discriminate].
  now intros [= _ <-].
Qed.

Lemma takeReturns_paramFields (l : string) (c : BmxCommand) :
  paramFields (snd (takeReturns l c)) = paramFields c.
Proof. unfold takeReturns. now destruct (JS.includes ":" l). Qed.

Lemma takeName_paramFields (l : string) (c : BmxCommand) :
  paramFields (takeName l c) = paramFields c.
Proof. reflexivity. Qed.

Lemma makeMarkdown_fields (c : BmxCommand) :
  paramFields (makeMarkdown c) = paramFields c /\
  nameFields (makeMarkdown c) = nameFields c.
Proof.
  unfold makeMarkdown.
  destruct (truthyStr (description c) || truthyStr (paramsPretty c));
    [|now split].
  destruct (description c) as [d|]; [destruct (JS.truthy d)|];
    (destruct (module c) as [m|]; [destruct (JS.truthy m)|]); now split.
Qed.

Lemma makeInsertText_fields (c : BmxCommand) :
  paramFields (makeInsertText c) = paramFields c /\
  nameFields (makeInsertText c) = nameFields c.
Proof. unfold makeInsertText. now destruct (isFunction c). Qed.

(** What the last three steps leave in the name fields. *)
Lemma named_after_finish (l : string) (c : BmxCommand) :
  nameFields (makeInsertText (makeMarkdown (takeName l c))) =
  (l, JS.toLowerCase l).
Proof.
  rewrite (proj2 (makeInsertText_fields _)), (proj2 (makeMarkdown_fields _)).
  reflexivity.
Qed.

(** A line that is parsed to the end went through every step. *)
Lemma parseLine_inv (line : string) (c : BmxCommand) :
  parseLine line = Return c ->
  exists leftSide rightSide cmd1 l2 cmd2,
    deref (JS.split "|" line) 0 = Return leftSide /\
    deref (JS.split "|" line) (length (JS.split "|" line) - 1)
      = Return rightSide /\
    trackDownModule (figureOutUrl rightSide newCommand) = Return cmd1 /\
    takeDescription leftSide cmd1 = Return (l2, cmd2) /\
    c = makeInsertText (makeMarkdown
          (takeName (fst (takeReturns (fst (takeParams l2 cmd2))
                                      (snd (takeParams l2 cmd2))))
                    (snd (takeReturns (fst (takeParams l2 cmd2))
                                      (snd (takeParams l2 cmd2)))))).
Proof.
  unfold parseLine.
  destruct (deref (JS.split "|" line) 0) as [leftSide|]; cbn [bind];
    [|discriminate].
  destruct (deref (JS.split "|" line) _) as [rightSide|]; cbn [bind];
    [|discriminate].
  destruct (trackDownModule _) as [cmd1|] eqn:Hm; cbn [bind]; [|discriminate].
  destruct (takeDescription leftSide cmd1) as [[l2 cmd2]|] eqn:Hd; cbn [bind];
    [|discriminate].
  cbn [fst snd]. intros H.
  exists leftSide, rightSide, cmd1, l2, cmd2.
  repeat (split; [reflexivity || assumption|]).
  destruct (takeParams l2 cmd2) as [l3 cmd3]. cbn [fst snd].
  destruct (takeReturns l3 cmd3) as [l4 cmd4]. cbn [fst snd].
  now injection H as <-.
Qed.

(** The name fields of every record a line produces. *)
Lemma parseLine_names (line : string) (c : BmxCommand) :
  parseLine line = Return c ->
  searchName c = JS.toLowerCase (realName c).
Proof.
  intros H. apply parseLine_inv in H
    as (leftSide & rightSide & cmd1 & l2 & cmd2 & _ & _ & _ & _ & ->).
  match goal with
  | |- context [takeName ?l ?c] => pose proof (named_after_finish l c) as Hn
  end.
  unfold nameFields in Hn. injection Hn as Hr Hs. now rewrite Hs, Hr.
Qed.

(** The sub-parser leaves a command without parameters alone when the
    raw text is blank, and otherwise stores a non-empty raw text. *)
Lemma parseCommandParams_blank (raw : string) (c : BmxCommand) :
  params c = None -> paramsPretty c = None ->
  let c' := parseCommandParams (set_paramsRaw (Some raw) c) in
  (paramsRaw c' = Some "" /\ params c' = None /\ paramsPretty c' = None) \/
  (exists r, paramsRaw c' = Some r /\ r <> "").
Proof.
  intros Hp Hq. unfold parseCommandParams.
  cbn [paramsRaw set_paramsRaw]. unfold JS.truthy.
  destruct (raw =? "") eqn:E1; cbn [negb].
  - apply String.eqb_eq in E1. subst raw. left. cbn. auto.
  - destruct (JS.trim raw =? "") eqn:E2; cbn [negb].
    + apply String.eqb_eq in E2. rewrite E2. left. cbn. auto.
    + apply String.eqb_neq in E2. right. exists (JS.trim raw). cbn. auto.
Qed.

(** In a record whose stored raw parameter text is empty, the function
    flag is set and no parameters and no rendering were stored. *)
Lemma parseLine_blank_params (line : string) (c : BmxCommand) :
  parseLine line = Return c ->
  paramsRaw c = Some "" ->
  isFunction c = true /\ params c = None /\ paramsPretty c = None.
Proof.
  intros H Hraw. apply parseLine_inv in H
    as (leftSide & rightSide & cmd1 & l2 & cmd2 & _ & _ & Hm & Hd & ->).
  apply trackDownModule_paramFields in Hm.
  apply takeDescription_paramFields in Hd.
  rewrite figureOutUrl_paramFields in Hm. rewrite Hm in Hd. clear Hm.
  assert (Hfinal : forall l c0,
    paramFields (makeInsertText (makeMarkdown (takeName l c0))) = paramFields c0).
  { intros l c0. rewrite (proj1 (makeInsertText_fields _)),
      (proj1 (makeMarkdown_fields _)). reflexivity. }
  assert (Hc : paramFields
            (makeInsertText (makeMarkdown
               (takeName (fst (takeReturns (fst (takeParams l2 cmd2))
                                           (snd (takeParams l2 cmd2))))
                         (snd (takeReturns (fst (takeParams l2 cmd2))
                                           (snd (takeParams l2 cmd2)))))))
          = paramFields (snd (takeParams l2 cmd2))).
  { rewrite Hfinal. apply takeReturns_paramFields. }
  unfold paramFields in Hc. injection Hc as Hp Hr Hq Hf.
  rewrite Hp, Hq, Hf. rewrite Hr in Hraw. clear Hp Hr Hq Hf Hfinal.
  unfold paramFields in Hd. cbn in Hd. injection Hd as Hp Hr Hq Hf.
  unfold takeParams in *. destruct (JS.includes "(" l2).
  - destruct (cutParams l2) as [raw l3]. cbn [snd] in *.
    cbn [isFunction set_isFunction params paramsPretty paramsRaw] in *.
    destruct (parseCommandParams_blank raw cmd2 Hp Hq)
      as [(_ & Hp' & Hq') | (r & Hr' & Hne)].
    + auto.
    + rewrite Hr' in Hraw. injection Hraw as ->. contradiction.
  - cbn [snd] in Hraw. congruence.
Qed.

End LineFacts.

(** ** The character loop read back on a rendering *)

Section Replay.

Lemma onLast_app (f : BmxCommandParam -> BmxCommandParam)
    (l : list BmxCommandParam) (p : BmxCommandParam) :
  onLast f (l ++ [p]) = (l ++ [f p])%list.
Proof.
  induction l as [|q l IH]; [reflexivity|].
  cbn [app onLast]. rewrite IH.
  destruct l; reflexivity.
Qed.

Lemma scanChar_materialize (st : Scan) (c : ascii) :
  scanChar (materialize st) c = scanChar st c.
Proof. destruct st as [ps [|] m b]; reflexivity. Qed.

Lemma scanLoop_materialize (s : string) (st : Scan) :
  s <> "" -> scanLoop s (materialize st) = scanLoop s st.
Proof.
  destruct s as [|c s]; [contradiction|]. intros _.
  cbn [scanLoop]. now rewrite scanChar_materialize.
Qed.

Lemma scanLoop_app (a b : string) (st : Scan) :
  scanLoop (a ++ b) st = scanLoop b (scanLoop a st).
Proof.
  revert st. induction a as [|c a IH]; intros st; [reflexivity|].
  cbn [append scanLoop]. apply IH.
Qed.

Lemma nameChar_tests (c : ascii) :
  nameChar c = true ->
  (c =? ":")%char = false /\ (c =? "=")%char = false /\
  (c =? ",")%char = false /\ (c =? "%")%char = false /\
  (c =? "#")%char = false /\ (c =? "!")%char = false /\
  (c =? "$")%char = false /\ (c =? " ")%char = false.
Proof.
  unfold nameChar. rewrite negb_true_iff, !orb_false_iff. tauto.
Qed.

Lemma typeChar_tests (c : ascii) :
  typeChar c = true ->
  (c =? ",")%char = false /\ (c =? "=")%char = false /\
  (c =? " ")%char = false.
Proof.
  unfold typeChar. rewrite negb_true_iff, !orb_false_iff. tauto.
Qed.

(** [Name] mode on a character of a name. *)
Lemma scanChar_name (done : list BmxCommandParam) (p : BmxCommandParam)
    (b : bool) (c : ascii) :
  nameChar c = true ->
  scanChar (mkScan (done ++ [p]) false parsePart.name b) c =
  mkScan (done ++ [push_name c p]) false parsePart.name b.
Proof.
  intros H. apply nameChar_tests in H
    as (H1 & H2 & H3 & H4 & H5 & H6 & H7 & H8).
  unfold scanChar. cbn [createNewParam scanned parse inString].
  rewrite H1, H2, H3, H4, H5, H6, H7, H8. cbn [negb].
  now rewrite onLast_app.
Qed.

(** [Type] mode on a character of a type. *)
Lemma scanChar_type (done : list BmxCommandParam) (p : BmxCommandParam)
    (b : bool) (c : ascii) :
  typeChar c = true ->
  scanChar (mkScan (done ++ [p]) false parsePart.type b) c =
  mkScan (done ++ [push_type c p]) false parsePart.type b.
Proof.
  intros H. apply typeChar_tests in H as (H1 & H2 & H3).
  unfold scanChar. cbn [createNewParam scanned parse inString].
  rewrite H1, H2, H3. cbn [negb]. now rewrite onLast_app.
Qed.

(** [Default] mode on a character that it appends. *)
Lemma scanChar_default (done : list BmxCommandParam) (p : BmxCommandParam)
    (b : bool) (c : ascii) :
  b || negb ((c =? ",") || (c =? " "))%char = true ->
  scanChar (mkScan (done ++ [p]) false parsePart.default b) c =
  mkScan (done ++ [push_default c p]) false parsePart.default (toggle b c).
Proof.
  intros H. unfold scanChar, toggle.
  cbn [createNewParam scanned parse inString].
  destruct b; cbn [orb] in H.
  - rewrite onLast_app. now destruct (c =? dquote)%char.
  - rewrite negb_true_iff, orb_false_iff in H. destruct H as [H1 H2].
    rewrite H1, H2. cbn [negb]. rewrite onLast_app.
    now destruct (c =? dquote)%char.
Qed.

Lemma scanLoop_name (s rest : string) (done : list BmxCommandParam)
    (p : BmxCommandParam) (b : bool) :
  allChars nameChar s = true ->
  scanLoop (s ++ rest) (mkScan (done ++ [p]) false parsePart.name b) =
  scanLoop rest
    (mkScan (done ++ [mkParam (name p ++ s) (type p) (default p)])
            false parsePart.name b).
Proof.
  revert p. induction s as [|c s IH]; intros p H.
  - cbn [append]. rewrite sapp_nil_r. now destruct p.
  - cbn [allChars] in H. apply andb_true_iff in H as [Hc Hs].
    cbn [append scanLoop]. rewrite (scanChar_name _ _ _ _ Hc), (IH _ Hs).
    unfold push_name. cbn [name type default].
    now rewrite sapp_assoc.
Qed.

Lemma scanLoop_type (s rest : string) (done : list BmxCommandParam)
    (p : BmxCommandParam) (b : bool) :
  allChars typeChar s = true ->
  scanLoop (s ++ rest) (mkScan (done ++ [p]) false parsePart.type b) =
  scanLoop rest
    (mkScan (done ++ [mkParam (name p) (type p ++ s) (default p)])
            false parsePart.type b).
Proof.
  revert p. induction s as [|c s IH]; intros p H.
  - cbn [append]. rewrite sapp_nil_r. now destruct p.
  - cbn [allChars] in H. apply andb_true_iff in H as [Hc Hs].
    cbn [append scanLoop]. rewrite (scanChar_type _ _ _ _ Hc), (IH _ Hs).
    unfold push_type. cbn [name type default].
    now rewrite sapp_assoc.
Qed.

Lemma scanLoop_default (s rest : string) (done : list BmxCommandParam)
    (p : BmxCommandParam) (b : bool) :
  defaultOk b s = true ->
  scanLoop (s ++ rest) (mkScan (done ++ [p]) false parsePart.default b) =
  scanLoop rest
    (mkScan (done ++ [mkParam (name p) (type p) (default p ++ s)])
            false parsePart.default (defaultEnd b s)).
Proof.
  revert p b. induction s as [|c s IH]; intros p b H.
  - cbn [append defaultEnd]. rewrite sapp_nil_r. now destruct p.
  - cbn [defaultOk] in H. apply andb_true_iff in H as [Hc Hs].
    cbn [append scanLoop defaultEnd].
    rewrite (scanChar_default _ _ _ _ Hc), (IH _ _ Hs).
    unfold push_default. cbn [name type default].
    now rewrite sapp_assoc.
Qed.

(** Reading the rendering of one parameter into a fresh one. *)
Lemma scanLoop_prettyParam (p : BmxCommandParam) (rest t0 : string)
    (done : list BmxCommandParam) :
  fieldsOk p = true ->
  scanLoop (prettyParam p ++ rest)
           (mkScan (done ++ [mkParam "" t0 ""]) false parsePart.name false) =
  scanLoop rest
    (mkScan (done ++ [p]) false (modeAfter p)
            (defaultEnd false (default p))).
Proof.
  intros H. unfold fieldsOk in H.
  apply andb_true_iff in H as [H Hd]. apply andb_true_iff in H as [Hn Ht].
  destruct p as [n t d]. cbn [name type default] in *.
  unfold prettyParam, modeAfter. cbn [name type default].
  rewrite !sapp_assoc. rewrite (scanLoop_name _ _ _ _ _ Hn).
  cbn [name type default append scanLoop].
  replace (scanChar (mkScan (done ++ [mkParam n t0 ""]) false
                            parsePart.name false) ":")
    with (mkScan (done ++ [mkParam n "" ""]) false parsePart.type false)
    by (unfold scanChar; cbn; now rewrite onLast_app).
  rewrite (scanLoop_type _ _ _ _ _ Ht). cbn [name type default append].
  destruct d as [|c d].
  - reflexivity.
  - cbn [String.length Nat.ltb Nat.leb append scanLoop].
    replace (scanChar (scanChar (scanChar
               (mkScan (done ++ [mkParam n t ""]) false parsePart.type false)
               " ") "=") " ")
      with (mkScan (done ++ [mkParam n t ""]) false parsePart.default false)
      by reflexivity.
    match goal with
    | |- scanLoop (d ++ rest) (scanChar ?st c) = ?r =>
        change (scanLoop (String c d ++ rest) st = r)
    end.
    now rewrite (scanLoop_default _ _ _ _ _ Hd).
Qed.

Lemma settled_parts (p : BmxCommandParam) :
  settled p = true ->
  fieldsOk p = true /\ defaultEnd false (default p) = false.
Proof.
  unfold settled, closed. rewrite andb_true_iff, negb_true_iff. tauto.
Qed.

(** Reading the rendering of the parameters before the last. *)
Lemma scanLoop_prettyInit (done acc : list BmxCommandParam) (rest : string) :
  Forall (fun p => settled p = true) done ->
  scanLoop (prettyInit done ++ rest) (startAt acc) =
  scanLoop rest (startAt (acc ++ done)).
Proof.
  revert acc. induction done as [|p done IH]; intros acc H.
  - now rewrite app_nil_r.
  - inversion H as [|? ? Hp Hdone]; subst.
    apply settled_parts in Hp as [Hok Hend].
    cbn [prettyInit]. rewrite !sapp_assoc.
    unfold startAt, freshParam.
    rewrite (scanLoop_prettyParam _ _ _ _ Hok), Hend.
    cbn [append scanLoop].
    replace (scanChar (scanChar
               (mkScan (acc ++ [p]) false (modeAfter p) false) ",") " ")
      with (startAt (acc ++ [p]))
      by (now destruct (modeAfter p)).
    rewrite (IH _ Hdone). now rewrite <- app_assoc.
Qed.

Lemma prettyLoop_snoc (done : list BmxCommandParam) (p : BmxCommandParam) :
  prettyLoop (done ++ [p]) = prettyInit done ++ prettyParam p.
Proof.
  induction done as [|q done IH].
  - cbn. now rewrite sapp_nil_r.
  - cbn [app prettyLoop prettyInit]. rewrite IH, !sapp_assoc.
    now destruct done.
Qed.

Lemma prettyParam_nonempty (p : BmxCommandParam) (rest : string) :
  prettyParam p ++ rest <> "".
Proof. unfold prettyParam. now destruct (name p). Qed.

Lemma sapp_nonempty (a b : string) : b <> "" -> a ++ b <> "".
Proof. destruct a; [trivial | discriminate]. Qed.

(** Reading a whole rendering with a given text for the last parameter. *)
Lemma scanLoop_rendering (done : list BmxCommandParam) (last : string)
    (st : Scan) :
  Forall (fun p => settled p = true) done ->
  last <> "" ->
  scanLoop last (startAt done) = st ->
  scanLoop (prettyInit done ++ last) scanStart = st.
Proof.
  intros Hdone Hlast <-.
  rewrite <- (scanLoop_materialize _ scanStart)
    by now apply sapp_nonempty.
  change (materialize scanStart) with (startAt []).
  now rewrite (scanLoop_prettyInit _ _ _ Hdone).
Qed.

(** The parser reads its own rendering back. *)
Lemma scanLoop_prettyLoop (done : list BmxCommandParam)
    (p : BmxCommandParam) :
  Forall (fun p => settled p = true) done ->
  fieldsOk p = true ->
  scanned (scanLoop (prettyLoop (done ++ [p])) scanStart) = (done ++ [p])%list.
Proof.
  intros Hdone Hp. rewrite prettyLoop_snoc.
  rewrite (scanLoop_rendering done (prettyParam p)
             (mkScan (done ++ [p]) false (modeAfter p)
                     (defaultEnd false (default p))) Hdone).
  - reflexivity.
  - rewrite <- (sapp_nil_r (prettyParam p)). apply prettyParam_nonempty.
  - rewrite <- (sapp_nil_r (prettyParam p)).
    unfold startAt, freshParam.
    now rewrite (scanLoop_prettyParam _ _ _ _ Hp).
Qed.

End Replay.

(** ** What the character loop maintains *)

Section Invariant.

Lemma allChars_snoc (P : ascii -> bool) (s : string) (c : ascii) :
  allChars P (s ++ String c "") = allChars P s && P c.
Proof.
  induction s as [|x s IH]; cbn [append allChars].
  - now rewrite andb_true_r.
  - now rewrite IH, andb_assoc.
Qed.

Lemma defaultEnd_snoc (b : bool) (s : string) (c : ascii) :
  defaultEnd b (s ++ String c "") = toggle (defaultEnd b s) c.
Proof.
  revert b. induction s as [|x s IH]; intros b; cbn [append defaultEnd];
    [reflexivity | apply IH].
Qed.

Lemma defaultOk_snoc (b : bool) (s : string) (c : ascii) :
  defaultOk b (s ++ String c "") =
  defaultOk b s &&
  (defaultEnd b s || negb ((c =? ",") || (c =? " "))%char).
Proof.
  revert b. induction s as [|x s IH]; intros b;
    cbn [append defaultOk defaultEnd].
  - now rewrite andb_true_r.
  - now rewrite IH, andb_assoc.
Qed.

Lemma settled_snoc (done : list BmxCommandParam) (p : BmxCommandParam) :
  Forall (fun q => settled q = true) done ->
  fieldsOk p = true -> defaultEnd false (default p) = false ->
  Forall (fun q => settled q = true) (done ++ [p]).
Proof.
  intros Hdone Hp Hend. apply Forall_app. split; [assumption|].
  constructor; [|constructor]. unfold settled, closed.
  now rewrite Hp, Hend.
Qed.

Lemma fieldsOk_set_type (p : BmxCommandParam) (t : string) :
  fieldsOk p = true -> allChars typeChar t = true ->
  fieldsOk (set_type t p) = true.
Proof.
  unfold fieldsOk, set_type. cbn [name type default].
  rewrite !andb_true_iff. intros [[Hn _] Hd] Ht. auto.
Qed.

Ltac live_state done p :=
  unfold ScanInv; cbn [createNewParam scanned parse inString];
  exists done, p; split; [reflexivity|]; split; [assumption|].

Ltac next_state done :=
  unfold ScanInv; cbn [createNewParam scanned parse inString];
  split; [apply settled_snoc; try assumption | split; reflexivity].

(** One turn of the loop in [Name] mode. *)
Lemma ScanInv_name (done : list BmxCommandParam) (p : BmxCommandParam)
    (c : ascii) :
  Forall (fun q => settled q = true) done ->
  fieldsOk p = true -> default p = "" ->
  ScanInv (scanChar (mkScan (done ++ [p]) false parsePart.name false) c).
Proof.
  intros Hdone Hp Hd. destruct (nameChar c) eqn:Hc.
  - rewrite (scanChar_name _ _ _ _ Hc). live_state done (push_name c p).
    split; [|now split].
    unfold fieldsOk, push_name in *. cbn [name type default].
    rewrite allChars_snoc, Hc, andb_true_r. exact Hp.
  - unfold nameChar in Hc. apply negb_false_iff in Hc.
    repeat rewrite orb_true_iff in Hc.
    assert (Hend : defaultEnd false (default p) = false) by now rewrite Hd.
    destruct Hc as [[[[[[[H|H]|H]|H]|H]|H]|H]|H];
      apply Ascii.eqb_eq in H; subst c;
      unfold scanChar; cbn [createNewParam scanned parse inString];
      cbn [Ascii.eqb Bool.eqb andb negb]; rewrite ?onLast_app.
    + live_state done (set_type "" p).
      split; [now apply fieldsOk_set_type | now split].
    + live_state done p. split; [assumption | now rewrite Hd].
    + next_state done.
    + live_state done (set_type "Int" p).
      split; [now apply fieldsOk_set_type | now split].
    + live_state done (set_type "Float" p).
      split; [now apply fieldsOk_set_type | now split].
    + live_state done (set_type "Double" p).
      split; [now apply fieldsOk_set_type | now split].
    + live_state done (set_type "String" p).
      split; [now apply fieldsOk_set_type | now split].
    + live_state done p. split; [assumption | now split].
Qed.

(** One turn of the loop in [Type] mode. *)
Lemma ScanInv_type (done : list BmxCommandParam) (p : BmxCommandParam)
    (c : ascii) :
  Forall (fun q => settled q = true) done ->
  fieldsOk p = true -> default p = "" ->
  ScanInv (scanChar (mkScan (done ++ [p]) false parsePart.type false) c).
Proof.
  intros Hdone Hp Hd. destruct (typeChar c) eqn:Hc.
  - rewrite (scanChar_type _ _ _ _ Hc). live_state done (push_type c p).
    split; [|now split].
    unfold fieldsOk, push_type in *. cbn [name type default].
    rewrite allChars_snoc, Hc, andb_true_r. exact Hp.
  - unfold typeChar in Hc. apply negb_false_iff in Hc.
    repeat rewrite orb_true_iff in Hc.
    assert (Hend : defaultEnd false (default p) = false) by now rewrite Hd.
    destruct Hc as [[H|H]|H];
      apply Ascii.eqb_eq in H; subst c;
      unfold scanChar; cbn [createNewParam scanned parse inString];
      cbn [Ascii.eqb Bool.eqb andb negb]; rewrite ?onLast_app.
    + next_state done.
    + live_state done p. split; [assumption | now rewrite Hd].
    + live_state done p. split; [assumption | now split].
Qed.

(** One turn of the loop in [Default] mode. *)
Lemma ScanInv_default (done : list BmxCommandParam) (p : BmxCommandParam)
    (c : ascii) :
  Forall (fun q => settled q = true) done ->
  fieldsOk p = true ->
  ScanInv (scanChar (mkScan (done ++ [p]) false parsePart.default
                            (defaultEnd false (default p))) c).
Proof.
  intros Hdone Hp.
  destruct (defaultEnd false (default p) ||
            negb ((c =? ",") || (c =? " "))%char) eqn:Hc.
  - rewrite (scanChar_default _ _ _ _ Hc). live_state done (push_default c p).
    split.
    + unfold fieldsOk, push_default in *. cbn [name type default].
      rewrite defaultOk_snoc, Hc, andb_true_r. exact Hp.
    + unfold push_default. cbn [default]. now rewrite defaultEnd_snoc.
  - apply orb_false_iff in Hc as [Hend Hc]. rewrite Hend.
    apply negb_false_iff in Hc. rewrite orb_true_iff in Hc.
    destruct Hc as [H|H]; apply Ascii.eqb_eq in H; subst c;
      unfold scanChar; cbn [createNewParam scanned parse inString];
      cbn [Ascii.eqb Bool.eqb andb negb].
    + change (("," =? dquote)%char) with false. cbn iota. next_state done.
    + change ((" " =? dquote)%char) with false. cbn iota.
      live_state done p. split; [assumption | now rewrite Hend].
Qed.

Lemma ScanInv_materialize (st : Scan) :
  ScanInv st ->
  exists done p m b,
    materialize st = mkScan (done ++ [p]) false m b /\
    Forall (fun q => settled q = true) done /\
    fieldsOk p = true /\
    match m with
    | parsePart.default => b = defaultEnd false (default p)
    | _ => default p = "" /\ b = false
    end.
Proof.
  destruct st as [ps [|] m b]; unfold ScanInv, materialize;
    cbn [createNewParam scanned parse inString].
  - intros (Hps & -> & ->).
    exists ps, freshParam, parsePart.name, false. now repeat split.
  - intros (done & p & -> & Hdone & Hp & Hm).
    exists done, p, m, b. now repeat split.
Qed.

Lemma ScanInv_step (st : Scan) (c : ascii) :
  ScanInv st -> ScanInv (scanChar st c).
Proof.
  intros H. rewrite <- scanChar_materialize.
  apply ScanInv_materialize in H as (done & p & m & b & -> & Hdone & Hp & Hm).
  destruct m.
  - destruct Hm as [Hd ->]. now apply ScanInv_name.
  - destruct Hm as [Hd ->]. now apply ScanInv_type.
  - subst b. now apply ScanInv_default.
Qed.

Lemma ScanInv_loop (s : string) (st : Scan) :
  ScanInv st -> ScanInv (scanLoop s st).
Proof.
  revert st. induction s as [|c s IH]; intros st H; [assumption|].
  cbn [scanLoop]. apply IH. now apply ScanInv_step.
Qed.

Lemma ScanInv_start : ScanInv scanStart.
Proof. unfold ScanInv. cbn. auto. Qed.

(** Where the loop reads the last element of [cmd.params], there is
    one: after any text, a push is due or the array is not empty. *)
Lemma scan_live (raw : string) :
  createNewParam (scanLoop raw scanStart) = true \/
  scanned (scanLoop raw scanStart) <> [].
Proof.
  pose proof (ScanInv_loop raw _ ScanInv_start) as H.
  unfold ScanInv in H.
  destruct (createNewParam (scanLoop raw scanStart)); [now left | right].
  destruct H as (done & p & -> & _). now destruct done.
Qed.

(** The parameters the loop leaves can all be read back. *)
Lemma ScanInv_result (st : Scan) :
  ScanInv st -> scanned st <> [] ->
  exists done p,
    scanned st = (done ++ [p])%list /\
    Forall (fun q => settled q = true) done /\ fieldsOk p = true.
Proof.
  destruct st as [ps [|] m b]; unfold ScanInv;
    cbn [createNewParam scanned parse inString].
  - intros (Hps & _ & _) Hne.
    destruct (exists_last Hne) as (done & p & ->).
    apply Forall_app in Hps as [Hdone Hp].
    exists done, p. repeat split; [assumption|].
    inversion Hp as [|? ? Hs _]; subst. now apply settled_parts in Hs.
  - intros (done & p & -> & Hdone & Hp & _) _. now exists done, p.
Qed.

End Invariant.

(** ** Trimming *)

Section TrimFacts.

Lemma trimEnd_cons (c : ascii) (s : string) :
  JS.isWhiteSpace c = false ->
  JS.trimEnd (String c s) = String c (JS.trimEnd s).
Proof.
  intros H. cbn [JS.trimEnd]. destruct (JS.trimEnd s); now rewrite ?H.
Qed.

Lemma trimEnd_app_keep (a b : string) :
  JS.trimEnd b <> "" -> JS.trimEnd (a ++ b) = a ++ JS.trimEnd b.
Proof.
  intros Hb. induction a as [|x a IH]; [reflexivity|].
  cbn [append JS.trimEnd]. rewrite IH.
  pose proof (sapp_nonempty a _ Hb) as Hne.
  now destruct (a ++ JS.trimEnd b).
Qed.

Lemma trimEnd_app_drop (a b : string) :
  JS.trimEnd b = "" -> JS.trimEnd (a ++ b) = JS.trimEnd a.
Proof.
  intros Hb. induction a as [|x a IH]; [assumption|].
  cbn [append JS.trimEnd]. now rewrite IH.
Qed.

Lemma trimEnd_prefix (s : string) : exists w, s = JS.trimEnd s ++ w.
Proof.
  induction s as [|c s [w Hw]]; [now exists ""|].
  cbn [JS.trimEnd]. destruct (JS.trimEnd s) as [|a t].
  - destruct (JS.isWhiteSpace c); [now exists (String c s) | now exists s].
  - exists w. cbn [append] in *. now rewrite <- Hw.
Qed.

Lemma trimEnd_idem (s : string) : JS.trimEnd (JS.trimEnd s) = JS.trimEnd s.
Proof.
  induction s as [|c s IH]; [reflexivity|].
  cbn [JS.trimEnd]. destruct (JS.trimEnd s) as [|a t] eqn:E.
  - destruct (JS.isWhiteSpace c) eqn:Hc; [reflexivity|].
    cbn [JS.trimEnd]. now rewrite Hc.
  - cbn [JS.trimEnd] in *. now rewrite IH.
Qed.

Lemma trim_trimEnd (s : string) : JS.trim (JS.trimEnd s) = JS.trim s.
Proof. unfold JS.trim. now rewrite trimEnd_idem. Qed.

Lemma trimStart_headOk (s : string) : headOk s = true -> JS.trimStart s = s.
Proof.
  destruct s as [|c s]; [reflexivity|]. cbn [headOk JS.trimStart].
  now destruct (JS.isWhiteSpace c).
Qed.

Lemma headOk_trimStart (s : string) : headOk (JS.trimStart s) = true.
Proof.
  induction s as [|c s IH]; [reflexivity|]. cbn [JS.trimStart].
  destruct (JS.isWhiteSpace c) eqn:Hc; [assumption|].
  cbn [headOk]. now rewrite Hc.
Qed.

Lemma headOk_app (a w : string) : a <> "" -> headOk (a ++ w) = headOk a.
Proof. destruct a; [contradiction | reflexivity]. Qed.

(** A text that starts with a black character is trimmed at its end only. *)
Lemma trim_headOk (s : string) :
  headOk s = true -> JS.trimEnd s <> "" -> JS.trim s = JS.trimEnd s.
Proof.
  intros Hh Hne. unfold JS.trim. apply trimStart_headOk.
  destruct (trimEnd_prefix s) as [w Hw].
  rewrite Hw in Hh. now rewrite headOk_app in Hh.
Qed.

Lemma allChars_prefix (P : ascii -> bool) (a w : string) :
  allChars P (a ++ w) = true -> allChars P a = true.
Proof.
  induction a as [|c a IH]; [reflexivity|]. cbn [append allChars].
  rewrite !andb_true_iff. intros [Hc H]. auto.
Qed.

Lemma defaultOk_prefix (b : bool) (a w : string) :
  defaultOk b (a ++ w) = true -> defaultOk b a = true.
Proof.
  revert b. induction a as [|c a IH]; intros b; [reflexivity|].
  cbn [append defaultOk]. rewrite !andb_true_iff. intros [Hc H]. eauto.
Qed.

Lemma allChars_trimEnd (P : ascii -> bool) (s : string) :
  allChars P s = true -> allChars P (JS.trimEnd s) = true.
Proof.
  destruct (trimEnd_prefix s) as [w Hw]. rewrite Hw at 1.
  apply allChars_prefix.
Qed.

Lemma defaultOk_trimEnd (b : bool) (s : string) :
  defaultOk b s = true -> defaultOk b (JS.trimEnd s) = true.
Proof.
  destruct (trimEnd_prefix s) as [w Hw]. rewrite Hw at 1.
  apply defaultOk_prefix.
Qed.

End TrimFacts.

(** ** The first parameter of a trimmed text *)

Section HeadFacts.

(** A turn of the loop rewrites the last parameter only; it extends the
    name only in [Name] mode, and leaves the other modes for [Name] mode
    only with [createNewParam] set. *)
Lemma scanChar_last (done : list BmxCommandParam) (q : BmxCommandParam)
    (m : parsePart.t) (b : bool) (c : ascii) :
  exists q' cn' m' b',
    scanChar (mkScan (done ++ [q]) false m b) c
      = mkScan (done ++ [q']) cn' m' b' /\
    ((name q' = name q /\
      (m <> parsePart.name -> cn' = true \/ m' <> parsePart.name)) \/
     (m = parsePart.name /\ name q' = name q ++ String c "")).
Proof.
  destruct m.
  - destruct (nameChar c) eqn:Hc.
    + rewrite (scanChar_name _ _ _ _ Hc).
      exists (push_name c q), false, parsePart.name, b. now auto.
    + unfold nameChar in Hc. apply negb_false_iff in Hc.
      repeat rewrite orb_true_iff in Hc.
      destruct Hc as [[[[[[[H|H]|H]|H]|H]|H]|H]|H];
        apply Ascii.eqb_eq in H; subst c;
        unfold scanChar; cbn [createNewParam scanned parse inString];
        cbn [Ascii.eqb Bool.eqb andb negb]; rewrite ?onLast_app;
        do 4 eexists; (split; [reflexivity|]); left;
        (split; [reflexivity | intros Hm; now contradiction Hm]).
  - destruct (typeChar c) eqn:Hc.
    + rewrite (scanChar_type _ _ _ _ Hc).
      exists (push_type c q), false, parsePart.type, b.
      split; [reflexivity|]. left. split; [reflexivity|].
      intros _. now right.
    + unfold typeChar in Hc. apply negb_false_iff in Hc.
      repeat rewrite orb_true_iff in Hc.
      destruct Hc as [[H|H]|H];
        apply Ascii.eqb_eq in H; subst c;
        unfold scanChar; cbn [createNewParam scanned parse inString];
        cbn [Ascii.eqb Bool.eqb andb negb]; rewrite ?onLast_app;
        do 4 eexists; (split; [reflexivity|]); left;
        (split; [reflexivity | intros _; (now left) || (now right)]).
  - destruct (b || negb ((c =? ",") || (c =? " "))%char) eqn:Hc.
    + rewrite (scanChar_default _ _ _ _ Hc).
      exists (push_default c q), false, parsePart.default, (toggle b c).
      split; [reflexivity|]. left. split; [reflexivity|].
      intros _. now right.
    + apply orb_false_iff in Hc as [-> Hc].
      apply negb_false_iff in Hc. rewrite orb_true_iff in Hc.
      destruct Hc as [H|H]; apply Ascii.eqb_eq in H; subst c;
        unfold scanChar; cbn [createNewParam scanned parse inString];
        cbn [Ascii.eqb Bool.eqb andb negb].
      * change (("," =? dquote)%char) with false. cbn iota.
        do 4 eexists. split; [reflexivity|]. left. split; [reflexivity|].
        intros _. now left.
      * change ((" " =? dquote)%char) with false. cbn iota.
        do 4 eexists. split; [reflexivity|]. left. split; [reflexivity|].
        intros _. now right.
Qed.

Lemma HeadInv_step (st : Scan) (c : ascii) :
  HeadInv st -> HeadInv (scanChar st c).
Proof.
  intros (p0 & rest & Hsc & Hh & H3). rewrite <- scanChar_materialize.
  destruct st as [ps cn m b]. cbn [scanned createNewParam parse] in *.
  subst ps. unfold materialize. cbn [createNewParam scanned parse inString].
  destruct cn.
  - destruct (scanChar_last (p0 :: rest) freshParam m b c)
      as (q' & cn' & m' & b' & -> & _).
    exists p0, (rest ++ [q'])%list. cbn [scanned app]. split; [reflexivity|].
    split; [assumption|]. intros _ Habs. now destruct rest.
  - destruct rest as [|r rest].
    + destruct (scanChar_last [] p0 m b c)
        as (q' & cn' & m' & b' & Hstep & Hq).
      cbn [app] in Hstep. rewrite Hstep.
      exists q', []. cbn [scanned createNewParam parse].
      split; [reflexivity|].
      destruct Hq as [[Hn Hm] | [-> Hn]].
      * rewrite Hn. split; [assumption|]. intros Hempty _.
        apply Hm. intros ->. destruct (H3 Hempty eq_refl); [discriminate|].
        contradiction.
      * assert (Hne : name p0 <> "").
        { intros Hempty. destruct (H3 Hempty eq_refl); [discriminate|].
          contradiction. }
        rewrite Hn. rewrite headOk_app by assumption.
        split; [assumption|]. intros Habs. destruct (name p0); discriminate.
    + destruct (@exists_last _ (r :: rest)) as (l & q & Hl); [discriminate|].
      rewrite Hl.
      destruct (scanChar_last (p0 :: l) q m b c)
        as (q' & cn' & m' & b' & Hstep & _).
      cbn [app] in Hstep. change (p0 :: (l ++ [q]))%list
        with (p0 :: l ++ [q])%list. rewrite Hstep.
      exists p0, (l ++ [q'])%list. cbn [scanned]. split; [reflexivity|].
      split; [assumption|]. intros _ Habs. now destruct l.
Qed.

Lemma HeadInv_loop (s : string) (st : Scan) :
  HeadInv st -> HeadInv (scanLoop s st).
Proof.
  revert st. induction s as [|c s IH]; intros st H; [assumption|].
  cbn [scanLoop]. apply IH. now apply HeadInv_step.
Qed.

(** The first turn of the loop, on a black character. *)
Lemma HeadInv_first (c : ascii) :
  JS.isWhiteSpace c = false -> HeadInv (scanChar scanStart c).
Proof.
  intros Hc. rewrite <- scanChar_materialize.
  change (materialize scanStart)
    with (mkScan ([] ++ [freshParam]) false parsePart.name false).
  destruct (nameChar c) eqn:Hn.
  - rewrite (scanChar_name _ _ _ _ Hn). exists (push_name c freshParam), [].
    cbn. rewrite Hc. split; [reflexivity|]. split; [reflexivity|].
    discriminate.
  - unfold nameChar in Hn. apply negb_false_iff in Hn.
    repeat rewrite orb_true_iff in Hn.
    destruct Hn as [[[[[[[H|H]|H]|H]|H]|H]|H]|H];
      apply Ascii.eqb_eq in H; subst c; try discriminate Hc;
      (eexists _, []; cbn; split; [reflexivity|]; split; [reflexivity|];
       intros _ _; (now left) || (right; discriminate)).
Qed.

(** The text a trimmed non-empty string starts with. *)
Lemma trim_head (s : string) :
  JS.trim s <> "" ->
  exists c r, JS.trim s = String c r /\ JS.isWhiteSpace c = false.
Proof.
  intros Hne. pose proof (headOk_trimStart (JS.trimEnd s)) as Hh.
  fold (JS.trim s) in Hh. destruct (JS.trim s) as [|c r]; [contradiction|].
  exists c, r. split; [reflexivity|]. cbn [headOk] in Hh.
  now apply negb_true_iff in Hh.
Qed.

(** A rendering starts like the name of its first parameter. *)
Lemma headOk_prettyLoop (p0 : BmxCommandParam)
    (rest : list BmxCommandParam) :
  headOk (name p0) = true -> headOk (prettyLoop (p0 :: rest)) = true.
Proof.
  intros H. cbn [prettyLoop]. unfold prettyParam.
  destruct (name p0) as [|c n]; [reflexivity | exact H].
Qed.

End HeadFacts.

(** ** Rendering, trimming and reading back *)

Section RoundTrip.

Lemma trimEnd_prettyParam (p : BmxCommandParam) :
  JS.trimEnd (prettyParam p) = trimmedText p.
Proof.
  destruct p as [n t d]. unfold prettyParam, trimmedText.
  cbn [name type default].
  assert (Hcolon : forall x, JS.trimEnd (n ++ ":" ++ x) = n ++ ":" ++ JS.trimEnd x).
  { intros x. cbn [append]. rewrite trimEnd_app_keep;
      rewrite (trimEnd_cons ":") by reflexivity; [reflexivity | discriminate]. }
  destruct (0 <? String.length d)%nat.
  - rewrite Hcolon. do 2 f_equal.
    destruct (String.eqb_spec (JS.trimEnd d) "") as [He|He].
    + replace (t ++ " = " ++ d) with ((t ++ " ") ++ ("= " ++ d))
        by (rewrite sapp_assoc; reflexivity).
      rewrite trimEnd_app_keep.
      * rewrite sapp_assoc. cbn [append].
        rewrite (trimEnd_cons "=") by reflexivity.
        cbn [JS.trimEnd]. now rewrite He.
      * cbn [append]. rewrite (trimEnd_cons "=") by reflexivity. discriminate.
    + replace (t ++ " = " ++ d) with ((t ++ " = ") ++ d)
        by (rewrite sapp_assoc; reflexivity).
      rewrite (trimEnd_app_keep _ _ He). now rewrite sapp_assoc.
  - rewrite Hcolon. now rewrite sapp_nil_r.
Qed.

Lemma trimmedText_nonempty (p : BmxCommandParam) : trimmedText p <> "".
Proof.
  rewrite <- trimEnd_prettyParam. unfold prettyParam.
  cbn [append]. rewrite trimEnd_app_keep;
    rewrite (trimEnd_cons ":") by reflexivity.
  - destruct (name p); discriminate.
  - discriminate.
Qed.

(** The trimmed rendering of a parameter list whose text starts with a
    black character. *)
Lemma trim_prettyLoop (done : list BmxCommandParam) (p : BmxCommandParam) :
  headOk (prettyLoop (done ++ [p])) = true ->
  JS.trim (prettyLoop (done ++ [p])) = prettyInit done ++ trimmedText p.
Proof.
  intros Hh.
  assert (He : JS.trimEnd (prettyLoop (done ++ [p]))
               = prettyInit done ++ trimmedText p).
  { rewrite prettyLoop_snoc, trimEnd_app_keep; rewrite trimEnd_prettyParam;
      [reflexivity | apply trimmedText_nonempty]. }
  rewrite trim_headOk; [assumption | assumption |].
  rewrite He. apply sapp_nonempty, trimmedText_nonempty.
Qed.

Lemma fieldsOk_trimmedParam (p : BmxCommandParam) :
  fieldsOk p = true -> fieldsOk (trimmedParam p) = true.
Proof.
  unfold fieldsOk, trimmedParam. rewrite !andb_true_iff.
  intros [[Hn Ht] Hd].
  destruct (0 <? String.length (default p))%nat; cbn [name type default].
  - rewrite Hn, Ht. now rewrite defaultOk_trimEnd.
  - rewrite Hn. now rewrite allChars_trimEnd.
Qed.

(** Reading the trimmed rendering of the last parameter. *)
Lemma scanLoop_trimmedText (done : list BmxCommandParam)
    (p : BmxCommandParam) :
  fieldsOk p = true ->
  scanned (scanLoop (trimmedText p) (startAt done))
    = (done ++ [trimmedParam p])%list.
Proof.
  intros Hp. pose proof (fieldsOk_trimmedParam p Hp) as Hq.
  unfold trimmedText, trimmedParam in *.
  destruct (0 <? String.length (default p))%nat eqn:Hlen.
  - destruct (String.eqb_spec (JS.trimEnd (default p)) "") as [He|He].
    + rewrite He in *.
      replace (name p ++ ":" ++ type p ++ " =")
        with (prettyParam (mkParam (name p) (type p) "") ++ " =")
        by (unfold prettyParam; cbn [name type default String.length Nat.ltb
              Nat.leb]; rewrite !sapp_assoc; reflexivity).
      unfold startAt, freshParam.
      rewrite (scanLoop_prettyParam _ _ _ _ Hq). reflexivity.
    + assert (Hpos : (0 <? String.length (JS.trimEnd (default p)))%nat = true).
      { destruct (JS.trimEnd (default p)); [contradiction | reflexivity]. }
      replace (name p ++ ":" ++ type p ++ " = " ++ JS.trimEnd (default p))
        with (prettyParam
                (mkParam (name p) (type p) (JS.trimEnd (default p))) ++ "")
        by (unfold prettyParam; cbn [name type default]; rewrite Hpos;
            rewrite !sapp_assoc, sapp_nil_r; reflexivity).
      unfold startAt, freshParam.
      rewrite (scanLoop_prettyParam _ _ _ _ Hq). reflexivity.
  - replace (name p ++ ":" ++ JS.trimEnd (type p))
      with (prettyParam (mkParam (name p) (JS.trimEnd (type p)) "") ++ "")
      by (unfold prettyParam; cbn [name type default String.length Nat.ltb
            Nat.leb]; rewrite !sapp_assoc, !sapp_nil_r; reflexivity).
    unfold startAt, freshParam.
    rewrite (scanLoop_prettyParam _ _ _ _ Hq). reflexivity.
Qed.

Lemma sameParam_refl (p : BmxCommandParam) : sameParam p p.
Proof. now repeat split. Qed.

Lemma sameParam_trimmed (p : BmxCommandParam) : sameParam p (trimmedParam p).
Proof.
  unfold sameParam, trimmedParam.
  destruct (0 <? String.length (default p))%nat eqn:Hlen;
    cbn [name type default].
  - now rewrite trim_trimEnd.
  - rewrite trim_trimEnd. repeat split.
    destruct (default p); [reflexivity | discriminate].
Qed.

(** What the sub-parser stores for a raw text that is not blank. *)
Lemma parseCommandParams_run (raw : string) (cmd : BmxCommand) :
  JS.trim raw <> "" ->
  let st := scanLoop (JS.trim raw) scanStart in
  params (parseCommandParams (set_paramsRaw (Some raw) cmd))
    = Some (scanned st) /\
  paramsPretty (parseCommandParams (set_paramsRaw (Some raw) cmd))
    = Some (prettyLoop (scanned st)).
Proof.
  intros Ht. unfold parseCommandParams. cbn [paramsRaw set_paramsRaw].
  unfold JS.truthy.
  destruct (String.eqb_spec raw "") as [->|_]; [now contradiction Ht|].
  destruct (String.eqb_spec (JS.trim raw) ""); [contradiction|].
  cbn. auto.
Qed.

(** The parameters of a trimmed raw text: all can be read back, and the
    rendering starts with a black character. *)
Lemma scanned_trimmed (raw : string) :
  JS.trim raw <> "" ->
  exists done p,
    scanned (scanLoop (JS.trim raw) scanStart) = (done ++ [p])%list /\
    Forall (fun q => settled q = true) done /\ fieldsOk p = true /\
    headOk (prettyLoop (done ++ [p])) = true.
Proof.
  intros Ht. destruct (trim_head raw Ht) as (c & r & Hcr & Hc).
  rewrite Hcr. cbn [scanLoop].
  pose proof (HeadInv_loop r _ (HeadInv_first c Hc))
    as (p0 & rest & Hsc & Hh & _).
  pose proof (ScanInv_loop r _ (ScanInv_step _ c ScanInv_start)) as Hinv.
  apply ScanInv_result in Hinv as (done & p & Hdp & Hdone & Hp);
    [|rewrite Hsc; discriminate].
  exists done, p. repeat split; try assumption.
  rewrite <- Hdp, Hsc. now apply headOk_prettyLoop.
Qed.

(** The rendering of the parameters of [raw], read back. *)
Lemma pretty_roundtrip (raw : string) :
  JS.trim raw <> "" ->
  let ps := scanned (scanLoop (JS.trim raw) scanStart) in
  JS.trim (prettyLoop ps) <> "" /\
  exists ps',
    scanned (scanLoop (JS.trim (prettyLoop ps)) scanStart) = ps' /\
    length ps' = length ps /\ Forall2 sameParam ps ps' /\
    (JS.trim (prettyLoop ps) = prettyLoop ps -> ps' = ps).
Proof.
  intros Ht. destruct (scanned_trimmed raw Ht) as (done & p & -> & Hdone & Hp & Hh).
  cbn zeta. rewrite (trim_prettyLoop _ _ Hh). split.
  - apply sapp_nonempty, trimmedText_nonempty.
  - exists (done ++ [trimmedParam p])%list. repeat split.
    + rewrite (scanLoop_rendering done (trimmedText p)
                 (scanLoop (trimmedText p) (startAt done)) Hdone);
        [| apply trimmedText_nonempty | reflexivity].
      now apply scanLoop_trimmedText.
    + now rewrite !length_app.
    + apply Forall2_app.
      * clear. induction done; constructor; [apply sameParam_refl | assumption].
      * constructor; [apply sameParam_trimmed | constructor].
    + intros Heq.
      rewrite <- (scanLoop_prettyLoop done p Hdone Hp), <- Heq.
      rewrite (scanLoop_rendering done (trimmedText p)
                 (scanLoop (trimmedText p) (startAt done)) Hdone);
        [| apply trimmedText_nonempty | reflexivity].
      symmetry. now apply scanLoop_trimmedText.
Qed.

End RoundTrip.

(** ** Where a line stops the batch *)

Section ThrowFacts.

(** The module step throws exactly on a non-empty URL without a slash. *)
Lemma trackDownModule_throws (c : BmxCommand) :
  trackDownModule c = Throw TypeError <->
  exists u, url c = Some u /\ u <> "" /\ JS.includes "/" u = false.
Proof.
  unfold trackDownModule. destruct (url c) as [u|].
  - unfold JS.truthy. destruct (String.eqb_spec u "") as [->|Hu]; cbn [negb].
    + split; [intros H; discriminate H|]. intros (u & Hu & Hne & _).
      injection Hu as Hu. now subst u.
    + pose proof (deref_second "/" u) as Hs.
      destruct (JS.includes "/" u) eqn:Hinc.
      * destruct Hs as [seg Hs]; [discriminate|]. rewrite Hs. cbn [bind].
        split.
        -- destruct (JS.toLowerCase seg =? "docs"); [intros H; discriminate H|].
           destruct (JS.toLowerCase seg =? "mod"); intros H; discriminate H.
        -- intros (u' & Hu' & _ & Habs). injection Hu' as <-. congruence.
      * rewrite Hs by discriminate. cbn [bind]. split; [|reflexivity].
        intros _. now exists u.
  - split; [intros H; discriminate H|]. intros (u & Habs & _). discriminate Habs.
Qed.

Lemma takeDescription_returns (l : string) (c : BmxCommand) :
  exists r, takeDescription l c = Return r.
Proof.
  unfold takeDescription. pose proof (deref_second " : " l) as Hs.
  destruct (JS.includes " : " l); [|eauto].
  destruct Hs as [seg ->]; [discriminate|]. cbn [bind]. eauto.
Qed.

(** A line is parsed to the end unless the module step throws on the
    URL taken from its last field. *)
Lemma parseLine_completion (line : string) :
  exists rightSide,
    deref (JS.split "|" line) (length (JS.split "|" line) - 1)
      = Return rightSide /\
    (parseLine line = Throw TypeError <->
     exists u, url (figureOutUrl rightSide newCommand) = Some u /\
               u <> "" /\ JS.includes "/" u = false) /\
    (parseLine line <> Throw TypeError -> exists c, parseLine line = Return c).
Proof.
  destruct (deref_first "|" line) as [leftSide Hl]; [discriminate|].
  destruct (deref_last (JS.split "|" line)) as [rightSide Hr];
    [now apply split_nonempty|].
  exists rightSide. split; [assumption|].
  rewrite <- trackDownModule_throws.
  unfold parseLine. rewrite Hl, Hr. cbn [bind].
  destruct (trackDownModule _) as [cmd1|[]]; cbn [bind].
  - destruct (takeDescription_returns leftSide cmd1) as [[l2 cmd2] ->].
    cbn [bind fst snd].
    destruct (takeParams l2 cmd2) as [l3 cmd3].
    destruct (takeReturns l3 cmd3) as [l4 cmd4].
    split; [split; intros H; discriminate H | eauto].
  - split; [tauto | intros H; now contradiction H].
Qed.

End ThrowFacts.

(** ** The index *)

Section IndexFacts.

(** A property of every parsed line holds of every record of the list. *)
Lemma forEachLine_Forall (P : BmxCommand -> Prop) :
  (forall line c, parseLine line = Return c -> P c) ->
  forall lines l l',
    Forall P l ->
    fst (forEachLine lines (Some l)) = Some l' -> Forall P l'.
Proof.
  intros HP lines. induction lines as [|line lines IH]; intros l l' Hl.
  - cbn. now intros [= <-].
  - cbn [forEachLine]. destruct (JS.truthy line); [|now apply IH].
    destruct (parseLine line) as [c|e] eqn:E.
    + apply IH. apply Forall_app. split; [assumption|].
      constructor; [now apply (HP line) | constructor].
    + cbn. now intros [= <-].
Qed.

(** In every record that [addCommand] puts into a new list,
    [searchName] is the lower-case [realName]. *)
Lemma addCommand_names (h : Host) (data : string) (cmds : list BmxCommand) :
  fst (addCommand h data (Some [])) = Some cmds ->
  Forall (fun c => searchName c = JS.toLowerCase (realName c)) cmds.
Proof.
  unfold addCommand. apply forEachLine_Forall; [|constructor].
  apply parseLine_names.
Qed.

(** The value [cacheCommandsIfEmpty] returns only tells whether
    [_commandsList] is set. *)
Lemma cacheCommandsIfEmpty_reports (h : Host) (showPopup : bool) (ix : Index) :
  fst (cacheCommandsIfEmpty h showPopup ix)
    = isSet (_commandsList (snd (cacheCommandsIfEmpty h showPopup ix))).
Proof.
  unfold cacheCommandsIfEmpty. cbn [fst snd].
  destruct (unsetOrEmpty (_commandsList ix));
    unfold reportPopulated;
    match goal with
    | |- context [_commandsList ?i] => now destruct (_commandsList i)
    end.
Qed.

(** The three [continue] tests, flag by flag. *)
Lemma passes_flags (f : GetCommandFilter) (cmd : BmxCommand) :
  passes (Some f) cmd =
  implb (flag (hasDescription f)) (truthyStr (description cmd)) &&
  implb (flag (hasMarkdown f)) (isSet (markdownString cmd)) &&
  implb (flag (hasParameters f))
        (match params cmd with
         | Some ps => negb (length ps <=? 0)%nat
         | None => false
         end).
Proof.
  unfold passes.
  destruct (flag (hasDescription f)), (truthyStr (description cmd)),
    (flag (hasMarkdown f)), (isSet (markdownString cmd)),
    (flag (hasParameters f)); cbn; try reflexivity;
    destruct (params cmd) as [ps|]; try reflexivity;
    now destruct (length ps <=? 0)%nat.
Qed.

(** A filter only removes records from the unfiltered result. *)
Lemma findLoop_filter (command : option string) (filter : option GetCommandFilter)
    (cl : list BmxCommand) :
  findLoop command filter cl
    = List.filter (passes filter) (findLoop command None cl).
Proof.
  induction cl as [|cmd cl IH]; [reflexivity|].
  cbn [findLoop].
  destruct (negb (truthyStr command) ||
            truthyStr command && (searchName cmd =? JS.toStr command));
    [|exact IH].
  cbn [passes List.filter]. rewrite IH.
  now destruct (passes filter cmd).
Qed.

Lemma getCommand_filter (h : Host) (command : option string)
    (filter : option GetCommandFilter) (ix : Index) :
  fst (getCommand h command filter ix)
    = List.filter (passes filter) (fst (getCommand h command None ix)).
Proof.
  unfold getCommand.
  destruct (_commandsList (snd (cacheCommandsIfEmpty h false ix)));
    [|reflexivity].
  cbn [fst]. apply findLoop_filter.
Qed.

Lemma findLoop_passes (command : option string)
    (filter : option GetCommandFilter) (cl : list BmxCommand)
    (c : BmxCommand) :
  In c (findLoop command filter cl) -> passes filter c = true.
Proof.
  rewrite findLoop_filter. intros H. now apply filter_In in H.
Qed.

(** The function test on a name followed by a blank parameter list. *)
Lemma takeParams_blank (nm ws : string) (cmd : BmxCommand) :
  JS.includes "(" nm = false -> JS.trim ws = "" ->
  takeParams (nm ++ "(" ++ ws ++ ")") cmd
    = (nm, set_isFunction true (set_paramsRaw (Some "") cmd)).
Proof.
  intros Hnm Hws. unfold takeParams.
  change (nm ++ "(" ++ ws ++ ")") with (nm ++ String "(" (ws ++ ")")).
  rewrite includes_char_app.
  change (nm ++ String "(" (ws ++ ")")) with (nm ++ "(" ++ ws ++ String ")" "").
  rewrite (cutParams_app nm ws ")" Hnm).
  unfold parseCommandParams. cbn [paramsRaw set_paramsRaw].
  unfold JS.truthy. destruct (String.eqb_spec ws "") as [->|_]; cbn [negb].
  - reflexivity.
  - rewrite Hws. reflexivity.
Qed.

End IndexFacts.

(** ** The function test on a whole line *)

Section FunctionTest.

(** The raw text that the sub-parser leaves in the record is the trimmed
    one. *)
Lemma parseCommandParams_raw (raw : string) (cmd : BmxCommand) :
  paramsRaw (parseCommandParams (set_paramsRaw (Some raw) cmd))
    = Some (JS.trim raw).
Proof.
  unfold parseCommandParams. cbn [paramsRaw set_paramsRaw]. unfold JS.truthy.
  destruct (String.eqb_spec raw "") as [->|_]; cbn [negb]; [reflexivity|].
  destruct (JS.trim raw =? ""); reflexivity.
Qed.

(** On a command without parameters the sub-parser stores what it stores
    on a new one. *)
Lemma parseCommandParams_new (raw : string) (cmd : BmxCommand) :
  params cmd = None -> paramsPretty cmd = None ->
  params (parseCommandParams (set_paramsRaw (Some raw) cmd))
    = params (parseCommandParams (set_paramsRaw (Some raw) newCommand)) /\
  paramsPretty (parseCommandParams (set_paramsRaw (Some raw) cmd))
    = paramsPretty (parseCommandParams (set_paramsRaw (Some raw) newCommand)).
Proof.
  intros Hp Hq. unfold parseCommandParams. cbn [paramsRaw set_paramsRaw].
  destruct (negb (JS.truthy raw)); [cbn; auto|].
  destruct (negb (JS.truthy (JS.trim raw))); cbn; auto.
Qed.

(** The function test on a text with a character after its first opening
    parenthesis. *)
Lemma takeParams_app (pre rest : string) (ch : ascii) (cmd : BmxCommand) :
  JS.includes "(" pre = false ->
  takeParams (pre ++ "(" ++ rest ++ String ch "") cmd
    = (pre, set_isFunction true
              (parseCommandParams (set_paramsRaw (Some rest) cmd))).
Proof.
  intros Hpre. unfold takeParams.
  change (pre ++ "(" ++ rest ++ String ch "")
    with (pre ++ String "(" (rest ++ String ch "")) at 1.
  rewrite includes_char_app, (cutParams_app pre rest ch Hpre). reflexivity.
Qed.

(** The description step cuts [leftSide] the same way on every command. *)
Lemma takeDescription_left (l l2 : string) (c c2 c0 : BmxCommand) :
  takeDescription l c = Return (l2, c2) ->
  exists c3, takeDescription l c0 = Return (l2, c3).
Proof.
  unfold takeDescription. destruct (JS.includes " : " l).
  - destruct (deref (JS.split " : " l) 1) as [d|]; cbn [bind];
      [|discriminate].
    intros [= <- _]. eexists. reflexivity.
  - intros [= <- _]. eexists. reflexivity.
Qed.

Lemma takeReturns_left (l : string) (c c0 : BmxCommand) :
  fst (takeReturns l c) = fst (takeReturns l c0).
Proof. unfold takeReturns. now destruct (JS.includes ":" l). Qed.

(** A record whose line reached the function test with [(] in
    [leftSide] and a character after it. *)
Lemma parseLine_function (line pre rest : string) (ch : ascii)
    (c : BmxCommand) :
  parseLine line = Return c ->
  leftSideForParams line = pre ++ "(" ++ rest ++ String ch "" ->
  JS.includes "(" pre = false ->
  paramsRaw c = Some (JS.trim rest) /\
  isFunction c = true /\
  realName c = fst (takeReturns pre newCommand) /\
  params c = params (parseCommandParams (set_paramsRaw (Some rest) newCommand)) /\
  paramsPretty c
    = paramsPretty (parseCommandParams (set_paramsRaw (Some rest) newCommand)).
Proof.
  intros H Hleft Hpre. apply parseLine_inv in H
    as (leftSide & rightSide & cmd1 & l2 & cmd2 & H0 & _ & Hm & Hd & ->).
  assert (Hl2 : l2 = pre ++ "(" ++ rest ++ String ch "").
  { rewrite <- Hleft. unfold leftSideForParams. rewrite H0.
    destruct (takeDescription_left _ _ _ _ newCommand Hd) as (c3 & ->).
    reflexivity. }
  subst l2.
  apply trackDownModule_paramFields in Hm.
  apply takeDescription_paramFields in Hd.
  rewrite figureOutUrl_paramFields in Hm. rewrite Hm in Hd. clear Hm.
  unfold paramFields in Hd. cbn in Hd. injection Hd as Hp _ Hq _.
  rewrite (takeParams_app pre rest ch cmd2 Hpre). cbn [fst snd].
  match goal with
  | |- context [takeName ?l ?c0] =>
      pose proof (named_after_finish l c0) as Hn;
      assert (Hc : paramFields (makeInsertText (makeMarkdown (takeName l c0)))
                   = paramFields
                       (set_isFunction true
                          (parseCommandParams
                             (set_paramsRaw (Some rest) cmd2))))
        by (rewrite (proj1 (makeInsertText_fields _)),
              (proj1 (makeMarkdown_fields _)), takeName_paramFields;
            apply takeReturns_paramFields)
  end.
  unfold nameFields in Hn. injection Hn as Hr _.
  unfold paramFields in Hc. injection Hc as Hps Hraw Hpp Hf.
  destruct (parseCommandParams_new rest cmd2 Hp Hq) as (Hn1 & Hn2).
  rewrite Hraw, Hf, Hr, Hps, Hpp.
  cbn [paramsRaw params paramsPretty isFunction set_isFunction].
  rewrite parseCommandParams_raw, Hn1, Hn2.
  repeat split. apply takeReturns_left.
Qed.

End FunctionTest.

(** ** The catalog format, claim by claim *)

Ltac run := vm_compute; reflexivity.

(** C1, as the code has it.  The first line of [slashlessCatalog] has a
    non-empty last field without a slash: its parse throws a [TypeError]
    at the module step, the [try] of [cacheCommands] swallows it, and the
    second line, which parses on its own, is never reached.  The index is
    left with no record at all. *)
Theorem slashless_line_aborts_batch :
  parseLine "Abs|index.html" = Throw TypeError /\
  (exists c,
     parseLine "ACos:Double( x:Double ) : Inverse Cosine of x|/docs/html/Modules/Math/Math/index.html#ACos"
       = Return c /\ realName c = "ACos") /\
  JS.split LF slashlessCatalog =
    ["Abs|index.html";
     "ACos:Double( x:Double ) : Inverse Cosine of x|/docs/html/Modules/Math/Math/index.html#ACos"] /\
  addCommand (hostWith slashlessCatalog) slashlessCatalog (Some [])
    = (Some [], Throw TypeError) /\
  _commandsList (snd (cacheCommands (hostWith slashlessCatalog) false initialIndex))
    = Some [].
Proof.
  split; [run|]. split; [eexists; split; run|].
  repeat split; run.
Qed.

(** C2, the claim as stated fails: neither on the line as it is written,
    nor on the line without blanks around the separators, is the module
    ["mod/math.mod"]. *)
Lemma sin_line_module_claim_fails :
  ~ (exists c,
       parseLine sinLine = Return c /\
       isFunction c = true /\ returns c = None /\
       description c = Some "Returns sine of angle" /\
       module c = Some "mod/math.mod" /\
       exists u, url c = Some u /\
                 JS.split "/" u = [""; "mod"; "math.mod"; "math.bmx"; "Sin"]) /\
  ~ (exists c,
       parseLine sinLineTight = Return c /\
       isFunction c = true /\ returns c = None /\
       description c = Some "Returns sine of angle" /\
       module c = Some "mod/math.mod" /\
       exists u, url c = Some u /\
                 JS.split "/" u = [""; "mod"; "math.mod"; "math.bmx"; "Sin"]).
Proof.
  split; intros (c & Hc & _ & _ & _ & Hm & _);
    vm_compute in Hc; injection Hc as <-; discriminate Hm.
Qed.

(** C2, amended: the example line yields a function without return type
    whose module is ["math.mod/math.bmx"], segments 2 and 3 of the URL
    path.  As written, with blanks around the separators, the description
    keeps its trailing blank and the path starts with a blank segment;
    without those blanks the description is the bare sentence and the
    first segment is empty. *)
Theorem sin_line_parsed :
  (exists c,
     parseLine sinLine = Return c /\
     isFunction c = true /\ returns c = None /\
     description c = Some "Returns sine of angle " /\
     module c = Some "math.mod/math.bmx" /\
     exists u, url c = Some u /\
               JS.split "/" u = [" "; "mod"; "math.mod"; "math.bmx"; "Sin"]) /\
  (exists c,
     parseLine sinLineTight = Return c /\
     isFunction c = true /\ returns c = None /\
     description c = Some "Returns sine of angle" /\
     module c = Some "math.mod/math.bmx" /\
     exists u, url c = Some u /\
               JS.split "/" u = [""; "mod"; "math.mod"; "math.bmx"; "Sin"]).
Proof.
  split; (eexists; split; [run|]);
    repeat (split; [run|]); eexists; split; run.
Qed.

(** C3, as the code has it.  A readable catalog without any line leaves
    an empty list, a search without name finds nothing, and yet
    [cacheCommandsIfEmpty] answers [true]: the comparison it returns,
    [length >= 0], holds of every list, so the answer only tells whether
    [_commandsList] is set. *)
Theorem empty_catalog_reported_populated :
  cacheCommandsIfEmpty (hostWith "") false initialIndex
    = (true, mkIndex (Some []) 0) /\
  fst (getCommand (hostWith "") None None initialIndex) = [] /\
  forall h showPopup ix,
    fst (cacheCommandsIfEmpty h showPopup ix)
      = isSet (_commandsList (snd (cacheCommandsIfEmpty h showPopup ix))).
Proof.
  split; [run|]. split; [run|].
  apply cacheCommandsIfEmpty_reports.
Qed.

(** C4, the claim as stated fails: after indexing the example line a
    search for ["sin"] does not return one record named ["sin"]. *)
Lemma find_sin_claim_fails :
  ~ (exists c,
       fst (getCommand (hostWith sinLine) (Some "sin") None initialIndex) = [c] /\
       searchName c = "sin") /\
  ~ (exists c,
       fst (getCommand (hostWith sinLineTight) (Some "sin") None initialIndex)
         = [c] /\
       searchName c = "sin").
Proof.
  split; intros (c & Hc & _); vm_compute in Hc; discriminate Hc.
Qed.

(** C4, amended: the record of the example line is filed under ["sin#"],
    the name with its sigil.  A search for ["sin#"] returns exactly that
    record, also with [hasParameters] set; a search for ["sin"] returns
    nothing.  A filter only removes records from the unfiltered result,
    and each of its flags can remove a record only when it is [true]:
    with every flag left out or [false], every record passes. *)
Theorem find_sin_sigil_and_filters :
  (exists c,
     fst (getCommand (hostWith sinLine) (Some "sin#") None initialIndex) = [c] /\
     searchName c = "sin#" /\ realName c = "Sin#" /\
     fst (getCommand (hostWith sinLine) (Some "sin#")
            (Some (mkFilter None None (Some true))) initialIndex) = [c]) /\
  fst (getCommand (hostWith sinLine) (Some "sin") None initialIndex) = [] /\
  (forall h command f ix,
     fst (getCommand h command (Some f) ix)
       = List.filter (passes (Some f)) (fst (getCommand h command None ix))) /\
  (forall f cmd,
     passes (Some f) cmd =
     implb (flag (hasDescription f)) (truthyStr (description cmd)) &&
     implb (flag (hasMarkdown f)) (isSet (markdownString cmd)) &&
     implb (flag (hasParameters f))
           (match params cmd with
            | Some ps => negb (length ps <=? 0)%nat
            | None => false
            end)) /\
  (forall cmd,
     passes None cmd = true /\
     passes (Some (mkFilter None None None)) cmd = true /\
     passes (Some (mkFilter (Some false) (Some false) (Some false))) cmd = true).
Proof.
  split; [eexists; split; [run|]; repeat split; run|].
  split; [run|].
  split; [intros; apply getCommand_filter|].
  split; [apply passes_flags|].
  intros cmd. repeat split; reflexivity.
Qed.

(** C5: in every record that a catalog line produces, [searchName] is
    [realName] in lower case. *)
Theorem searchName_is_lowercase_realName (line : string) (c : BmxCommand) :
  parseLine line = Return c ->
  searchName c = JS.toLowerCase (realName c).
Proof. apply parseLine_names. Qed.

Lemma searchName_is_lowercase_realName_witness :
  exists c,
    parseLine sinLine = Return c /\
    searchName c = JS.toLowerCase (realName c).
Proof.
  eexists. split; [run|].
  apply (searchName_is_lowercase_realName sinLine). run.
Defined.

(** C6, as the code has it.  The line [namelessLine] has an empty first
    field: its record has an empty [realName] and an empty [searchName].
    The placeholders ["No Name"] and ["no name"] of the object literal
    are overwritten by the name step on every line, so no record ever
    carries them because its line was malformed. *)
Theorem nameless_line_has_empty_names :
  (exists c,
     parseLine namelessLine = Return c /\
     realName c = "" /\ searchName c = "") /\
  realName newCommand = "No Name" /\ searchName newCommand = "no name" /\
  forall l command,
    realName (takeName l command) = l /\
    searchName (takeName l command) = JS.toLowerCase l.
Proof.
  split; [eexists; split; [run|]; split; run|].
  repeat split; reflexivity.
Qed.

(** C7: the raw text [a:Int, b:String = "hi, there"] yields exactly two
    parameters; the comma inside the quoted default does not start a
    third one. *)
Theorem quoted_default_keeps_comma :
  params (parseCommandParams (set_paramsRaw (Some quotedRaw) newCommand))
    = Some [mkParam "a" "Int" "";
            mkParam "b" "String"
              (String dquote "hi, there" ++ String dquote "")] /\
  scanned (scanLoop quotedRaw scanStart)
    = [mkParam "a" "Int" "";
       mkParam "b" "String" (String dquote "hi, there" ++ String dquote "")].
Proof. split; run. Qed.

(** C8: whenever the sub-parser stored parameters for a command, it
    also stored their rendering, and reading that rendering again, on any
    command, gives as many parameters with the same names and, up to white
    space at the ends, the same types and defaults.  The two lists are
    equal when trimming leaves the rendering as it is. *)
Theorem paramsPretty_roundtrip (cmd : BmxCommand)
    (ps : list BmxCommandParam) :
  params cmd = None ->
  params (parseCommandParams cmd) = Some ps ->
  exists pretty,
    paramsPretty (parseCommandParams cmd) = Some pretty /\
    forall cmd2, exists ps',
      params (parseCommandParams (set_paramsRaw (Some pretty) cmd2))
        = Some ps' /\
      length ps' = length ps /\
      Forall2 sameParam ps ps' /\
      (JS.trim pretty = pretty -> ps' = ps).
Proof.
  intros Hnone Hps.
  destruct (paramsRaw cmd) as [raw|] eqn:Hraw.
  - assert (Hcmd : cmd = set_paramsRaw (Some raw) cmd).
    { destruct cmd. cbn in Hraw. now subst. }
    destruct (String.eqb_spec (JS.trim raw) "") as [Hblank|Hrun].
    + exfalso. clear Hcmd. unfold parseCommandParams in Hps.
      rewrite Hraw in Hps.
      destruct (negb (JS.truthy raw)); [congruence|].
      rewrite Hblank in Hps. cbn in Hps. congruence.
    + rewrite Hcmd in Hps |- *.
      destruct (parseCommandParams_run raw cmd Hrun) as [Hp Hq].
      rewrite Hp in Hps. injection Hps as <-.
      destruct (pretty_roundtrip raw Hrun) as (Htrim & ps' & Hscan & Hlen & Hsame & Hexact).
      eexists. split; [exact Hq|].
      intros cmd2. exists ps'.
      destruct (parseCommandParams_run _ cmd2 Htrim) as [Hp2 _].
      rewrite Hp2, Hscan. auto.
  - unfold parseCommandParams in Hps. rewrite Hraw in Hps. congruence.
Qed.

Lemma paramsPretty_roundtrip_witness :
  params (set_paramsRaw (Some quotedRaw) newCommand) = None /\
  params (parseCommandParams (set_paramsRaw (Some quotedRaw) newCommand))
    = Some [mkParam "a" "Int" "";
            mkParam "b" "String"
              (String dquote "hi, there" ++ String dquote "")] /\
  exists pretty,
    paramsPretty (parseCommandParams (set_paramsRaw (Some quotedRaw) newCommand))
      = Some pretty /\
    forall cmd2, exists ps',
      params (parseCommandParams (set_paramsRaw (Some pretty) cmd2))
        = Some ps' /\
      length ps' = 2%nat /\
      Forall2 sameParam
        [mkParam "a" "Int" "";
         mkParam "b" "String" (String dquote "hi, there" ++ String dquote "")]
        ps' /\
      (JS.trim pretty = pretty ->
       ps' = [mkParam "a" "Int" "";
              mkParam "b" "String"
                (String dquote "hi, there" ++ String dquote "")]).
Proof.
  split; [run|]. split; [run|].
  apply (paramsPretty_roundtrip (set_paramsRaw (Some quotedRaw) newCommand)
           [mkParam "a" "Int" "";
            mkParam "b" "String"
              (String dquote "hi, there" ++ String dquote "")]); run.
Defined.

(** C9, the claim as stated fails: in [Foo(a):Int] a return type follows
    the closing parenthesis, and [paramsRaw] is not the text between the
    parentheses. *)
Lemma paramsRaw_claim_fails_on_trailing_text :
  JS.includes "(" "Foo(a):Int" = true /\
  paramsRawBySpec "Foo(a):Int" = Some "a" /\
  fst (cutParams "Foo(a):Int") = "a):In" /\
  ~ (Some (fst (cutParams "Foo(a):Int")) = paramsRawBySpec "Foo(a):Int") /\
  exists c,
    parseLine "Foo(a):Int|/mod/a.mod/b.mod/c" = Return c /\
    paramsRaw c = Some "a):In" /\ returns c = None.
Proof.
  split; [run|]. split; [run|]. split; [run|].
  split; [intros H; vm_compute in H; discriminate H|].
  eexists. split; [run|]. split; run.
Qed.

(** C9, amended: on a line that yields a record and whose [leftSide],
    after the description step, has at least one character after its
    first opening parenthesis, the text assigned to [paramsRaw] runs from
    just after that parenthesis up to the character before the last
    character of [leftSide], and [leftSide] is cut back to what precedes
    the parenthesis.  The record stores that text trimmed, it is a
    function, its name is read from the text before the parenthesis and
    its parameters from the text assigned.  For a [leftSide] that ends
    with its closing parenthesis the text assigned is the text between
    the two. *)
Theorem paramsRaw_up_to_last_character (line pre rest : string) (ch : ascii)
    (c : BmxCommand) :
  parseLine line = Return c ->
  leftSideForParams line = pre ++ "(" ++ rest ++ String ch "" ->
  JS.includes "(" pre = false ->
  cutParams (leftSideForParams line) = (rest, pre) /\
  paramsRaw c = Some (JS.trim rest) /\
  isFunction c = true /\
  realName c = fst (takeReturns pre newCommand) /\
  params c
    = params (parseCommandParams (set_paramsRaw (Some rest) newCommand)).
Proof.
  intros Hline Hleft Hpre.
  destruct (parseLine_function line pre rest ch c Hline Hleft Hpre)
    as (Hraw & Hf & Hn & Hp & _).
  split; [rewrite Hleft; now apply cutParams_app|].
  now repeat split.
Qed.

Lemma paramsRaw_up_to_last_character_witness :
  parseLine acosLine = Return acosRecord /\
  leftSideForParams acosLine = "ACos:Double" ++ "(" ++ " x:Double " ++ ")" /\
  JS.includes "(" "ACos:Double" = false /\
  JS.trim " x:Double " = "x:Double" /\
  fst (takeReturns "ACos:Double" newCommand) = "ACos" /\
  params (parseCommandParams (set_paramsRaw (Some " x:Double ") newCommand))
    = Some [mkParam "x" "Double" ""] /\
  cutParams (leftSideForParams acosLine) = (" x:Double ", "ACos:Double") /\
  paramsRaw acosRecord = Some (JS.trim " x:Double ") /\
  isFunction acosRecord = true /\
  realName acosRecord = fst (takeReturns "ACos:Double" newCommand) /\
  params acosRecord
    = params (parseCommandParams
                (set_paramsRaw (Some " x:Double ") newCommand)).
Proof.
  split; [run|]. split; [run|]. split; [run|]. split; [run|].
  split; [run|]. split; [run|].
  apply (paramsRaw_up_to_last_character acosLine "ACos:Double" " x:Double "
           ")" acosRecord); run.
Defined.

(** C10, the claim as stated fails: the parameter list of [Foo():Int]
    and that of [Foo() | ...] are empty, yet the text after the closing
    parenthesis makes the function test read a parameter named [)], and
    a search with [hasParameters] returns the record. *)
Lemma empty_list_before_trailing_text :
  parseLine emptyListTypedLine = Return emptyListTypedRecord /\
  isFunction emptyListTypedRecord = true /\
  paramsRaw emptyListTypedRecord = Some "):In" /\
  params emptyListTypedRecord = Some [mkParam ")" "In" ""] /\
  paramsPretty emptyListTypedRecord = Some "):In" /\
  fst (getCommand (hostWith emptyListTypedLine) (Some "Foo")
         (Some (mkFilter None None (Some true))) initialIndex)
    = [emptyListTypedRecord] /\
  parseLine emptyListSpacedLine = Return emptyListSpacedRecord /\
  isFunction emptyListSpacedRecord = true /\
  paramsRaw emptyListSpacedRecord = Some ")" /\
  params emptyListSpacedRecord = Some [mkParam ")" "Int" ""] /\
  paramsPretty emptyListSpacedRecord = Some "):Int" /\
  fst (getCommand (hostWith emptyListSpacedLine) (Some "Foo")
         (Some (mkFilter None None (Some true))) initialIndex)
    = [emptyListSpacedRecord] /\
  ~ (params emptyListTypedRecord = None) /\
  ~ (params emptyListSpacedRecord = None).
Proof.
  repeat (split; [run|]).
  split; intros H; vm_compute in H; discriminate H.
Qed.

(** C10, amended: on a line that yields a record and whose [leftSide],
    after the description step, ends with its parameter list, a text
    without [(] followed by [(], by nothing or white space that [trim]
    removes, and by [)], the record is a function without [params] and
    without [paramsPretty], its [paramsRaw] is empty, and no search with
    [hasParameters] set returns it. *)
Theorem blank_parameter_list_at_end (line pre ws : string) (c : BmxCommand)
    (f : GetCommandFilter) (h : Host) (command : option string)
    (ix : Index) :
  parseLine line = Return c ->
  leftSideForParams line = pre ++ "(" ++ ws ++ ")" ->
  JS.includes "(" pre = false ->
  JS.trim ws = "" ->
  hasParameters f = Some true ->
  isFunction c = true /\ params c = None /\ paramsPretty c = None /\
  paramsRaw c = Some "" /\
  ~ In c (fst (getCommand h command (Some f) ix)) /\
  (forall cl, ~ In c (findLoop command (Some f) cl)).
Proof.
  intros Hline Hleft Hpre Hws Hflag.
  destruct (parseLine_function line pre ws ")" c Hline Hleft Hpre)
    as (Hraw & _). rewrite Hws in Hraw.
  destruct (parseLine_blank_params line c Hline Hraw) as (Hf & Hp & Hq).
  assert (Hno : passes (Some f) c = false).
  { rewrite passes_flags, Hflag, Hp. cbn [flag implb].
    now rewrite !andb_false_r. }
  repeat (split; [assumption|]). split.
  - rewrite getCommand_filter. intros Hin. apply filter_In in Hin.
    destruct Hin as [_ Hin]. rewrite Hno in Hin. discriminate Hin.
  - intros cl Hin. apply findLoop_passes in Hin. rewrite Hno in Hin.
    discriminate Hin.
Qed.

Lemma blank_parameter_list_at_end_witness :
  parseLine blankListLine = Return blankListRecord /\
  leftSideForParams blankListLine = "Foo" ++ "(" ++ " " ++ ")" /\
  JS.includes "(" "Foo" = false /\
  JS.trim " " = "" /\
  hasParameters (mkFilter None None (Some true)) = Some true /\
  isFunction blankListRecord = true /\
  params blankListRecord = None /\
  paramsPretty blankListRecord = None /\
  paramsRaw blankListRecord = Some "" /\
  ~ In blankListRecord
      (fst (getCommand (hostWith blankListLine) (Some "Foo")
              (Some (mkFilter None None (Some true))) initialIndex)) /\
  (forall cl,
     ~ In blankListRecord
         (findLoop (Some "Foo") (Some (mkFilter None None (Some true))) cl)).
Proof.
  split; [run|]. split; [run|]. split; [run|]. split; [run|].
  split; [run|].
  apply (blank_parameter_list_at_end blankListLine "Foo" " " blankListRecord
           (mkFilter None None (Some true)) (hostWith blankListLine)
           (Some "Foo") initialIndex); run.
Defined.

(** The two spellings of an empty parameter list, from the file to the
    search. *)
Example blank_lists_indexed :
  (exists c,
     _commandsList (snd (cacheCommands (hostWith "Foo()|/mod/a.mod/b.mod/c")
                                       false initialIndex)) = Some [c] /\
     paramsRaw c = Some "" /\ isFunction c = true /\ params c = None) /\
  (exists c,
     _commandsList (snd (cacheCommands (hostWith "Foo( )|/mod/a.mod/b.mod/c")
                                       false initialIndex)) = Some [c] /\
     paramsRaw c = Some "" /\ isFunction c = true /\ params c = None) /\
  fst (getCommand (hostWith "Foo()|/mod/a.mod/b.mod/c") (Some "Foo")
         (Some (mkFilter None None (Some true))) initialIndex) = [] /\
  fst (getCommand (hostWith "Foo( )|/mod/a.mod/b.mod/c") (Some "Foo")
         (Some (mkFilter None None (Some true))) initialIndex) = [] /\
  length (fst (getCommand (hostWith "Foo()|/mod/a.mod/b.mod/c") (Some "Foo")
                 None initialIndex)) = 1%nat.
Proof.
  split; [eexists; split; [run|]; repeat split; run|].
  split; [eexists; split; [run|]; repeat split; run|].
  repeat split; run.
Qed.

(** The sigil example of the specification, [Bar%(x, y#)]. *)
Example sigil_params :
  scanned (scanLoop "x, y#" scanStart)
    = [mkParam "x" "Int" ""; mkParam "y" "Float" ""].
Proof. run. Qed.

(** White space other than the blank is kept in a field, and trimming the
    rendering removes it from the end of the last one. *)
Example tab_in_type :
  let tab := String (ascii_of_nat 9) "" in
  let cmd := parseCommandParams
               (set_paramsRaw (Some ("a:" ++ tab ++ ",")) newCommand) in
  params cmd = Some [mkParam "a" tab ""] /\
  params (parseCommandParams (set_paramsRaw (paramsPretty cmd) newCommand))
    = Some [mkParam "a" "" ""].
Proof. split; run. Qed.

(** ** The index as its callers see it *)

Section LookupFacts.

Lemma lowerChar_idem (c : ascii) : JS.lowerChar (JS.lowerChar c) = JS.lowerChar c.
Proof.
  destruct c as [[] [] [] [] [] [] [] []]; vm_compute; reflexivity.
Qed.

Lemma toLowerCase_idem (s : string) :
  JS.toLowerCase (JS.toLowerCase s) = JS.toLowerCase s.
Proof.
  induction s as [|c s IH]; [reflexivity|].
  cbn [JS.toLowerCase]. now rewrite lowerChar_idem, IH.
Qed.

Lemma truthy_toLowerCase (s : string) :
  JS.truthy (JS.toLowerCase s) = JS.truthy s.
Proof. now destruct s. Qed.

Lemma findLoop_selects (command : option string)
    (filter : option GetCommandFilter) (cl : list BmxCommand) :
  findLoop (if truthyStr command
            then Some (JS.toLowerCase (JS.toStr command)) else command)
           filter cl
    = List.filter (selects command filter) cl.
Proof.
  induction cl as [|cmd cl IH]; [reflexivity|].
  cbn [findLoop List.filter]. rewrite IH.
  assert (Hs : selects command filter cmd =
               (negb (truthyStr (if truthyStr command
                                 then Some (JS.toLowerCase (JS.toStr command))
                                 else command)) ||
                truthyStr (if truthyStr command
                           then Some (JS.toLowerCase (JS.toStr command))
                           else command) &&
                (searchName cmd =?
                 JS.toStr (if truthyStr command
                           then Some (JS.toLowerCase (JS.toStr command))
                           else command))) && passes filter cmd).
  { unfold selects. destruct command as [n|]; cbn [truthyStr JS.toStr];
      [|reflexivity].
    destruct (JS.truthy n) eqn:Hn; cbn [truthyStr JS.toStr];
      rewrite ?truthy_toLowerCase, Hn; reflexivity. }
  rewrite Hs.
  match goal with
  | |- (if ?a then _ else _) = _ => destruct a
  end; cbn [andb]; [|reflexivity].
  now destruct (passes filter cmd).
Qed.

Lemma getCommand_result (h : Host) (command : option string)
    (filter : option GetCommandFilter) (ix : Index) :
  fst (getCommand h command filter ix) =
  match _commandsList (snd (cacheCommandsIfEmpty h false ix)) with
  | None => []
  | Some cl => List.filter (selects command filter) cl
  end.
Proof.
  unfold getCommand.
  destruct (_commandsList (snd (cacheCommandsIfEmpty h false ix)));
    [|reflexivity].
  cbn [fst]. apply findLoop_selects.
Qed.

Lemma getCommand_index (h : Host) (command : option string)
    (filter : option GetCommandFilter) (ix : Index) :
  snd (getCommand h command filter ix) = snd (cacheCommandsIfEmpty h false ix).
Proof.
  unfold getCommand.
  now destruct (_commandsList (snd (cacheCommandsIfEmpty h false ix))).
Qed.

Lemma cacheCommandsIfEmpty_kept (h : Host) (showPopup : bool) (ix : Index) :
  unsetOrEmpty (_commandsList ix) = false ->
  cacheCommandsIfEmpty h showPopup ix = (true, ix).
Proof.
  intros H. unfold cacheCommandsIfEmpty. rewrite H.
  destruct (_commandsList ix) as [l|]; [|discriminate H]. reflexivity.
Qed.

Lemma showQuickHelp_index (h : Host) (command : string)
    (selection : option nat) (ix : Index) :
  snd (showQuickHelp h command selection ix)
    = snd (cacheCommandsIfEmpty h false (snd (cacheCommandsIfEmpty h true ix))) \/
  snd (showQuickHelp h command selection ix)
    = snd (cacheCommandsIfEmpty h true ix).
Proof.
  unfold showQuickHelp.
  destruct (negb (isSet (_commandsList (snd (cacheCommandsIfEmpty h true ix)))));
    [now right|].
  destruct (getCommand h (Some command) _ _) as [commands ix'] eqn:E.
  left. rewrite <- getCommand_index with (command := Some command)
    (filter := Some (mkFilter (Some true) None None)), E. cbn [snd].
  destruct (1 <? length commands)%nat; [reflexivity|].
  now destruct (length commands =? 1)%nat.
Qed.

Lemma cacheCommands_warnings (h : Host) (ix : Index) :
  warnings (snd (cacheCommands h false ix)) = warnings ix.
Proof.
  unfold cacheCommands. cbn [snd warnings]. now rewrite andb_false_r.
Qed.

Lemma cacheCommandsIfEmpty_warnings (h : Host) (ix : Index) :
  warnings (snd (cacheCommandsIfEmpty h false ix)) = warnings ix.
Proof.
  unfold cacheCommandsIfEmpty. cbn [snd].
  destruct (unsetOrEmpty (_commandsList ix)); [|reflexivity].
  apply cacheCommands_warnings.
Qed.

(** A record of the list is found by the loop when it is selected. *)
Lemma In_filter_selects (command : option string)
    (filter : option GetCommandFilter) (cl : list BmxCommand)
    (c : BmxCommand) :
  In c cl -> selects command filter c = true ->
  In c (List.filter (selects command filter) cl).
Proof. intros Hin Hsel. apply filter_In. now split. Qed.

End LookupFacts.

(** ** A batch of lines *)

Section BatchFacts.

(** The records that lines which all parse add to the list: one for
    every non-empty line, in the order of the lines. *)
Lemma forEachLine_all (lines : list string) (l : list BmxCommand) :
  Forall (fun line => parseLine line <> Throw TypeError) lines ->
  exists cmds,
    forEachLine lines (Some l) = (Some (l ++ cmds)%list, Return tt) /\
    Forall2 (fun line c => parseLine line = Return c)
            (List.filter JS.truthy lines) cmds.
Proof.
  revert l. induction lines as [|line lines IH]; intros l Hall.
  - exists []. cbn. rewrite app_nil_r. split; [reflexivity | constructor].
  - inversion Hall as [|? ? Hline Hrest]; subst.
    cbn [forEachLine List.filter]. destruct (JS.truthy line).
    + destruct (parseLine line) as [c|[]] eqn:E; [|now contradiction Hline].
      destruct (IH (l ++ [c])%list Hrest) as (cmds & Hrun & Hrec).
      exists (c :: cmds). rewrite Hrun, <- app_assoc.
      split; [reflexivity | now constructor].
    + now apply IH.
Qed.

(** The list when a line throws after lines that parse. *)
Lemma forEachLine_stop (good rest : list string) (bad : string)
    (l : list BmxCommand) :
  Forall (fun line => parseLine line <> Throw TypeError) good ->
  parseLine bad = Throw TypeError ->
  exists cmds,
    forEachLine (good ++ bad :: rest) (Some l)
      = (Some (l ++ cmds)%list, Throw TypeError) /\
    Forall2 (fun line c => parseLine line = Return c)
            (List.filter JS.truthy good) cmds.
Proof.
  intros Hgood Hbad. revert l.
  induction good as [|line good IH]; intros l.
  - exists []. cbn [app forEachLine List.filter]. rewrite app_nil_r.
    destruct (JS.truthy bad) eqn:Hb.
    + rewrite Hbad. split; [reflexivity | constructor].
    + destruct bad; [|discriminate Hb]. vm_compute in Hbad. discriminate Hbad.
  - inversion Hgood as [|? ? Hline Hrest]; subst.
    cbn [app forEachLine List.filter]. destruct (JS.truthy line).
    + destruct (parseLine line) as [c|[]] eqn:E; [|now contradiction Hline].
      destruct (IH Hrest (l ++ [c])%list) as (cmds & Hrun & Hrec).
      exists (c :: cmds). rewrite Hrun, <- app_assoc.
      split; [reflexivity | now constructor].
    + now apply IH.
Qed.

End BatchFacts.

(** ** Fields cut at a separator *)

Section SeparatorFacts.

Lemma prefix_app (sep d : string) : prefix sep (sep ++ d) = true.
Proof.
  induction sep as [|c sep IH]; [now destruct d|].
  cbn [append prefix]. now destruct (ascii_dec c c).
Qed.

Lemma includes_app (sep a d : string) :
  JS.includes sep (a ++ sep ++ d) = true.
Proof.
  induction a as [|c a IH].
  - cbn [append]. destruct (sep ++ d) eqn:E.
    + cbn [JS.includes]. rewrite <- E. apply prefix_app.
    + cbn [JS.includes]. rewrite <- E, prefix_app. reflexivity.
  - cbn [append JS.includes]. rewrite IH. apply orb_true_r.
Qed.

(** A text without the separator is one segment. *)
Lemma splitLoop_none (sep s : string) :
  JS.includes sep s = false -> JS.splitLoop sep 0 s = [s].
Proof.
  induction s as [|c s IH]; intros H; [reflexivity|].
  cbn [JS.includes] in H. apply orb_false_iff in H as [Hp Hs].
  cbn [JS.splitLoop]. rewrite Hp, (IH Hs). reflexivity.
Qed.

Lemma splitLoop_skip (sep x d : string) :
  JS.splitLoop sep (String.length x) (x ++ d) = JS.splitLoop sep 0 d.
Proof. induction x as [|c x IH]; [reflexivity | exact IH]. Qed.

(** The first segment ends where the separator is first found. *)
Lemma splitLoop_at (sep a d : string) :
  sep <> "" ->
  JS.indexOf sep (a ++ sep ++ d) = JS.len a ->
  JS.splitLoop sep 0 (a ++ sep ++ d) = a :: JS.splitLoop sep 0 d.
Proof.
  intros Hsep. induction a as [|y a IH]; intros Hidx.
  - destruct sep as [|c0 x]; [contradiction|].
    cbn [append JS.splitLoop].
    change (String c0 (x ++ d)) with (String c0 x ++ d).
    rewrite prefix_app. cbn [String.length Nat.sub].
    rewrite Nat.sub_0_r. now rewrite splitLoop_skip.
  - cbn [append JS.indexOf JS.splitLoop] in *.
    destruct (prefix sep (String y (a ++ sep ++ d))).
    + rewrite len_cons in Hidx. pose proof (len_nonneg a). lia.
    + destruct (JS.indexOf sep (a ++ sep ++ d) <? 0)%Z eqn:E.
      * rewrite len_cons in Hidx. pose proof (len_nonneg a). lia.
      * rewrite len_cons in Hidx. rewrite IH by lia. reflexivity.
Qed.

Lemma indexOf_char_at (c : ascii) (a d : string) :
  JS.includes (String c "") a = false ->
  JS.indexOf (String c "") (a ++ String c "" ++ d) = JS.len a.
Proof. intros H. cbn [append]. now apply indexOf_char_app. Qed.

(** A text with one separating character is two segments. *)
Lemma split_char_two (c : ascii) (a d : string) :
  JS.includes (String c "") a = false ->
  JS.includes (String c "") d = false ->
  JS.split (String c "") (a ++ String c d) = [a; d].
Proof.
  intros Ha Hd. unfold JS.split. cbn [String.eqb].
  change (a ++ String c d) with (a ++ String c "" ++ d).
  rewrite splitLoop_at; [| discriminate | now apply indexOf_char_at].
  now rewrite (splitLoop_none _ _ Hd).
Qed.

(** Where a character occurs, it occurs a first time. *)
Lemma includes_char_split (c : ascii) (s : string) :
  JS.includes (String c "") s = true ->
  exists u x, s = u ++ String c x /\ JS.includes (String c "") u = false.
Proof.
  induction s as [|y s IH]; intros H.
  - discriminate H.
  - cbn [JS.includes] in H. rewrite prefix_char in H.
    destruct (c =? y)%char eqn:E.
    + apply Ascii.eqb_eq in E. subst y. now exists "", s.
    + cbn [orb] in H. destruct (IH H) as (u & x & -> & Hu).
      exists (String y u), x. split; [reflexivity|].
      cbn [JS.includes]. rewrite prefix_char, E, Hu. reflexivity.
Qed.

(** "Figure out URL" on a field with an anchor. *)
Lemma figureOutUrl_anchor (u x : string) (cmd : BmxCommand) :
  JS.includes "#" u = false ->
  figureOutUrl (u ++ String "#" x) cmd
    = set_url (Some u) (set_urlLocation (Some (String "#" x)) cmd).
Proof.
  intros Hu. unfold figureOutUrl.
  rewrite includes_char_app, (indexOf_char_app "#" u x Hu).
  assert (Hloc : JS.substr (u ++ String "#" x) (JS.len u) = String "#" x).
  { unfold JS.substr. rewrite clampIndex_nonneg.
    - unfold JS.len. rewrite Nat2Z.id. apply drop_app.
    - rewrite len_app. pose proof (len_nonneg u).
      pose proof (len_nonneg (String "#" x)). lia. }
  rewrite Hloc. do 2 f_equal.
  apply slice_drop_tail; [|reflexivity].
  rewrite len_cons. pose proof (len_nonneg x). lia.
Qed.

(** "Returns?" on a name followed by a colon. *)
Lemma takeReturns_app (nm r : string) (cmd : BmxCommand) :
  JS.includes ":" nm = false ->
  takeReturns (nm ++ ":" ++ r) cmd = (nm, set_returns (Some r) cmd).
Proof.
  intros Hnm. unfold takeReturns. cbn [append].
  rewrite includes_char_app, (indexOf_char_app ":" nm r Hnm).
  assert (Hr : JS.substr (nm ++ String ":" r) (JS.len nm + 1) = r).
  { unfold JS.substr. rewrite clampIndex_nonneg.
    - replace (Z.to_nat (JS.len nm + 1)) with (S (String.length nm))
        by (unfold JS.len; lia).
      apply drop_app_S.
    - rewrite len_app, len_cons. pose proof (len_nonneg nm).
      pose proof (len_nonneg r). lia. }
  rewrite Hr. f_equal.
  replace (- JS.len r - 1)%Z with (- JS.len (String ":" r))%Z
    by (rewrite len_cons; lia).
  apply slice_drop_tail; [|reflexivity].
  rewrite len_cons. pose proof (len_nonneg r). lia.
Qed.

(** "Take care of the description" when the first separator is the only
    one. *)
Lemma takeDescription_at (sig d : string) (cmd : BmxCommand) :
  JS.indexOf " : " (sig ++ " : " ++ d) = JS.len sig ->
  JS.includes " : " d = false ->
  takeDescription (sig ++ " : " ++ d) cmd
    = Return (sig, set_description (Some d) cmd).
Proof.
  intros Hidx Hd. unfold takeDescription.
  rewrite includes_app. unfold JS.split. cbn [String.eqb Ascii.eqb Bool.eqb].
  rewrite splitLoop_at by (discriminate || assumption).
  rewrite (splitLoop_none _ _ Hd). cbn [deref JS.at_ nth_error bind].
  do 2 f_equal.
  replace (- JS.len d - 3)%Z with (- JS.len (" : " ++ d))%Z
    by (rewrite len_app; change (JS.len " : ") with 3%Z; lia).
  apply slice_drop_tail; [|reflexivity].
  rewrite len_app. pose proof (len_nonneg d). change (JS.len " : ") with 3%Z. lia.
Qed.

End SeparatorFacts.

(** ** The module of a URL *)

Section ModuleFacts.

Lemma split_char_cons (c : ascii) (a d : string) :
  JS.includes (String c "") a = false ->
  JS.split (String c "") (a ++ String c d) = a :: JS.split (String c "") d.
Proof.
  intros Ha. unfold JS.split. cbn [String.eqb].
  change (a ++ String c d) with (a ++ String c "" ++ d).
  apply splitLoop_at; [discriminate | now apply indexOf_char_at].
Qed.

Lemma split_char_last (c : ascii) (a : string) :
  JS.includes (String c "") a = false -> JS.split (String c "") a = [a].
Proof. intros Ha. unfold JS.split. cbn [String.eqb]. now apply splitLoop_none. Qed.

Lemma truthy_app_slash (a b : string) : JS.truthy (a ++ "/" ++ b) = true.
Proof. now destruct a. Qed.

(** X12: for a URL path [s0/seg1/a/b/t] whose segment 1 is [mod], in
    any case, the module is [a/b], segments 2 and 3. *)
Lemma trackDownModule_mod (s0 seg1 a b t : string) (cmd : BmxCommand) :
  JS.includes "/" s0 = false -> JS.includes "/" seg1 = false ->
  JS.includes "/" a = false -> JS.includes "/" b = false ->
  JS.toLowerCase seg1 = "mod" ->
  url cmd = Some (s0 ++ "/" ++ seg1 ++ "/" ++ a ++ "/" ++ b ++ "/" ++ t) ->
  trackDownModule cmd = Return (set_module (Some (a ++ "/" ++ b)) cmd).
Proof.
  intros H0 H1 Ha Hb Hlow Hurl. unfold trackDownModule. rewrite Hurl.
  rewrite truthy_app_slash. cbn [negb append].
  rewrite (split_char_cons "/" s0 _ H0), (split_char_cons "/" seg1 _ H1),
    (split_char_cons "/" a _ Ha), (split_char_cons "/" b _ Hb).
  cbn [deref JS.at_ nth_error bind JS.toStr]. rewrite Hlow. reflexivity.
Qed.

(** X13: for a URL path [s0/seg1/x/y/a/b/t] whose segment 1 is
    [docs], in any case, the module is [a/b], segments 4 and 5. *)
Lemma trackDownModule_docs (s0 seg1 x y a b t : string) (cmd : BmxCommand) :
  JS.includes "/" s0 = false -> JS.includes "/" seg1 = false ->
  JS.includes "/" x = false -> JS.includes "/" y = false ->
  JS.includes "/" a = false -> JS.includes "/" b = false ->
  JS.toLowerCase seg1 = "docs" ->
  url cmd = Some (s0 ++ "/" ++ seg1 ++ "/" ++ x ++ "/" ++ y ++ "/" ++
                  a ++ "/" ++ b ++ "/" ++ t) ->
  trackDownModule cmd = Return (set_module (Some (a ++ "/" ++ b)) cmd).
Proof.
  intros H0 H1 Hx Hy Ha Hb Hlow Hurl. unfold trackDownModule. rewrite Hurl.
  rewrite truthy_app_slash. cbn [negb append].
  rewrite (split_char_cons "/" s0 _ H0), (split_char_cons "/" seg1 _ H1),
    (split_char_cons "/" x _ Hx), (split_char_cons "/" y _ Hy),
    (split_char_cons "/" a _ Ha), (split_char_cons "/" b _ Hb).
  cbn [deref JS.at_ nth_error bind JS.toStr]. rewrite Hlow. reflexivity.
Qed.

(** X14: for a [mod] path that ends after segment 2, the missing
    segment 3 is spelled out: the module is [a/undefined]. *)
Lemma trackDownModule_short (s0 seg1 a : string) (cmd : BmxCommand) :
  JS.includes "/" s0 = false -> JS.includes "/" seg1 = false ->
  JS.includes "/" a = false ->
  JS.toLowerCase seg1 = "mod" ->
  url cmd = Some (s0 ++ "/" ++ seg1 ++ "/" ++ a) ->
  trackDownModule cmd = Return (set_module (Some (a ++ "/undefined")) cmd).
Proof.
  intros H0 H1 Ha Hlow Hurl. unfold trackDownModule. rewrite Hurl.
  rewrite truthy_app_slash. cbn [negb append].
  rewrite (split_char_cons "/" s0 _ H0), (split_char_cons "/" seg1 _ H1),
    (split_char_last "/" a Ha).
  cbn [deref JS.at_ nth_error bind JS.toStr]. rewrite Hlow. reflexivity.
Qed.

End ModuleFacts.

(** ** What each step of the line parser writes *)

Section ShapeFacts.

Lemma figureOutUrl_shape (r : string) (c : BmxCommand) :
  figureOutUrl r c = set_url (Some r) c \/
  exists u loc,
    figureOutUrl r c = set_url (Some u) (set_urlLocation (Some loc) c).
Proof.
  unfold figureOutUrl. destruct (JS.includes "#" r); [right | now left].
  eauto.
Qed.

Lemma trackDownModule_shape (c c' : BmxCommand) :
  trackDownModule c = Return c' ->
  c' = c \/ exists m, c' = set_module (Some m) c.
Proof.
  unfold trackDownModule. destruct (url c) as [u|]; [|intros [= <-]; now left].
  destruct (negb (JS.truthy u)); [intros [= <-]; now left|].
  destruct (deref (JS.split "/" u) 1) as [seg|e]; cbn [bind];
    [|intros H; discriminate H].
  destruct (JS.toLowerCase seg =? "docs"); [intros [= <-]; eauto|].
  destruct (JS.toLowerCase seg =? "mod"); intros [= <-]; eauto.
Qed.

Lemma takeDescription_shape (l l' : string) (c c' : BmxCommand) :
  takeDescription l c = Return (l', c') ->
  c' = c \/ exists d, c' = set_description (Some d) c.
Proof.
  unfold takeDescription. destruct (JS.includes " : " l);
    [|intros [= _ <-]; now left].
  destruct (deref (JS.split " : " l) 1); cbn [bind];
    [|intros H; discriminate H].
  intros [= _ <-]. eauto.
Qed.

Lemma takeReturns_shape (l : string) (c : BmxCommand) :
  snd (takeReturns l c) = c \/
  exists r, snd (takeReturns l c) = set_returns (Some r) c.
Proof.
  unfold takeReturns. destruct (JS.includes ":" l); [right | now left].
  eexists. reflexivity.
Qed.

Lemma makeMarkdown_shape (c : BmxCommand) :
  (truthyStr (description c) || truthyStr (paramsPretty c) = false /\
   makeMarkdown c = c) \/
  (truthyStr (description c) || truthyStr (paramsPretty c) = true /\
   exists full short,
     makeMarkdown c
       = set_markdownString (Some full)
           (set_shortMarkdownString (Some short) c)).
Proof.
  unfold makeMarkdown.
  destruct (truthyStr (description c) || truthyStr (paramsPretty c));
    [right | now left].
  split; [reflexivity|].
  destruct (description c) as [d|]; [destruct (JS.truthy d)|];
    (destruct (module c) as [m|]; [destruct (JS.truthy m)|]); eauto.
Qed.

Lemma makeInsertText_shape (c : BmxCommand) :
  (isFunction c = false /\ makeInsertText c = c) \/
  (isFunction c = true /\
   exists text, makeInsertText c = set_insertText (Some text) c).
Proof.
  unfold makeInsertText. destruct (isFunction c); [right | now left].
  eauto.
Qed.

Lemma makeMarkdown_core (c : BmxCommand) :
  coreFields (makeMarkdown c) = coreFields c.
Proof.
  destruct (makeMarkdown_shape c) as [[_ ->] | [_ (f & s & ->)]]; reflexivity.
Qed.

Lemma makeInsertText_core (c : BmxCommand) :
  coreFields (makeInsertText c) = coreFields c.
Proof.
  destruct (makeInsertText_shape c) as [[_ ->] | [_ (t & ->)]]; reflexivity.
Qed.

Lemma parseCommandParams_other (c : BmxCommand) :
  otherFields (parseCommandParams c) = otherFields c.
Proof.
  unfold parseCommandParams. destruct (paramsRaw c) as [raw|]; [|reflexivity].
  destruct (negb (JS.truthy raw)); [reflexivity|].
  destruct (negb (JS.truthy (JS.trim raw))); reflexivity.
Qed.

(** What the sub-parser stores depends on the raw text only, on a
    command that has no parameters yet. *)
Lemma parseCommandParams_fresh (raw : string) (c : BmxCommand) :
  params c = None -> paramsPretty c = None ->
  params (parseCommandParams (set_paramsRaw (Some raw) c))
    = params (parseCommandParams (set_paramsRaw (Some raw) newCommand)) /\
  paramsRaw (parseCommandParams (set_paramsRaw (Some raw) c))
    = paramsRaw (parseCommandParams (set_paramsRaw (Some raw) newCommand)) /\
  paramsPretty (parseCommandParams (set_paramsRaw (Some raw) c))
    = paramsPretty (parseCommandParams (set_paramsRaw (Some raw) newCommand)).
Proof.
  intros Hp Hq. unfold parseCommandParams. cbn [paramsRaw set_paramsRaw].
  destruct (negb (JS.truthy raw)); [cbn; auto|].
  destruct (negb (JS.truthy (JS.trim raw))); cbn; auto.
Qed.

(** The parameter fields before the function test. *)
Lemma paramFields_before (rightSide leftSide l2 : string)
    (cmd1 cmd2 : BmxCommand) :
  trackDownModule (figureOutUrl rightSide newCommand) = Return cmd1 ->
  takeDescription leftSide cmd1 = Return (l2, cmd2) ->
  paramFields cmd2 = (None, None, None, false).
Proof.
  intros Hm Hd. apply trackDownModule_paramFields in Hm.
  apply takeDescription_paramFields in Hd.
  rewrite figureOutUrl_paramFields in Hm. now rewrite Hd, Hm.
Qed.

End ShapeFacts.

(** ** What holds of every record *)

Section RecordFacts.

Lemma trimEnd_trimStart (t : string) :
  JS.trimEnd t = t -> JS.trimEnd (JS.trimStart t) = JS.trimStart t.
Proof.
  induction t as [|c t IH]; intros H; [reflexivity|].
  cbn [JS.trimStart]. destruct (JS.isWhiteSpace c) eqn:Hc; [|assumption].
  apply IH. cbn [JS.trimEnd] in H. rewrite Hc in H.
  destruct (JS.trimEnd t) as [|a x]; [discriminate H|].
  now injection H.
Qed.

(** Trimming a trimmed text changes nothing. *)
Lemma trim_idem (s : string) : JS.trim (JS.trim s) = JS.trim s.
Proof.
  unfold JS.trim. rewrite (trimEnd_trimStart _ (trimEnd_idem s)).
  apply trimStart_headOk, headOk_trimStart.
Qed.

Lemma parseCommandParams_pres (c : BmxCommand) :
  shortMarkdownString (parseCommandParams c) = shortMarkdownString c /\
  markdownString (parseCommandParams c) = markdownString c /\
  insertText (parseCommandParams c) = insertText c /\
  url (parseCommandParams c) = url c /\
  description (parseCommandParams c) = description c /\
  returns (parseCommandParams c) = returns c /\
  isFunction (parseCommandParams c) = isFunction c.
Proof.
  pose proof (parseCommandParams_other c) as H. unfold otherFields in H.
  injection H as H1 H2 H3 H4 H5 H6 H7 H8 H9 H10 H11. now repeat split.
Qed.

(** The command that reaches the function test: nothing is stored in it
    but what the URL, module and description steps write. *)
Lemma before_takeParams (rightSide leftSide l2 : string)
    (cmd1 cmd2 : BmxCommand) :
  trackDownModule (figureOutUrl rightSide newCommand) = Return cmd1 ->
  takeDescription leftSide cmd1 = Return (l2, cmd2) ->
  shortMarkdownString cmd2 = None /\ markdownString cmd2 = None /\
  insertText cmd2 = None /\ isSet (url cmd2) = true /\ returns cmd2 = None /\
  paramFields cmd2 = (None, None, None, false).
Proof.
  intros Hm Hd.
  apply trackDownModule_shape in Hm. apply takeDescription_shape in Hd.
  destruct (figureOutUrl_shape rightSide newCommand) as [E | (u & loc & E)];
    rewrite E in Hm; clear E;
    destruct Hm as [-> | (m & ->)]; destruct Hd as [-> | (d & ->)];
    now repeat split.
Qed.

(** The parameter fields after the function test. *)
Lemma after_takeParams (l : string) (cmd2 : BmxCommand) :
  paramFields cmd2 = (None, None, None, false) ->
  let c3 := snd (takeParams l cmd2) in
  isSet (paramsRaw c3) = isFunction c3 /\
  isSet (paramsPretty c3) = isSet (params c3) /\
  forall ps, params c3 = Some ps ->
    ps <> [] /\ paramsPretty c3 = Some (prettyLoop ps) /\
    isFunction c3 = true /\
    Forall (fun p => fieldsOk p = true) ps /\
    exists raw, paramsRaw c3 = Some raw /\ raw <> "" /\ JS.trim raw = raw.
Proof.
  intros H. unfold paramFields in H. injection H as Hp Hr Hq Hf.
  unfold takeParams. destruct (JS.includes "(" l).
  - destruct (cutParams l) as [raw l3]. cbn [snd].
    cbn [isFunction set_isFunction params paramsPretty paramsRaw].
    destruct (String.eqb_spec (JS.trim raw) "") as [Hblank|Hrun].
    + destruct (parseCommandParams_blank raw cmd2 Hp Hq)
        as [(Hr' & Hp' & Hq') | (r & Hr' & Hne)].
      * rewrite Hr', Hp', Hq'. split; [reflexivity|]. split; [reflexivity|].
        intros ps Habs. discriminate Habs.
      * exfalso. revert Hr' Hne. unfold parseCommandParams.
        cbn [paramsRaw set_paramsRaw].
        destruct (negb (JS.truthy raw)) eqn:Ht; cbn [paramsRaw set_paramsRaw].
        -- intros [= <-] Hne. apply Hne.
           destruct raw as [|a raw]; [reflexivity | discriminate Ht].
        -- rewrite Hblank. cbn. intros [= <-] Hne. now apply Hne.
    + destruct (parseCommandParams_run raw cmd2 Hrun) as [Hp' Hq'].
      rewrite Hp', Hq'.
      assert (Hraw' : paramsRaw (parseCommandParams (set_paramsRaw (Some raw) cmd2))
                      = Some (JS.trim raw)).
      { unfold parseCommandParams. cbn [paramsRaw set_paramsRaw].
        unfold JS.truthy.
        destruct (String.eqb_spec raw "") as [->|_]; [now contradiction Hrun|].
        destruct (String.eqb_spec (JS.trim raw) ""); [contradiction|].
        reflexivity. }
      rewrite Hraw'. split; [reflexivity|]. split; [reflexivity|].
      intros ps [= <-].
      destruct (scanned_trimmed raw Hrun) as (done & p & Hsc & Hdone & Hok & _).
      rewrite Hsc. split; [now destruct done|]. split; [reflexivity|].
      split; [reflexivity|]. split.
      * apply Forall_app. split.
        -- eapply Forall_impl; [|exact Hdone]. intros q Hs.
           now apply settled_parts in Hs.
        -- now constructor.
      * exists (JS.trim raw). split; [reflexivity|].
        split; [assumption | apply trim_idem].
  - cbn [snd]. rewrite Hp, Hr, Hq, Hf. split; [reflexivity|].
    split; [reflexivity|]. intros ps Habs. discriminate Habs.
Qed.

(** The other fields after the function test. *)
Lemma takeParams_pres (l : string) (cmd2 : BmxCommand) :
  let c3 := snd (takeParams l cmd2) in
  shortMarkdownString c3 = shortMarkdownString cmd2 /\
  markdownString c3 = markdownString cmd2 /\
  insertText c3 = insertText cmd2 /\
  url c3 = url cmd2 /\
  description c3 = description cmd2 /\
  returns c3 = returns cmd2.
Proof.
  unfold takeParams. destruct (JS.includes "(" l); [|now repeat split].
  destruct (cutParams l) as [raw l3]. cbn [snd].
  destruct (parseCommandParams_pres (set_paramsRaw (Some raw) cmd2))
    as (H1 & H2 & H3 & H4 & H5 & H6 & _).
  cbn [shortMarkdownString markdownString insertText url description returns
       set_isFunction]. now repeat split.
Qed.

(** How the fields of a record depend on each other. *)
Lemma record_fields (line : string) (c : BmxCommand) :
  parseLine line = Return c ->
  isSet (url c) = true /\
  isSet (paramsRaw c) = isFunction c /\
  isSet (insertText c) = isFunction c /\
  isSet (paramsPretty c) = isSet (params c) /\
  isSet (markdownString c)
    = truthyStr (description c) || truthyStr (paramsPretty c) /\
  isSet (shortMarkdownString c) = isSet (markdownString c) /\
  forall ps, params c = Some ps ->
    ps <> [] /\ paramsPretty c = Some (prettyLoop ps) /\
    isFunction c = true /\
    Forall (fun p => fieldsOk p = true) ps /\
    exists raw, paramsRaw c = Some raw /\ raw <> "" /\ JS.trim raw = raw.
Proof.
  intros H. apply parseLine_inv in H
    as (leftSide & rightSide & cmd1 & l2 & cmd2 & _ & _ & Hm & Hd & ->).
  destruct (before_takeParams _ _ _ _ _ Hm Hd)
    as (Hs & Hmd & Hi & Hu & Hret & Hpf).
  pose proof (after_takeParams l2 cmd2 Hpf) as Hafter.
  pose proof (takeParams_pres l2 cmd2) as Hpres.
  cbn zeta in Hafter, Hpres.
  destruct (takeParams l2 cmd2) as [l3 cmd3]. cbn [fst snd] in *.
  destruct Hpres as (Hs3 & Hmd3 & Hi3 & Hu3 & _ & _).
  rewrite Hs in Hs3. rewrite Hmd in Hmd3. rewrite Hi in Hi3.
  rewrite <- Hu3 in Hu. clear Hs Hmd Hi Hu3 Hret Hpf Hm Hd.
  destruct Hafter as (Hraw & Hpp & Hps).
  destruct (takeReturns_shape l3 cmd3) as [E | (r & E)];
    destruct (takeReturns l3 cmd3) as [l4 cmd4]; cbn [fst snd] in *; subst cmd4;
    match goal with
    | |- context [makeMarkdown ?x] =>
        destruct (makeMarkdown_shape x) as [[Hd E] | [Hd (full & short & E)]];
        rewrite E; clear E;
        match goal with
        | |- context [makeInsertText ?y] =>
            destruct (makeInsertText_shape y) as [[Hf E] | [Hf (text & E)]];
            rewrite E; clear E
        end
    end;
    cbn in *; rewrite ?Hs3, ?Hmd3, ?Hi3;
    (split; [assumption|]); (split; [assumption|]);
    (split; [now rewrite Hf|]); (split; [assumption|]);
    (split; [now rewrite Hd|]); (split; [reflexivity | exact Hps]).
Qed.

End RecordFacts.

(** ** A function line, from the text to the record *)

Section FunctionLine.

(** A URL field that starts with a slash passes the module step. *)
Lemma trackDownModule_slash (u : string) :
  prefix "/" u = true ->
  exists cmd1, trackDownModule (figureOutUrl u newCommand) = Return cmd1.
Proof.
  intros Hu.
  destruct (trackDownModule (figureOutUrl u newCommand)) as [cmd1|[]] eqn:Hm;
    [now exists cmd1|].
  exfalso. apply trackDownModule_throws in Hm as (u0 & Hurl & Hne & Hno).
  destruct u as [|c u']; [discriminate Hu|].
  rewrite prefix_char in Hu. apply Ascii.eqb_eq in Hu. subst c.
  destruct (JS.includes "#" (String "/" u')) eqn:Hhash.
  - apply includes_char_split in Hhash as (v & x & Hv & Hvno).
    rewrite Hv, (figureOutUrl_anchor v x _ Hvno) in Hurl.
    cbn [url set_url] in Hurl. injection Hurl as <-.
    destruct v as [|c v']; [now contradiction Hne|].
    cbn [append] in Hv. injection Hv as <- _.
    cbn [JS.includes] in Hno. rewrite prefix_char in Hno. discriminate Hno.
  - unfold figureOutUrl in Hurl. rewrite Hhash in Hurl.
    cbn [url set_url] in Hurl. injection Hurl as <-.
    cbn [JS.includes] in Hno. rewrite prefix_char in Hno. discriminate Hno.
Qed.

(** The description step on a signature with or without description. *)
Lemma takeDescription_signature (sig : string) (desc : option string)
    (cmd : BmxCommand) :
  match desc with
  | Some d => JS.indexOf " : " (sig ++ " : " ++ d) = JS.len sig /\
              JS.includes " : " d = false
  | None => JS.includes " : " sig = false
  end ->
  exists cmd2,
    takeDescription (sig ++ descText desc) cmd = Return (sig, cmd2) /\
    description cmd2 = match desc with
                       | Some d => Some d
                       | None => description cmd
                       end /\
    (cmd2 = cmd \/ exists d, cmd2 = set_description (Some d) cmd).
Proof.
  destruct desc as [d|]; cbn [descText].
  - intros [Hidx Hd]. exists (set_description (Some d) cmd).
    rewrite (takeDescription_at _ _ _ Hidx Hd). eauto.
  - intros Hno. exists cmd. rewrite sapp_nil_r. unfold takeDescription.
    rewrite Hno. auto.
Qed.

(** The return step on the head of a signature. *)
Lemma takeReturns_head (nm : string) (ret : option string) (cmd : BmxCommand) :
  JS.includes ":" nm = false ->
  exists cmd4,
    takeReturns (headOf nm ret) cmd = (nm, cmd4) /\
    returns cmd4 = match ret with Some r => Some r | None => returns cmd end /\
    coreFields (takeName nm cmd4)
      = coreFields (takeName nm (set_returns (returns cmd4) cmd)).
Proof.
  intros Hnm. destruct ret as [r|]; cbn [headOf].
  - exists (set_returns (Some r) cmd). now rewrite (takeReturns_app _ _ _ Hnm).
  - exists cmd. unfold takeReturns. rewrite Hnm. now destruct cmd.
Qed.

End FunctionLine.

(** ** More of the module, property by property *)

(** X15: a line [Name[:Return]( params )[ : description]|/url] is parsed
    into exactly these parts, the parameters being those of the text
    between the parentheses, provided that its name has no colon, its
    head has no opening parenthesis, its first [" : "] is the one in
    front of the description and the description holds no further
    [" : "] (without a description: the signature holds none), neither
    the text before the pipe nor the URL holds a pipe, and the URL starts
    with a slash. *)
Theorem function_line_parsed (nm raw u : string) (ret desc : option string) :
  JS.includes ":" nm = false ->
  JS.includes "(" (headOf nm ret) = false ->
  match desc with
  | Some d =>
      JS.indexOf " : " (signatureOf nm ret raw ++ " : " ++ d)
        = JS.len (signatureOf nm ret raw) /\
      JS.includes " : " d = false
  | None => JS.includes " : " (signatureOf nm ret raw) = false
  end ->
  JS.includes "|" (signatureOf nm ret raw ++ descText desc) = false ->
  JS.includes "|" u = false ->
  prefix "/" u = true ->
  exists c,
    parseLine ((signatureOf nm ret raw ++ descText desc) ++ "|" ++ u)
      = Return c /\
    realName c = nm /\ searchName c = JS.toLowerCase nm /\
    returns c = ret /\ description c = desc /\ isFunction c = true /\
    params c
      = params (parseCommandParams (set_paramsRaw (Some raw) newCommand)) /\
    paramsPretty c
      = paramsPretty (parseCommandParams (set_paramsRaw (Some raw) newCommand)).
Proof.
  intros Hnm Hhead Hdesc Hleft Hu Hslash.
  destruct (trackDownModule_slash u Hslash) as [cmd1 Hm].
  destruct (takeDescription_signature (signatureOf nm ret raw) desc cmd1 Hdesc)
    as (cmd2 & Hd & Hdesc2 & _).
  destruct (before_takeParams _ _ _ _ _ Hm Hd)
    as (_ & _ & _ & _ & Hret2 & Hpf).
  unfold paramFields in Hpf. injection Hpf as Hp2 _ Hq2 _.
  destruct (parseCommandParams_fresh raw cmd2 Hp2 Hq2) as (Hps & _ & Hpp).
  destruct (parseCommandParams_pres (set_paramsRaw (Some raw) cmd2))
    as (_ & _ & _ & _ & Hd3 & Hr3 & _).
  cbn [description returns set_paramsRaw] in Hd3, Hr3.
  set (cmd3 := set_isFunction true
                 (parseCommandParams (set_paramsRaw (Some raw) cmd2))).
  destruct (takeReturns_head nm ret cmd3 Hnm) as (cmd4 & Hr & Hret4 & Hcore).
  assert (Hparams : takeParams (signatureOf nm ret raw) cmd2
                    = (headOf nm ret, cmd3)).
  { unfold takeParams, signatureOf.
    change (headOf nm ret ++ "(" ++ raw ++ ")")
      with (headOf nm ret ++ String "(" (raw ++ ")")).
    rewrite includes_char_app.
    change (headOf nm ret ++ String "(" (raw ++ ")"))
      with (headOf nm ret ++ "(" ++ raw ++ String ")" "").
    now rewrite (cutParams_app _ raw ")" Hhead). }
  assert (Hc : coreFields (makeInsertText (makeMarkdown (takeName nm cmd4)))
               = coreFields (takeName nm (set_returns (returns cmd4) cmd3)))
    by (now rewrite makeInsertText_core, makeMarkdown_core).
  unfold coreFields in Hc.
  cbn [takeName set_realName set_searchName set_returns
       realName searchName description isFunction returns params
       paramsRaw paramsPretty url urlLocation module] in Hc.
  injection Hc as H1 H2 H3 H4 H5 H6 _ H8 _ _ _.
  exists (makeInsertText (makeMarkdown (takeName nm cmd4))). split.
  - unfold parseLine. cbn [append].
    rewrite (split_char_two "|" _ u Hleft Hu).
    cbn [deref JS.at_ nth_error length Nat.sub bind].
    rewrite Hm. cbn [bind]. rewrite Hd. cbn [bind fst snd].
    rewrite Hparams, Hr. reflexivity.
  - rewrite H1, H2, H3, H4, H5, H6, H8. subst cmd3.
    cbn [description returns params paramsPretty isFunction set_isFunction]
      in *.
    repeat split.
    + rewrite Hret4. destruct ret; [reflexivity|]. now rewrite Hr3.
    + rewrite Hd3, Hdesc2. destruct desc as [d|]; [reflexivity|].
      destruct (figureOutUrl_shape u newCommand) as [E | (x & loc & E)];
        rewrite E in Hm; apply trackDownModule_shape in Hm;
        destruct Hm as [-> | (m & ->)]; reflexivity.
    + exact Hps.
    + exact Hpp.
Qed.

(** X18: running the sub-parser on a command it has already been run on
    changes nothing: the stored raw text is trimmed already, and the
    parameters and their rendering are rebuilt from it as before. *)
Theorem parseCommandParams_idempotent (cmd : BmxCommand) :
  parseCommandParams (parseCommandParams cmd) = parseCommandParams cmd.
Proof.
  destruct cmd as [rn sn de sm md fn rt ps [raw|] pp ur ul mo it];
    [|reflexivity].
  unfold parseCommandParams at 2 3. cbn [paramsRaw].
  destruct (JS.truthy raw) eqn:Ht; cbn [negb].
  - destruct (JS.truthy (JS.trim raw)) eqn:Ht2; cbn [negb].
    + change (parseCommandParams
                (mkCommand rn sn de sm md fn rt
                   (Some (scanned (scanLoop (JS.trim raw) scanStart)))
                   (Some (JS.trim raw))
                   (Some (prettyLoop
                            (scanned (scanLoop (JS.trim raw) scanStart))))
                   ur ul mo it)
              = mkCommand rn sn de sm md fn rt
                  (Some (scanned (scanLoop (JS.trim raw) scanStart)))
                  (Some (JS.trim raw))
                  (Some (prettyLoop
                           (scanned (scanLoop (JS.trim raw) scanStart))))
                  ur ul mo it).
      unfold parseCommandParams. cbn [paramsRaw].
      rewrite trim_idem, Ht2. reflexivity.
    + change (parseCommandParams
                (mkCommand rn sn de sm md fn rt ps (Some (JS.trim raw)) pp
                           ur ul mo it)
              = mkCommand rn sn de sm md fn rt ps (Some (JS.trim raw)) pp
                          ur ul mo it).
      unfold parseCommandParams. cbn [paramsRaw]. now rewrite Ht2.
  - unfold parseCommandParams. cbn [paramsRaw]. now rewrite Ht.
Qed.

Section QuickHelpFacts.

(** Quick help for a command with a description is its description. *)
Lemma generateQuickHelp_described (commands : list BmxCommand) (i : nat)
    (a : UiAction) :
  (forall c, In c commands -> truthyStr (description c) = true) ->
  In a (generateQuickHelp (nth_error commands i)) ->
  exists c m,
    In c commands /\ description c = Some m /\ m <> "" /\
    a = showInformationMessage m.
Proof.
  intros Hall Hin. destruct (nth_error commands i) as [c|] eqn:E;
    [|contradiction Hin].
  apply nth_error_In in E. pose proof (Hall c E) as Hd.
  cbn [generateQuickHelp] in Hin. rewrite Hd in Hin.
  destruct Hin as [<-|[]].
  destruct (description c) as [m|] eqn:Hdc; [|discriminate Hd].
  exists c, m. split; [assumption|]. split; [assumption|].
  split; [|reflexivity]. intros ->. discriminate Hd.
Qed.

(** The [then] callback ends with the quick help of one match, or with
    nothing. *)
Lemma pickLoop_result (pickOptions : list QuickPickItem) (index : nat)
    (selection : option nat) (commands : list BmxCommand) :
  pickLoop pickOptions index selection commands = [] \/
  exists i, pickLoop pickOptions index selection commands
            = generateQuickHelp (nth_error commands i).
Proof.
  revert index. induction pickOptions as [|item rest IH]; intros index.
  - now left.
  - cbn [pickLoop].
    destruct (match selection with
              | Some i => (i =? index)%nat
              | None => false
              end); [right; now exists index | apply IH].
Qed.

(** The callback when the item at position [i] was picked. *)
Lemma pickLoop_at (pickOptions : list QuickPickItem) (index i : nat)
    (commands : list BmxCommand) :
  (index <= i)%nat -> (i < index + length pickOptions)%nat ->
  pickLoop pickOptions index (Some i) commands
    = generateQuickHelp (nth_error commands i).
Proof.
  revert index. induction pickOptions as [|item rest IH]; intros index Hle Hlt.
  - cbn [length] in Hlt. lia.
  - cbn [pickLoop]. destruct (Nat.eqb_spec i index) as [->|Hne];
      [reflexivity|].
    apply IH; [lia | cbn [length] in Hlt; lia].
Qed.

Lemma pickLoop_dismissed (pickOptions : list QuickPickItem) (index : nat)
    (commands : list BmxCommand) :
  pickLoop pickOptions index None commands = [].
Proof.
  revert index. induction pickOptions as [|item rest IH]; intros index;
    [reflexivity | apply IH].
Qed.

Lemma pickOptionsOf_length (commands : list BmxCommand) :
  length (pickOptionsOf commands) = length commands.
Proof.
  induction commands as [|c commands IH]; [reflexivity|].
  cbn [pickOptionsOf length]. now rewrite IH.
Qed.

(** The matches that quick help asks for all have a description. *)
Lemma described_matches (h : Host) (word : string) (ix : Index)
    (c : BmxCommand) :
  In c (fst (getCommand h (Some word)
               (Some (mkFilter (Some true) None None)) ix)) ->
  truthyStr (description c) = true.
Proof.
  rewrite getCommand_result.
  destruct (_commandsList (snd (cacheCommandsIfEmpty h false ix))) as [cl|];
    [|intros []].
  intros Hin. apply filter_In in Hin as [_ Hsel].
  unfold selects in Hsel. apply andb_true_iff in Hsel as [_ Hp].
  rewrite passes_flags in Hp. cbn [hasDescription flag implb] in Hp.
  now apply andb_true_iff in Hp as [Hp _]; apply andb_true_iff in Hp as [Hp _].
Qed.

(** The calls of [showQuickHelp], by the number of matches. *)
Lemma showQuickHelp_actions (h : Host) (word : string)
    (selection : option nat) (ix : Index) :
  let ix1 := snd (cacheCommandsIfEmpty h true ix) in
  let commands :=
    fst (getCommand h (Some word) (Some (mkFilter (Some true) None None)) ix1) in
  fst (showQuickHelp h word selection ix) =
  if negb (isSet (_commandsList ix1)) then []
  else if (1 <? length commands)%nat then
    (showQuickPick (pickOptionsOf commands) ::
     pickLoop (pickOptionsOf commands) 0 selection commands)%list
  else if (length commands =? 1)%nat then
    generateQuickHelp (nth_error commands 0)
  else
    [showErrorMessage
       ("No help available for " ++ String dquote word ++ String dquote "")].
Proof.
  cbn zeta. unfold showQuickHelp.
  destruct (negb (isSet (_commandsList (snd (cacheCommandsIfEmpty h true ix)))));
    [reflexivity|].
  destruct (getCommand h (Some word) _ _) as [commands ix']. cbn [fst].
  destruct (1 <? length commands)%nat; [reflexivity|].
  now destruct (length commands =? 1)%nat.
Qed.

End QuickHelpFacts.

Section ProgressFacts.

(** What [reportProgress] passes on: the trimmed lines of more than one
    character. *)
Lemma reportLoop_In (str : list string) (m : string) :
  In m (reportLoop str) <->
  exists line, In line str /\ m = JS.trim line /\ (1 < JS.len m)%Z.
Proof.
  induction str as [|s str IH]; cbn [reportLoop].
  - split; [intros [] | intros (line & [] & _)].
  - destruct (1 <? JS.len (JS.trim s))%Z eqn:E.
    + cbn [In]. rewrite IH. apply Z.ltb_lt in E. split.
      * intros [<- | (line & Hin & Hm & Hlen)].
        -- exists s. split; [now left|]. split; [reflexivity | assumption].
        -- exists line. split; [now right|]. split; assumption.
      * intros (line & [<- | Hin] & Hm & Hlen); [left; now symmetry|].
        right. now exists line.
    + rewrite IH. apply Z.ltb_ge in E. split.
      * intros (line & Hin & Hm & Hlen). exists line.
        split; [now right|]. split; assumption.
      * intros (line & [<- | Hin] & Hm & Hlen).
        -- subst m. lia.
        -- now exists line.
Qed.

End ProgressFacts.

(** X1: an index that holds at least one record is left as it is:
    [cacheCommandsIfEmpty] answers [true] without reading the file, and
    neither [getCommand] nor [showQuickHelp] changes it. *)
Theorem populated_index_is_kept (h : Host) (showPopup : bool)
    (command : option string) (filter : option GetCommandFilter)
    (word : string) (selection : option nat) (ix : Index)
    (c : BmxCommand) (l : list BmxCommand) :
  _commandsList ix = Some (c :: l) ->
  cacheCommandsIfEmpty h showPopup ix = (true, ix) /\
  snd (getCommand h command filter ix) = ix /\
  snd (showQuickHelp h word selection ix) = ix.
Proof.
  intros H.
  assert (Hne : unsetOrEmpty (_commandsList ix) = false) by now rewrite H.
  split; [now apply cacheCommandsIfEmpty_kept|].
  split; [rewrite getCommand_index; now rewrite cacheCommandsIfEmpty_kept|].
  destruct (showQuickHelp_index h word selection ix) as [E|E]; rewrite E;
    rewrite (cacheCommandsIfEmpty_kept h true ix Hne); cbn [snd];
    rewrite ?(cacheCommandsIfEmpty_kept h false ix Hne); reflexivity.
Qed.

Lemma populated_index_is_kept_witness :
  _commandsList (mkIndex (Some [newCommand]) 0) = Some [newCommand] /\
  cacheCommandsIfEmpty (hostWith sinLine) true (mkIndex (Some [newCommand]) 0)
    = (true, mkIndex (Some [newCommand]) 0) /\
  snd (getCommand (hostWith sinLine) (Some "sin") None
         (mkIndex (Some [newCommand]) 0)) = mkIndex (Some [newCommand]) 0 /\
  snd (showQuickHelp (hostWith sinLine) "sin" None
         (mkIndex (Some [newCommand]) 0)) = mkIndex (Some [newCommand]) 0.
Proof.
  split; [reflexivity|].
  apply (populated_index_is_kept (hostWith sinLine) true (Some "sin") None
           "sin" None (mkIndex (Some [newCommand]) 0) newCommand []).
  reflexivity.
Defined.

(** X2: when the catalog cannot be read, [cacheCommands] leaves
    [_commandsList] as it was; on a new index the answer is [false], a
    search finds nothing and quick help shows no message, the only trace
    being the warning that [showPopup] and [BlitzMaxPath] allow. *)
Theorem unreadable_catalog_is_silent (h : Host) (showPopup : bool)
    (command : option string) (filter : option GetCommandFilter)
    (word : string) (selection : option nat) :
  readFileSync h = None ->
  cacheCommandsIfEmpty h showPopup initialIndex
    = (false,
       mkIndex None (if truthyStr (BlitzMaxPath h) && showPopup then 1 else 0)) /\
  fst (getCommand h command filter initialIndex) = [] /\
  fst (showQuickHelp h word selection initialIndex) = [] /\
  forall ix, _commandsList (snd (cacheCommands h showPopup ix))
             = _commandsList ix.
Proof.
  intros H. repeat split.
  - unfold cacheCommandsIfEmpty, cacheCommands. cbn. rewrite H. cbn.
    now destruct (truthyStr (BlitzMaxPath h) && showPopup).
  - unfold getCommand, cacheCommandsIfEmpty, cacheCommands. cbn.
    now rewrite H.
  - unfold showQuickHelp, cacheCommandsIfEmpty, cacheCommands. cbn.
    now rewrite H.
  - intros ix. unfold cacheCommands. now rewrite H.
Qed.

Lemma unreadable_catalog_is_silent_witness :
  readFileSync (mkHost LF None (Some "/opt/BlitzMax")) = None /\
  cacheCommandsIfEmpty (mkHost LF None (Some "/opt/BlitzMax")) true initialIndex
    = (false, mkIndex None 1) /\
  fst (getCommand (mkHost LF None (Some "/opt/BlitzMax")) (Some "sin") None
         initialIndex) = [] /\
  fst (showQuickHelp (mkHost LF None (Some "/opt/BlitzMax")) "sin" None
         initialIndex) = [] /\
  forall ix, _commandsList (snd (cacheCommands
                                   (mkHost LF None (Some "/opt/BlitzMax"))
                                   true ix))
             = _commandsList ix.
Proof.
  split; [reflexivity|].
  apply (unreadable_catalog_is_silent (mkHost LF None (Some "/opt/BlitzMax"))
           true (Some "sin") None "sin" None).
  reflexivity.
Defined.

(** X3: a search never asks whether to rebuild the documentation: the
    number of warnings shown is the same after [getCommand]; quick help
    shows the warning at most once. *)
Theorem getCommand_never_warns (h : Host) (command : option string)
    (filter : option GetCommandFilter) (word : string)
    (selection : option nat) (ix : Index) :
  warnings (snd (getCommand h command filter ix)) = warnings ix /\
  (warnings ix <= warnings (snd (showQuickHelp h word selection ix)))%nat /\
  (warnings (snd (showQuickHelp h word selection ix)) <= S (warnings ix))%nat.
Proof.
  split; [rewrite getCommand_index; apply cacheCommandsIfEmpty_warnings|].
  assert (Hb : (warnings ix <= warnings (snd (cacheCommandsIfEmpty h true ix))
                <= S (warnings ix))%nat).
  { unfold cacheCommandsIfEmpty. cbn [snd].
    destruct (unsetOrEmpty (_commandsList ix)); [|lia].
    unfold cacheCommands. cbn [snd warnings].
    destruct (truthyStr (BlitzMaxPath h) && true); [|lia].
    match goal with |- context [unsetOrEmpty ?x] => destruct (unsetOrEmpty x) end;
      lia. }
  destruct (showQuickHelp_index h word selection ix) as [E|E]; rewrite E;
    rewrite ?cacheCommandsIfEmpty_warnings; exact Hb.
Qed.

(** X4: a search returns the records of the list that have the name,
    compared in lower case, and pass the filter, in the order of the
    list and each as often as it is listed; without a name, or with the
    empty name, every record that passes the filter. *)
Theorem getCommand_returns_matches_in_order (h : Host)
    (command : option string) (filter : option GetCommandFilter)
    (ix : Index) :
  fst (getCommand h command filter ix) =
  match _commandsList (snd (cacheCommandsIfEmpty h false ix)) with
  | None => []
  | Some cl =>
      List.filter
        (fun cmd =>
           (negb (truthyStr command) ||
            (searchName cmd =? JS.toLowerCase (JS.toStr command))) &&
           passes filter cmd) cl
  end.
Proof. apply getCommand_result. Qed.

(** X5: the case of the name asked for does not matter: two names with
    the same lower-case spelling find the same records. *)
Theorem getCommand_ignores_case (h : Host) (n1 n2 : string)
    (filter : option GetCommandFilter) (ix : Index) :
  JS.toLowerCase n1 = JS.toLowerCase n2 ->
  fst (getCommand h (Some n1) filter ix)
    = fst (getCommand h (Some n2) filter ix).
Proof.
  intros H. rewrite !getCommand_result.
  destruct (_commandsList (snd (cacheCommandsIfEmpty h false ix))) as [cl|];
    [|reflexivity].
  apply filter_ext. intros c. unfold selects. cbn [truthyStr JS.toStr].
  rewrite H. rewrite <- (truthy_toLowerCase n1), <- (truthy_toLowerCase n2).
  now rewrite H.
Qed.

Lemma getCommand_ignores_case_witness :
  JS.toLowerCase "Sin#" = JS.toLowerCase "SIN#" /\
  fst (getCommand (hostWith sinLine) (Some "Sin#") None initialIndex)
    = fst (getCommand (hostWith sinLine) (Some "SIN#") None initialIndex).
Proof.
  split; [reflexivity|].
  apply (getCommand_ignores_case (hostWith sinLine) "Sin#" "SIN#" None
           initialIndex).
  reflexivity.
Defined.

(** X6: every record with a non-empty name that a load puts into the
    list is found again by a search for its [realName]. *)
Theorem loaded_record_found_by_name (h : Host) (showPopup : bool)
    (ix : Index) (data : string) (cl : list BmxCommand) (c : BmxCommand) :
  readFileSync h = Some data ->
  _commandsList (snd (cacheCommands h showPopup ix)) = Some cl ->
  In c cl ->
  JS.truthy (realName c) = true ->
  In c (fst (getCommand h (Some (realName c)) None
               (snd (cacheCommands h showPopup ix)))).
Proof.
  intros Hread Hcl Hin Hname.
  assert (Hnames : Forall (fun c => searchName c = JS.toLowerCase (realName c)) cl).
  { apply (addCommand_names h data). revert Hcl. unfold cacheCommands.
    now rewrite Hread. }
  rewrite getCommand_result, cacheCommandsIfEmpty_kept.
  - cbn [snd]. rewrite Hcl. apply In_filter_selects; [assumption|].
    unfold selects. cbn [truthyStr JS.toStr passes]. rewrite Hname.
    rewrite Forall_forall in Hnames. rewrite (Hnames c Hin).
    now rewrite String.eqb_refl.
  - rewrite Hcl. now destruct cl.
Qed.

Lemma loaded_record_found_by_name_witness :
  readFileSync (hostWith sinLine) = Some sinLine /\
  _commandsList (snd (cacheCommands (hostWith sinLine) false initialIndex))
    = Some [sinRecord] /\
  In sinRecord [sinRecord] /\
  JS.truthy (realName sinRecord) = true /\
  In sinRecord
     (fst (getCommand (hostWith sinLine) (Some (realName sinRecord)) None
             (snd (cacheCommands (hostWith sinLine) false initialIndex)))).
Proof.
  split; [reflexivity|]. split; [run|]. split; [now left|].
  split; [run|].
  apply (loaded_record_found_by_name (hostWith sinLine) false initialIndex
           sinLine [sinRecord] sinRecord);
    [reflexivity | run | now left | run].
Defined.

(** X7: when no line of the data throws, [addCommand] ends normally and
    has appended exactly one record for every non-empty line, in the
    order of the lines, each the record of its line. *)
Theorem batch_one_record_per_line (h : Host) (data : string) :
  Forall (fun line => parseLine line <> Throw TypeError)
         (JS.split (EOL h) data) ->
  exists cmds,
    addCommand h data (Some []) = (Some cmds, Return tt) /\
    Forall2 (fun line c => parseLine line = Return c)
            (List.filter JS.truthy (JS.split (EOL h) data)) cmds.
Proof.
  intros H. destruct (forEachLine_all _ [] H) as (cmds & Hrun & Hrec).
  exists cmds. split; [exact Hrun | exact Hrec].
Qed.

Lemma batch_one_record_per_line_witness :
  Forall (fun line => parseLine line <> Throw TypeError)
         (JS.split (EOL (hostWith ("Abs|/mod/a/b/c" ++ LF ++ LF ++ sinLine)))
                   ("Abs|/mod/a/b/c" ++ LF ++ LF ++ sinLine)) /\
  exists cmds,
    addCommand (hostWith ("Abs|/mod/a/b/c" ++ LF ++ LF ++ sinLine))
               ("Abs|/mod/a/b/c" ++ LF ++ LF ++ sinLine) (Some [])
      = (Some cmds, Return tt) /\
    Forall2 (fun line c => parseLine line = Return c)
            (List.filter JS.truthy
               (JS.split (EOL (hostWith ("Abs|/mod/a/b/c" ++ LF ++ LF ++ sinLine)))
                         ("Abs|/mod/a/b/c" ++ LF ++ LF ++ sinLine))) cmds.
Proof.
  assert (H : Forall (fun line => parseLine line <> Throw TypeError)
                (JS.split (EOL (hostWith ("Abs|/mod/a/b/c" ++ LF ++ LF ++ sinLine)))
                          ("Abs|/mod/a/b/c" ++ LF ++ LF ++ sinLine))).
  { vm_compute JS.split.
    repeat constructor; intros E; vm_compute in E; discriminate E. }
  split; [exact H|].
  exact (batch_one_record_per_line
           (hostWith ("Abs|/mod/a/b/c" ++ LF ++ LF ++ sinLine))
           ("Abs|/mod/a/b/c" ++ LF ++ LF ++ sinLine) H).
Defined.

(** X8: when a line throws, the records of the lines before it stay in
    the list, the lines after it are not read, and [cacheCommands] keeps
    that list: the error is swallowed. *)
Theorem batch_stops_at_throwing_line (h : Host) (showPopup : bool)
    (ix : Index) (data bad : string) (good rest : list string) :
  readFileSync h = Some data ->
  JS.split (EOL h) data = (good ++ bad :: rest)%list ->
  Forall (fun line => parseLine line <> Throw TypeError) good ->
  parseLine bad = Throw TypeError ->
  exists cmds,
    addCommand h data (Some []) = (Some cmds, Throw TypeError) /\
    Forall2 (fun line c => parseLine line = Return c)
            (List.filter JS.truthy good) cmds /\
    _commandsList (snd (cacheCommands h showPopup ix)) = Some cmds.
Proof.
  intros Hread Hsplit Hgood Hbad.
  destruct (forEachLine_stop good rest bad [] Hgood Hbad)
    as (cmds & Hrun & Hrec).
  exists cmds. unfold cacheCommands, addCommand. rewrite Hread.
  unfold addCommand. rewrite Hsplit, Hrun. auto.
Qed.

Lemma batch_stops_at_throwing_line_witness :
  readFileSync (hostWith (sinLine ++ LF ++ slashlessCatalog))
    = Some (sinLine ++ LF ++ slashlessCatalog) /\
  JS.split (EOL (hostWith (sinLine ++ LF ++ slashlessCatalog)))
           (sinLine ++ LF ++ slashlessCatalog)
    = ([sinLine] ++ "Abs|index.html" ::
       ["ACos:Double( x:Double ) : Inverse Cosine of x|/docs/html/Modules/Math/Math/index.html#ACos"])%list /\
  Forall (fun line => parseLine line <> Throw TypeError) [sinLine] /\
  parseLine "Abs|index.html" = Throw TypeError /\
  exists cmds,
    addCommand (hostWith (sinLine ++ LF ++ slashlessCatalog))
               (sinLine ++ LF ++ slashlessCatalog) (Some [])
      = (Some cmds, Throw TypeError) /\
    Forall2 (fun line c => parseLine line = Return c)
            (List.filter JS.truthy [sinLine]) cmds /\
    _commandsList (snd (cacheCommands
                          (hostWith (sinLine ++ LF ++ slashlessCatalog))
                          false initialIndex)) = Some cmds.
Proof.
  assert (Hgood : Forall (fun line => parseLine line <> Throw TypeError)
                         [sinLine]).
  { repeat constructor; intros E; vm_compute in E; discriminate E. }
  split; [reflexivity|]. split; [run|]. split; [exact Hgood|].
  split; [run|].
  apply (batch_stops_at_throwing_line
           (hostWith (sinLine ++ LF ++ slashlessCatalog)) false initialIndex
           (sinLine ++ LF ++ slashlessCatalog) "Abs|index.html" [sinLine]
           ["ACos:Double( x:Double ) : Inverse Cosine of x|/docs/html/Modules/Math/Math/index.html#ACos"]);
    [reflexivity | run | exact Hgood | run].
Defined.

(** X9: the last field is cut at its first [#]: the URL has no [#], the
    anchor, when there is one, starts with [#], and the two put together
    are the field again. *)
Theorem url_and_anchor_partition (rightSide : string) :
  exists u,
    url (figureOutUrl rightSide newCommand) = Some u /\
    JS.includes "#" u = false /\
    u ++ match urlLocation (figureOutUrl rightSide newCommand) with
         | Some loc => loc
         | None => ""
         end = rightSide /\
    match urlLocation (figureOutUrl rightSide newCommand) with
    | Some loc => prefix "#" loc = true /\ JS.includes "#" rightSide = true
    | None => JS.includes "#" rightSide = false
    end.
Proof.
  destruct (JS.includes "#" rightSide) eqn:H.
  - apply includes_char_split in H as (u & x & -> & Hu).
    rewrite (figureOutUrl_anchor u x _ Hu). exists u.
    cbn [url urlLocation set_url set_urlLocation].
    repeat split; try assumption. now rewrite prefix_char.
  - unfold figureOutUrl. rewrite H. exists rightSide.
    cbn [url urlLocation set_url newCommand].
    repeat split; try assumption. apply sapp_nil_r.
Qed.

(** X10: the return type is everything after the first colon of what
    is left of the left side, and the name is what precedes that colon;
    without a colon nothing is cut and no return type is stored. *)
Theorem return_type_after_first_colon (nm r : string) (cmd : BmxCommand) :
  JS.includes ":" nm = false ->
  takeReturns (nm ++ ":" ++ r) cmd = (nm, set_returns (Some r) cmd) /\
  takeReturns nm cmd = (nm, cmd).
Proof.
  intros H. split; [now apply takeReturns_app|].
  unfold takeReturns. now rewrite H.
Qed.

Lemma return_type_after_first_colon_witness :
  JS.includes ":" "GetList" = false /\
  takeReturns ("GetList" ++ ":" ++ "TList:Object") newCommand
    = ("GetList", set_returns (Some "TList:Object") newCommand) /\
  takeReturns "GetList" newCommand = ("GetList", newCommand).
Proof.
  split; [reflexivity|].
  apply (return_type_after_first_colon "GetList" "TList:Object" newCommand).
  reflexivity.
Defined.

(** X11: when the first [" : "] of the left side is followed by a text
    without another one, that text is the description and the left side
    is cut back to what precedes the separator. *)
Theorem description_after_first_separator (sig d : string)
    (cmd : BmxCommand) :
  JS.indexOf " : " (sig ++ " : " ++ d) = JS.len sig ->
  JS.includes " : " d = false ->
  takeDescription (sig ++ " : " ++ d) cmd
    = Return (sig, set_description (Some d) cmd).
Proof. apply takeDescription_at. Qed.

Lemma description_after_first_separator_witness :
  JS.indexOf " : " ("ACos:Double( x:Double )" ++ " : " ++ "Inverse Cosine of x")
    = JS.len "ACos:Double( x:Double )" /\
  JS.includes " : " "Inverse Cosine of x" = false /\
  takeDescription
    ("ACos:Double( x:Double )" ++ " : " ++ "Inverse Cosine of x") newCommand
    = Return ("ACos:Double( x:Double )",
              set_description (Some "Inverse Cosine of x") newCommand).
Proof.
  split; [run|]. split; [run|].
  apply (description_after_first_separator "ACos:Double( x:Double )"
           "Inverse Cosine of x" newCommand); run.
Defined.

(** A second separator ends the description, and the left side is cut
    by the length of that shorter description. *)
Example description_with_second_separator :
  takeDescription "Foo : bar : baz" newCommand
    = Return ("Foo : bar", set_description (Some "bar") newCommand).
Proof. run. Qed.

Lemma trackDownModule_mod_witness :
  JS.includes "/" "" = false /\ JS.includes "/" "MOD" = false /\
  JS.includes "/" "brl.mod" = false /\ JS.includes "/" "math.mod" = false /\
  JS.toLowerCase "MOD" = "mod" /\
  url (set_url (Some ("" ++ "/" ++ "MOD" ++ "/" ++ "brl.mod" ++ "/" ++
                      "math.mod" ++ "/" ++ "doc/commands.html")) newCommand)
    = Some ("" ++ "/" ++ "MOD" ++ "/" ++ "brl.mod" ++ "/" ++ "math.mod" ++
            "/" ++ "doc/commands.html") /\
  trackDownModule
    (set_url (Some ("" ++ "/" ++ "MOD" ++ "/" ++ "brl.mod" ++ "/" ++
                    "math.mod" ++ "/" ++ "doc/commands.html")) newCommand)
    = Return (set_module (Some ("brl.mod" ++ "/" ++ "math.mod"))
                (set_url (Some ("" ++ "/" ++ "MOD" ++ "/" ++ "brl.mod" ++ "/" ++
                                "math.mod" ++ "/" ++ "doc/commands.html"))
                         newCommand)).
Proof.
  do 6 (split; [reflexivity|]).
  apply (trackDownModule_mod "" "MOD" "brl.mod" "math.mod" "doc/commands.html");
    reflexivity.
Defined.

Lemma trackDownModule_docs_witness :
  JS.includes "/" "" = false /\ JS.includes "/" "docs" = false /\
  JS.includes "/" "html" = false /\ JS.includes "/" "Modules" = false /\
  JS.includes "/" "Math" = false /\ JS.includes "/" "Math" = false /\
  JS.toLowerCase "docs" = "docs" /\
  url (set_url (Some ("" ++ "/" ++ "docs" ++ "/" ++ "html" ++ "/" ++
                      "Modules" ++ "/" ++ "Math" ++ "/" ++ "Math" ++ "/" ++
                      "index.html")) newCommand)
    = Some ("" ++ "/" ++ "docs" ++ "/" ++ "html" ++ "/" ++ "Modules" ++ "/" ++
            "Math" ++ "/" ++ "Math" ++ "/" ++ "index.html") /\
  trackDownModule
    (set_url (Some ("" ++ "/" ++ "docs" ++ "/" ++ "html" ++ "/" ++
                    "Modules" ++ "/" ++ "Math" ++ "/" ++ "Math" ++ "/" ++
                    "index.html")) newCommand)
    = Return (set_module (Some ("Math" ++ "/" ++ "Math"))
                (set_url (Some ("" ++ "/" ++ "docs" ++ "/" ++ "html" ++ "/" ++
                                "Modules" ++ "/" ++ "Math" ++ "/" ++ "Math" ++
                                "/" ++ "index.html")) newCommand)).
Proof.
  do 8 (split; [reflexivity|]).
  apply (trackDownModule_docs "" "docs" "html" "Modules" "Math" "Math"
           "index.html"); reflexivity.
Defined.

Lemma trackDownModule_short_witness :
  JS.includes "/" "" = false /\ JS.includes "/" "mod" = false /\
  JS.includes "/" "brl.mod" = false /\
  JS.toLowerCase "mod" = "mod" /\
  url (set_url (Some ("" ++ "/" ++ "mod" ++ "/" ++ "brl.mod")) newCommand)
    = Some ("" ++ "/" ++ "mod" ++ "/" ++ "brl.mod") /\
  trackDownModule
    (set_url (Some ("" ++ "/" ++ "mod" ++ "/" ++ "brl.mod")) newCommand)
    = Return (set_module (Some ("brl.mod" ++ "/undefined"))
                (set_url (Some ("" ++ "/" ++ "mod" ++ "/" ++ "brl.mod"))
                         newCommand)).
Proof.
  do 5 (split; [reflexivity|]).
  apply (trackDownModule_short "" "mod" "brl.mod"); reflexivity.
Defined.

Lemma function_line_parsed_witness :
  JS.includes ":" "ACos" = false /\
  JS.includes "(" (headOf "ACos" (Some "Double")) = false /\
  (JS.indexOf " : " (signatureOf "ACos" (Some "Double") " x:Double " ++
                     " : " ++ "Inverse Cosine of x")
     = JS.len (signatureOf "ACos" (Some "Double") " x:Double ") /\
   JS.includes " : " "Inverse Cosine of x" = false) /\
  JS.includes "|" (signatureOf "ACos" (Some "Double") " x:Double " ++
                   descText (Some "Inverse Cosine of x")) = false /\
  JS.includes "|" "/docs/html/Modules/Math/Math/index.html#ACos" = false /\
  prefix "/" "/docs/html/Modules/Math/Math/index.html#ACos" = true /\
  exists c,
    parseLine ((signatureOf "ACos" (Some "Double") " x:Double " ++
                descText (Some "Inverse Cosine of x")) ++ "|" ++
               "/docs/html/Modules/Math/Math/index.html#ACos") = Return c /\
    realName c = "ACos" /\ searchName c = JS.toLowerCase "ACos" /\
    returns c = Some "Double" /\
    description c = Some "Inverse Cosine of x" /\ isFunction c = true /\
    params c
      = params (parseCommandParams
                  (set_paramsRaw (Some " x:Double ") newCommand)) /\
    paramsPretty c
      = paramsPretty (parseCommandParams
                        (set_paramsRaw (Some " x:Double ") newCommand)).
Proof.
  split; [run|]. split; [run|]. split; [split; run|]. split; [run|].
  split; [run|]. split; [run|].
  apply (function_line_parsed "ACos" " x:Double "
           "/docs/html/Modules/Math/Math/index.html#ACos"
           (Some "Double") (Some "Inverse Cosine of x"));
    try run. split; run.
Defined.

(** X16: in every record of a line the URL is set; the raw parameter
    text and the insertion text are set exactly in a function; the
    rendering is set exactly when the parameters are; and both markdown
    texts are set exactly when the description or the rendering is not
    empty. *)
Theorem record_fields_agree (line : string) (c : BmxCommand) :
  parseLine line = Return c ->
  isSet (url c) = true /\
  isSet (paramsRaw c) = isFunction c /\
  isSet (insertText c) = isFunction c /\
  isSet (paramsPretty c) = isSet (params c) /\
  isSet (markdownString c)
    = truthyStr (description c) || truthyStr (paramsPretty c) /\
  isSet (shortMarkdownString c) = isSet (markdownString c).
Proof.
  intros H. destruct (record_fields line c H)
    as (H1 & H2 & H3 & H4 & H5 & H6 & _).
  now repeat split.
Qed.

Lemma record_fields_agree_witness :
  parseLine sinLine = Return sinRecord /\
  isSet (url sinRecord) = true /\
  isSet (paramsRaw sinRecord) = isFunction sinRecord /\
  isSet (insertText sinRecord) = isFunction sinRecord /\
  isSet (paramsPretty sinRecord) = isSet (params sinRecord) /\
  isSet (markdownString sinRecord)
    = truthyStr (description sinRecord) || truthyStr (paramsPretty sinRecord) /\
  isSet (shortMarkdownString sinRecord) = isSet (markdownString sinRecord).
Proof.
  split; [run|]. apply (record_fields_agree sinLine sinRecord). run.
Defined.

(** X17: the parameters stored in a record are never an empty list;
    their rendering is stored with them, the record is a function, its
    raw text is stored trimmed and not empty, and every parameter reads
    back: no name holds a blank, a separator or a sigil, no type holds
    a blank, a comma or an equals sign, and outside of string literals
    no default holds a blank or a comma. *)
Theorem stored_params_wellformed (line : string) (c : BmxCommand)
    (ps : list BmxCommandParam) :
  parseLine line = Return c ->
  params c = Some ps ->
  (exists p rest, ps = p :: rest) /\
  paramsPretty c = Some (prettyLoop ps) /\
  isFunction c = true /\
  Forall (fun p => allChars nameChar (name p) = true /\
                   allChars typeChar (type p) = true /\
                   defaultOk false (default p) = true) ps /\
  exists raw, paramsRaw c = Some raw /\ JS.truthy raw = true /\
              JS.trim raw = raw.
Proof.
  intros H Hps. destruct (record_fields line c H)
    as (_ & _ & _ & _ & _ & _ & Hall).
  destruct (Hall ps Hps) as (Hne & Hpp & Hf & Hok & raw & Hraw & Hr & Ht).
  split; [destruct ps as [|p rest]; [now contradiction Hne | eauto]|].
  split; [assumption|]. split; [assumption|]. split.
  - eapply Forall_impl; [|exact Hok]. intros p Hp. unfold fieldsOk in Hp.
    apply andb_true_iff in Hp as [Hp Hd]. apply andb_true_iff in Hp as [Hn Hty].
    auto.
  - exists raw. split; [assumption|]. split; [|assumption].
    destruct raw; [now contradiction Hr | reflexivity].
Qed.

Lemma stored_params_wellformed_witness :
  parseLine sinLine = Return sinRecord /\
  params sinRecord = Some [mkParam "angle" "Float" ""] /\
  (exists p rest, [mkParam "angle" "Float" ""] = p :: rest) /\
  paramsPretty sinRecord = Some (prettyLoop [mkParam "angle" "Float" ""]) /\
  isFunction sinRecord = true /\
  Forall (fun p => allChars nameChar (name p) = true /\
                   allChars typeChar (type p) = true /\
                   defaultOk false (default p) = true)
         [mkParam "angle" "Float" ""] /\
  exists raw, paramsRaw sinRecord = Some raw /\ JS.truthy raw = true /\
              JS.trim raw = raw.
Proof.
  split; [run|]. split; [run|].
  apply (stored_params_wellformed sinLine sinRecord
           [mkParam "angle" "Float" ""]); run.
Defined.

(** X19: quick help never reports a command as having no help section.
    Every call it makes is a quick pick of at least two items, an
    information message with the non-empty description of a record it
    searched for, or the error that no help is available for the word. *)
Theorem quick_help_shows_descriptions_only (h : Host) (word : string)
    (selection : option nat) (ix : Index) (a : UiAction) :
  In a (fst (showQuickHelp h word selection ix)) ->
  (exists items, a = showQuickPick items /\ (2 <= length items)%nat) \/
  (exists c m,
     In c (fst (getCommand h (Some word)
                  (Some (mkFilter (Some true) None None))
                  (snd (cacheCommandsIfEmpty h true ix)))) /\
     description c = Some m /\ JS.truthy m = true /\
     a = showInformationMessage m) \/
  a = showErrorMessage
        ("No help available for " ++ String dquote word ++ String dquote "").
Proof.
  rewrite showQuickHelp_actions. cbn zeta.
  set (commands := fst (getCommand h (Some word) _ _)).
  assert (Hdesc : forall c, In c commands -> truthyStr (description c) = true)
    by (intros c; apply described_matches).
  assert (Hinfo : forall i, In a (generateQuickHelp (nth_error commands i)) ->
            exists c m, In c commands /\ description c = Some m /\
                        JS.truthy m = true /\ a = showInformationMessage m).
  { intros i Hin.
    destruct (generateQuickHelp_described commands i a Hdesc Hin)
      as (c & m & Hc & Hm & Hne & Ha).
    exists c, m. repeat split; try assumption.
    destruct m; [now contradiction Hne | reflexivity]. }
  destruct (negb (isSet (_commandsList (snd (cacheCommandsIfEmpty h true ix)))));
    [intros []|].
  destruct (1 <? length commands)%nat eqn:Hmany.
  - intros [<- | Hin].
    + left. eexists. split; [reflexivity|].
      rewrite pickOptionsOf_length. apply Nat.ltb_lt in Hmany. lia.
    + destruct (pickLoop_result (pickOptionsOf commands) 0 selection commands)
        as [E | (i & E)]; rewrite E in Hin; [contradiction Hin|].
      right. left. now apply (Hinfo i).
  - destruct (length commands =? 1)%nat.
    + intros Hin. right. left. now apply (Hinfo 0%nat).
    + intros [<- | []]. now right; right.
Qed.

Lemma quick_help_shows_descriptions_only_witness :
  In (showInformationMessage "Returns sine of angle ")
     (fst (showQuickHelp (hostWith sinLine) "Sin#" None initialIndex)) /\
  ((exists items,
      showInformationMessage "Returns sine of angle " = showQuickPick items /\
      (2 <= length items)%nat) \/
   (exists c m,
      In c (fst (getCommand (hostWith sinLine) (Some "Sin#")
                   (Some (mkFilter (Some true) None None))
                   (snd (cacheCommandsIfEmpty (hostWith sinLine) true
                                              initialIndex)))) /\
      description c = Some m /\ JS.truthy m = true /\
      showInformationMessage "Returns sine of angle "
        = showInformationMessage m) \/
   showInformationMessage "Returns sine of angle "
     = showErrorMessage
         ("No help available for " ++ String dquote "Sin#" ++ String dquote "")).
Proof.
  assert (H : In (showInformationMessage "Returns sine of angle ")
                 (fst (showQuickHelp (hostWith sinLine) "Sin#" None
                                     initialIndex)))
    by (vm_compute; now left).
  split; [exact H|].
  exact (quick_help_shows_descriptions_only (hostWith sinLine) "Sin#" None
           initialIndex (showInformationMessage "Returns sine of angle ") H).
Defined.

(** X20: when quick help finds several matches, it shows them in a
    quick pick, one item for each in their order, and after the user
    picks the item at position [i] it shows the description of match
    [i]; when the pick is dismissed it shows nothing more. *)
Theorem quick_pick_answer_shows_that_match (h : Host) (word : string)
    (i : nat) (ix : Index) (commands : list BmxCommand) (c : BmxCommand) :
  isSet (_commandsList (snd (cacheCommandsIfEmpty h true ix))) = true ->
  fst (getCommand h (Some word) (Some (mkFilter (Some true) None None))
         (snd (cacheCommandsIfEmpty h true ix))) = commands ->
  (1 < length commands)%nat ->
  nth_error commands i = Some c ->
  fst (showQuickHelp h word (Some i) ix)
    = [showQuickPick (pickOptionsOf commands);
       showInformationMessage (JS.toStr (description c))] /\
  fst (showQuickHelp h word None ix) = [showQuickPick (pickOptionsOf commands)].
Proof.
  intros Hset Hcmds Hmany Hnth.
  rewrite !showQuickHelp_actions. cbn zeta. rewrite Hset, Hcmds. cbn [negb].
  apply Nat.ltb_lt in Hmany. rewrite Hmany. split.
  - rewrite pickLoop_at.
    + rewrite Hnth. cbn [generateQuickHelp].
      assert (Hd : truthyStr (description c) = true).
      { apply (described_matches h word (snd (cacheCommandsIfEmpty h true ix))).
        rewrite Hcmds. now apply nth_error_In in Hnth. }
      now rewrite Hd.
    + lia.
    + rewrite pickOptionsOf_length. cbn [Nat.add].
      apply nth_error_Some. now rewrite Hnth.
  - now rewrite pickLoop_dismissed.
Qed.

Lemma quick_pick_answer_shows_that_match_witness :
  isSet (_commandsList (snd (cacheCommandsIfEmpty (hostWith twoSinCatalog) true
                                                  initialIndex))) = true /\
  fst (getCommand (hostWith twoSinCatalog) (Some "sin")
         (Some (mkFilter (Some true) None None))
         (snd (cacheCommandsIfEmpty (hostWith twoSinCatalog) true
                                    initialIndex))) = twoSinMatches /\
  (1 < length twoSinMatches)%nat /\
  nth_error twoSinMatches 1 = Some secondSin /\
  fst (showQuickHelp (hostWith twoSinCatalog) "sin" (Some 1%nat) initialIndex)
    = [showQuickPick (pickOptionsOf twoSinMatches);
       showInformationMessage (JS.toStr (description secondSin))] /\
  fst (showQuickHelp (hostWith twoSinCatalog) "sin" None initialIndex)
    = [showQuickPick (pickOptionsOf twoSinMatches)].
Proof.
  split; [run|]. split; [run|]. split; [vm_compute; lia|].
  split; [run|].
  apply (quick_pick_answer_shows_that_match (hostWith twoSinCatalog) "sin" 1
           initialIndex twoSinMatches secondSin);
    [run | run | vm_compute; lia | run].
Defined.

(** X21: with a loaded index, quick help for a word without a match
    shows the one error that no help is available for that word, and
    for a word with a single match it shows that match's description. *)
Theorem quick_help_with_at_most_one_match (h : Host) (word : string)
    (selection : option nat) (ix : Index) (commands : list BmxCommand) :
  isSet (_commandsList (snd (cacheCommandsIfEmpty h true ix))) = true ->
  fst (getCommand h (Some word) (Some (mkFilter (Some true) None None))
         (snd (cacheCommandsIfEmpty h true ix))) = commands ->
  (length commands <= 1)%nat ->
  fst (showQuickHelp h word selection ix) =
  match commands with
  | [] => [showErrorMessage
             ("No help available for " ++ String dquote word ++
              String dquote "")]
  | c :: _ => [showInformationMessage (JS.toStr (description c))]
  end.
Proof.
  intros Hset Hcmds Hfew.
  rewrite showQuickHelp_actions. cbn zeta. rewrite Hset, Hcmds. cbn [negb].
  destruct commands as [|c [|c' rest]]; cbn [length] in Hfew; [| |lia].
  - reflexivity.
  - cbn [length Nat.ltb Nat.leb Nat.eqb nth_error generateQuickHelp].
    assert (Hd : truthyStr (description c) = true).
    { apply (described_matches h word (snd (cacheCommandsIfEmpty h true ix))).
      rewrite Hcmds. now left. }
    now rewrite Hd.
Qed.

Lemma quick_help_with_at_most_one_match_witness :
  isSet (_commandsList (snd (cacheCommandsIfEmpty (hostWith sinLine) true
                                                  initialIndex))) = true /\
  fst (getCommand (hostWith sinLine) (Some "cos")
         (Some (mkFilter (Some true) None None))
         (snd (cacheCommandsIfEmpty (hostWith sinLine) true initialIndex)))
    = [] /\
  (length (@nil BmxCommand) <= 1)%nat /\
  fst (showQuickHelp (hostWith sinLine) "cos" None initialIndex)
    = [showErrorMessage
         ("No help available for " ++ String dquote "cos" ++ String dquote "")].
Proof.
  split; [run|]. split; [run|]. split; [cbn; lia|].
  apply (quick_help_with_at_most_one_match (hostWith sinLine) "cos" None
           initialIndex []); [run | run | cbn; lia].
Defined.

(** X22: every message that [reportProgress] passes on is a line of the
    data with the white space at both ends removed, is not changed by
    trimming again, and has at least two characters. *)
Theorem report_progress_messages (h : Host) (data m : string) :
  In m (reportProgress h data) ->
  JS.trim m = m /\ (1 < JS.len m)%Z /\
  exists line, In line (JS.split (EOL h) data) /\ m = JS.trim line.
Proof.
  unfold reportProgress. intros H.
  apply reportLoop_In in H as (line & Hin & -> & Hlen).
  split; [apply trim_idem|]. split; [assumption|]. now exists line.
Qed.

Lemma report_progress_messages_witness :
  In "Building docs"
     (reportProgress (hostWith "")
        ("  Building docs  " ++ LF ++ LF ++ " x " ++ LF)) /\
  JS.trim "Building docs" = "Building docs" /\
  (1 < JS.len "Building docs")%Z /\
  exists line,
    In line (JS.split (EOL (hostWith ""))
               ("  Building docs  " ++ LF ++ LF ++ " x " ++ LF)) /\
    "Building docs" = JS.trim line.
Proof.
  assert (H : In "Building docs"
                 (reportProgress (hostWith "")
                    ("  Building docs  " ++ LF ++ LF ++ " x " ++ LF)))
    by (vm_compute; now left).
  split; [exact H|].
  exact (report_progress_messages (hostWith "")
           ("  Building docs  " ++ LF ++ LF ++ " x " ++ LF)
           "Building docs" H).
Defined.

(** X23: the parse of a line throws exactly when the URL taken from its
    last field is not empty and has no slash; every other line, however
    it is written, yields a record. *)
Theorem line_throws_exactly_on_slashless_url (line : string) :
  exists rightSide,
    deref (JS.split "|" line) (length (JS.split "|" line) - 1)
      = Return rightSide /\
    (parseLine line = Throw TypeError <->
     exists u, url (figureOutUrl rightSide newCommand) = Some u /\
               JS.truthy u = true /\ JS.includes "/" u = false) /\
    (parseLine line = Throw TypeError \/ exists c, parseLine line = Return c).
Proof.
  destruct (parseLine_completion line) as (rightSide & Hr & Hiff & Helse).
  exists rightSide. split; [assumption|]. split.
  - rewrite Hiff. split; intros (u & Hu & Hne & Hno); exists u;
      (split; [assumption|]); (split; [|assumption]).
    + destruct u; [now contradiction Hne | reflexivity].
    + intros ->. discriminate Hne.
  - destruct (parseLine line) as [c|[]]; [right; now exists c | now left].
Qed.

(** X24: the character loop never reads the last element of an empty
    array: after any text, the array as the next turn reads it, with
    the parameter that is due pushed, has a last element. *)
Theorem param_loop_reads_live_element (raw : string) :
  exists done p,
    scanned (materialize (scanLoop raw scanStart)) = (done ++ [p])%list.
Proof.
  pose proof (ScanInv_loop raw _ ScanInv_start) as H.
  apply ScanInv_materialize in H as (done & p & m & b & Hm & _).
  exists done, p. now rewrite Hm.
Qed.
